(** * post_processor.py: the Markdown post-processing passes

    A shallow embedding of [src/post_processor.py].  The program is a
    sequence of [re.sub] rewrites over one text buffer, so the embedding
    has three layers:

    - [Py]: Python strings as lists of Unicode code points, with the
      [str] methods the program calls ([strip], [splitlines], [join],
      [replace]);
    - [Re]: the part of Python's [re] module the program uses, a
      backtracking matcher with greedy and lazy repetition, groups, the
      anchors and the flags IGNORECASE, MULTILINE and DOTALL, and
      [re.sub] on top of it;
    - [PostProcessor]: the passes of the program, the table converter
      with pandoc and the file system as an environment, and the
      [__main__] pipeline.

    They are followed by the definitions the statements need, the lemmas
    on the matcher and on [re.sub], a characterization of the matches of
    the patterns the statements are about, and the statements
    themselves.  The last part holds further properties of the passes:
    what each pass does at the first occurrence of its pattern, what the
    table converter returns and reports, and when the main program
    writes. *)

From Stdlib Require Import List NArith ZArith Bool Arith Lia.
From Stdlib Require String Ascii.
Import String.StringSyntax.
Import ListNotations.

(** ** Python strings *)

Module Py.

(** A [str] is a sequence of code points. *)
Abbreviation char := N (only parsing).
Abbreviation str := (list N) (only parsing).

Definition ceqb (a b : char) : bool := N.eqb a b.

Fixpoint str_eqb (a b : str) : bool :=
  match a, b with
  | [], [] => true
  | x :: a', y :: b' => ceqb x y && str_eqb a' b'
  | _, _ => false
  end.

(** An ASCII literal as a [str]. *)
Definition u (s : String.string) : str :=
  map Ascii.N_of_ascii (String.list_ascii_of_string s).

Definition dq : char := 34%N.   (* the double quote *)
Definition nl : char := 10%N.   (* the line feed *)

(** An ASCII literal in which a backquote stands for the double quote:
    the program's texts hold no backquote. *)
Definition q (s : String.string) : str :=
  map (fun c => if ceqb c 96%N then dq else c) (u s).

Local Open Scope N_scope.

(** [Py_UNICODE_ISSPACE]: what [str.strip], [str.isspace] and the pattern
    [\s] of a [str] pattern accept. *)
Definition is_space (c : char) : bool :=
  ((9 <=? c) && (c <=? 13)) || ((28 <=? c) && (c <=? 32))
  || (c =? 133) || (c =? 160) || (c =? 5760)
  || ((8192 <=? c) && (c <=? 8202))
  || (c =? 8232) || (c =? 8233) || (c =? 8239) || (c =? 8287)
  || (c =? 12288).

(** The line boundaries of [str.splitlines]. *)
Definition is_linebreak (c : char) : bool :=
  ((10 <=? c) && (c <=? 13)) || ((28 <=? c) && (c <=? 30))
  || (c =? 133) || (c =? 8232) || (c =? 8233).

Definition is_digit (c : char) : bool := (48 <=? c) && (c <=? 57).
Definition is_upper (c : char) : bool := (65 <=? c) && (c <=? 90).
Definition is_lower (c : char) : bool := (97 <=? c) && (c <=? 122).

(** [sre_lower_unicode], on the code points whose lower case is an ASCII
    letter: the capitals, U+0130 (dotted capital I) and U+212A (Kelvin
    sign).  Every letter written in a pattern of this program is ASCII;
    other code points are compared as they are.  The one text that a
    caller puts into an IGNORECASE pattern is the media folder name of
    convert_specific_img_tags_to_numbered_text: this is the comparison
    of Python for a folder name of ASCII characters, and the statements
    on that pass take such a name. *)
Definition lower (c : char) : char :=
  if is_upper c then c + 32
  else if c =? 304 then 105
  else if c =? 8490 then 107
  else c.

Close Scope N_scope.

Fixpoint lstrip (s : str) : str :=
  match s with
  | c :: t => if is_space c then lstrip t else s
  | [] => []
  end.

Definition rstrip (s : str) : str := rev (lstrip (rev s)).

(** [s.strip()] *)
Definition strip (s : str) : str := rstrip (lstrip s).

(** [s.splitlines()]: [cur] is the line being read, reversed.  A carriage
    return followed by a line feed is one boundary; no empty last line is
    produced. *)
Fixpoint splitlines_aux (cur : str) (s : str) : list str :=
  match s with
  | [] => match cur with [] => [] | _ => [rev cur] end
  | c :: t =>
      if is_linebreak c then
        rev cur ::
        match t with
        | d :: t' =>
            if ceqb c 13%N && ceqb d 10%N then splitlines_aux [] t'
            else splitlines_aux [] t
        | [] => []
        end
      else splitlines_aux (c :: cur) t
  end.

Definition splitlines (s : str) : list str := splitlines_aux [] s.

(** [sep.join(parts)] *)
Fixpoint join (sep : str) (parts : list str) : str :=
  match parts with
  | [] => []
  | [p] => p
  | p :: ps => p ++ sep ++ join sep ps
  end.

(** [s.replace(old, new)] for a one-character [old]. *)
Definition replace (old : char) (new : str) (s : str) : str :=
  flat_map (fun c => if ceqb c old then new else [c]) s.

(** [str(n)] for an [int]. *)
Definition digit_char (d : N) : char := (48 + d)%N.

Fixpoint dec_digits (fuel : nat) (n : N) (acc : str) : str :=
  match fuel with
  | O => acc
  | S f =>
      let acc' := digit_char (n mod 10)%N :: acc in
      if (n <? 10)%N then acc' else dec_digits f (n / 10)%N acc'
  end.

Definition str_of_int (z : Z) : str :=
  let n := Z.abs_N z in
  let ds := dec_digits (S (N.to_nat (N.log2 n))) n [] in
  if (z <? 0)%Z then 45%N :: ds else ds.

End Py.

(** ** The [re] module *)

Module Re.
Import Py.

(** [re.IGNORECASE], [re.MULTILINE], [re.DOTALL] *)
Record flags := Flags { ignorecase : bool; multiline : bool; dotall : bool }.

Definition NOFLAGS := Flags false false false.
Definition IGNORECASE := Flags true false false.
Definition MULTILINE := Flags false true false.
Definition DOTALL := Flags false false true.
Definition IGNORECASE_DOTALL := Flags true false true.

(** One item of a bracketed set. *)
Inductive item :=
| One (c : char)
| Range (a b : char).

(** What matches a single character. *)
Inductive cclass :=
| CLit (c : char)                      (* a literal or escaped character *)
| CDot                                 (* . *)
| CSpace                               (* \s *)
| CSet (neg : bool) (items : list item). (* [...] and [^...] *)

Inductive regex :=
| Eps
| Chr (cc : cclass)
| Seq (a b : regex)
| Alt (a b : regex)                    (* a|b *)
| Rep (greedy : bool) (lo : nat) (hi : option nat) (a : regex)
| Grp (n : nat) (a : regex)            (* the n-th capturing group *)
| Bol                                  (* ^ *)
| Eol.                                 (* $ *)

(** Pattern syntax. *)
Definition star a := Rep true 0 None a.          (* a*  *)
Definition plus a := Rep true 1 None a.          (* a+  *)
Definition opt a := Rep true 0 (Some 1) a.       (* a?  *)
Definition lazy_star a := Rep false 0 None a.    (* a*? *)
Definition times lo hi a := Rep true lo (Some hi) a. (* a{lo,hi} *)
Definition cat (rs : list regex) : regex := fold_right Seq Eps rs.
Definition alts (rs : list regex) : regex :=
  match rs with
  | [] => Eps
  | r :: rs' => fold_left Alt rs' r
  end.
(** A run of literal characters; also what [re.escape(s)] denotes. *)
Definition lit (s : str) : regex := cat (map (fun c => Chr (CLit c)) s).
Definition ws := Chr CSpace.
Definition dot := Chr CDot.
Definition digit := Chr (CSet false [Range 48%N 57%N]).   (* [0-9] *)
Definition notc (c : char) := Chr (CSet true [One c]).    (* [^c] *)

(** Under IGNORECASE a literal is compared through [sre_lower_unicode];
    sre adds, for the letters i and s, the dotless i and the long s. *)
Definition case_fixes (lo : char) : list char :=
  if ceqb lo 105%N then [305%N]
  else if ceqb lo 115%N then [383%N]
  else [].

(** A literal [p] of the pattern against the character [c]. *)
Definition lit_match (fl : flags) (p c : char) : bool :=
  if ignorecase fl then
    let lc := lower c in
    ceqb lc (lower p) || existsb (ceqb lc) (case_fixes (lower p))
  else ceqb c p.

(** A range is compared with the character as it is: the sets of the
    IGNORECASE patterns of this program hold no letter. *)
Definition item_match (fl : flags) (it : item) (c : char) : bool :=
  match it with
  | One p => lit_match fl p c
  | Range a b => (a <=? c)%N && (c <=? b)%N
  end.

Definition cc_match (fl : flags) (cc : cclass) (c : char) : bool :=
  match cc with
  | CLit p => lit_match fl p c
  | CDot => dotall fl || negb (ceqb c nl)
  | CSpace => is_space c
  | CSet neg items => xorb neg (existsb (fun it => item_match fl it c) items)
  end.

(** The matcher state: the character before the current position (none
    at the start of the string), the text still to read, and the groups
    captured so far, latest first. *)
Record mstate := MState {
  prev : option char;
  rest : str;
  caps : list (nat * str)
}.

Definition cont := mstate -> option mstate.

(** [^]: the start of the string and, under MULTILINE, of a line. *)
Definition at_bol (fl : flags) (st : mstate) : bool :=
  match prev st with
  | None => true
  | Some c => multiline fl && ceqb c nl
  end.

(** [$]: the end of the string or just before a newline that ends it
    and, under MULTILINE, just before any newline. *)
Definition at_eol (fl : flags) (st : mstate) : bool :=
  match rest st with
  | [] => true
  | c :: t => ceqb c nl && (multiline fl || match t with [] => true | _ => false end)
  end.

(** One more iteration is allowed after [cnt] of them. *)
Definition below (hi : option nat) (cnt : nat) : bool :=
  match hi with
  | None => true
  | Some h => cnt <? h
  end.

(** Repetition of [body], [cnt] iterations done.  A greedy loop tries one
    more iteration before the continuation, a lazy one the continuation
    first.  As in sre, an iteration that consumed nothing is not
    repeated, so [fuel] = 1 + the length of the text is never used up. *)
Fixpoint rep_loop (body : cont -> mstate -> option mstate)
    (greedy : bool) (lo : nat) (hi : option nat) (k : cont)
    (fuel cnt : nat) (st : mstate) : option mstate :=
  let stop := if lo <=? cnt then k st else None in
  match fuel with
  | O => stop
  | S fuel' =>
      let more :=
        body (fun st' =>
                if length (rest st') <? length (rest st)
                then rep_loop body greedy lo hi k fuel' (S cnt) st'
                else None) st in
      if below hi cnt then
        if greedy then
          match more with Some r => Some r | None => stop end
        else if lo <=? cnt then
          match k st with Some r => Some r | None => more end
        else more
      else stop
  end.

(** Group [n] is the text read between [from] and [st]. *)
Definition set_cap (n : nat) (from : mstate) (st : mstate) : mstate :=
  MState (prev st) (rest st)
    ((n, firstn (length (rest from) - length (rest st)) (rest from)) :: caps st).

(** Backtracking matcher in continuation-passing style: [m fl r k st] is
    the first success, in sre's priority order, of [r] at [st] followed
    by [k]. *)
Fixpoint m (fl : flags) (r : regex) (k : cont) (st : mstate) {struct r}
  : option mstate :=
  match r with
  | Eps => k st
  | Chr cc =>
      match rest st with
      | c :: t =>
          if cc_match fl cc c then k (MState (Some c) t (caps st)) else None
      | [] => None
      end
  | Seq a b => m fl a (m fl b k) st
  | Alt a b =>
      match m fl a k st with
      | Some res => Some res
      | None => m fl b k st
      end
  | Rep greedy lo hi a =>
      rep_loop (m fl a) greedy lo hi k (S (length (rest st))) 0 st
  | Grp n a => m fl a (fun st' => k (set_cap n st st')) st
  | Bol => if at_bol fl st then k st else None
  | Eol => if at_eol fl st then k st else None
  end.

(** A match object: [whole] is group 0, [groups] the numbered groups,
    latest first. *)
Record hit := Hit { whole : str; groups : list (nat * str) }.

Fixpoint lookup (n : nat) (cs : list (nat * str)) : option str :=
  match cs with
  | [] => None
  | (i, s) :: cs' => if Nat.eqb i n then Some s else lookup n cs'
  end.

(** [match.group(n)], with the empty string for a group that took no part. *)
Definition group (h : hit) (n : nat) : str :=
  match lookup n (groups h) with
  | Some s => s
  | None => []
  end.

(** One match attempt at a position: the text [s] from there on and the
    character [p] before it.  [must_advance] refuses an empty match. *)
Definition match_at (fl : flags) (r : regex) (must_advance : bool)
    (p : option char) (s : str) : option hit :=
  match
    m fl r (fun st =>
              if must_advance && (length (rest st) =? length s) then None
              else Some st)
      (MState p s [])
  with
  | Some st => Some (Hit (firstn (length s - length (rest st)) s) (caps st))
  | None => None
  end.

(** [re.match(pattern, s)] *)
Definition re_match (fl : flags) (r : regex) (s : str) : option hit :=
  match_at fl r false None s.

(** What [re.sub] does at one position: the matches found there and how
    many characters they consumed.  After an empty match the search is
    retried at the same position for a match that advances. *)
Definition search_here (fl : flags) (r : regex) (p : option char) (s : str)
  : list hit * nat :=
  match match_at fl r false p s with
  | None => ([], 0)
  | Some h =>
      match length (whole h) with
      | S n => ([h], S n)
      | O =>
          match match_at fl r true p s with
          | Some h' => ([h; h'], length (whole h'))
          | None => ([h], 0)
          end
      end
  end.

(** The text cut into unmatched characters and matches, left to right. *)
Inductive segment :=
| Keep (c : char)
| Found (h : hit).

(** [skip] counts the characters of the last match still to pass. *)
Fixpoint scan (fl : flags) (r : regex) (p : option char) (skip : nat)
    (s : str) : list segment :=
  match s with
  | [] =>
      match skip with
      | O => map Found (firstn 1 (fst (search_here fl r p [])))
      | S _ => []
      end
  | c :: t =>
      match skip with
      | S n => scan fl r (Some c) n t
      | O =>
          let '(hs, n) := search_here fl r p s in
          map Found hs ++
          match n with
          | O => Keep c :: scan fl r (Some c) 0 t
          | S n' => scan fl r (Some c) n' t
          end
      end
  end.

(** [re.sub(pattern, repl, s)] with a function [repl]. *)
Definition sub_with (fl : flags) (r : regex) (repl : hit -> str) (s : str) : str :=
  flat_map (fun sg => match sg with Keep c => [c] | Found h => repl h end)
           (scan fl r None 0 s).

(** [re.sub] with a function [repl] that has effects: the state [w] is
    threaded through the calls, in the order of the matches. *)
Fixpoint sub_fold {W : Type} (repl : hit -> W -> str * W)
    (segs : list segment) (w : W) : str * W :=
  match segs with
  | [] => ([], w)
  | Keep c :: segs' =>
      let '(out, w') := sub_fold repl segs' w in (c :: out, w')
  | Found h :: segs' =>
      let '(r, w1) := repl h w in
      let '(out, w2) := sub_fold repl segs' w1 in
      (r ++ out, w2)
  end.

(** A replacement template: text and group references [\n]. *)
Inductive titem :=
| T (s : str)
| G (n : nat).

Definition expand (tpl : list titem) (h : hit) : str :=
  flat_map (fun it => match it with T s => s | G n => group h n end) tpl.

(** [re.sub(pattern, repl, s, flags=fl)] with a template [repl]. *)
Definition sub (fl : flags) (r : regex) (tpl : list titem) (s : str) : str :=
  sub_with fl r (expand tpl) s.

(** [re.search(pattern, s) is not None] *)
Fixpoint occurs_from (fl : flags) (r : regex) (p : option char) (s : str) : bool :=
  match match_at fl r false p s with
  | Some _ => true
  | None =>
      match s with
      | [] => false
      | c :: t => occurs_from fl r (Some c) t
      end
  end.

Definition occurs (fl : flags) (r : regex) (s : str) : bool :=
  occurs_from fl r None s.

End Re.

(** ** The passes of post_processor.py *)

Module PostProcessor.
Import Py Re.

Local Open Scope string_scope.

(** Each pattern is given next to its definition as the source writes
    it, with a backquote for the double quote and a blank between a star
    and a closing parenthesis. *)

(** *** remove_unwanted_spans *)

(** [<span\s+id=`ch[0-9]+\.html`[^>]*>\s*<\/span>] *)
Definition empty_span_pattern : regex :=
  cat [lit (u "<span"); plus ws; lit (q "id=`ch"); plus digit;
       lit (q ".html`"); star (notc 62%N); lit (u ">"); star ws;
       lit (u "</span>")].

(** [<span\s+[^>]*?data-type=\`indexterm\`[^>]*>(.*?)<\/span>] *)
Definition indexterm_span_pattern : regex :=
  cat [lit (u "<span"); plus ws; lazy_star (notc 62%N);
       lit (q "data-type=`indexterm`"); star (notc 62%N); lit (u ">");
       Grp 1 (lazy_star dot); lit (u "</span>")].

Definition remove_unwanted_spans (text : str) : str :=
  let text := sub IGNORECASE empty_span_pattern [] text in
  let text := sub IGNORECASE_DOTALL indexterm_span_pattern [G 1] text in
  text.

(** *** convert_smart_quotes *)

Definition ldquo : char := 8220%N.   (* U+201C *)
Definition rdquo : char := 8221%N.   (* U+201D *)
Definition lsquo : char := 8216%N.   (* U+2018 *)
Definition rsquo : char := 8217%N.   (* U+2019 *)

Definition convert_smart_quotes (text : str) : str :=
  let text := replace rdquo [dq] (replace ldquo [dq] text) in
  let text := replace rsquo (u "'") (replace lsquo (u "'") text) in
  text.

(** *** fix_footnote_definitions *)

(** [^\^\(\[([0-9]+)\]\(#[^)]+\)\)\s*(.* )] *)
Definition footnote_definition_pattern : regex :=
  cat [Bol; lit (u "^(["); Grp 1 (plus digit); lit (u "](#");
       plus (notc 41%N); lit (u "))"); star ws; Grp 2 (star dot)].

(** The template [[^\1]: \2]. *)
Definition footnote_template : list titem :=
  [T (u "[^"); G 1; T (u "]: "); G 2].

Definition fix_footnote_definitions (text : str) : str :=
  sub MULTILINE footnote_definition_pattern footnote_template text.

(** *** convert_image_captions_to_figures *)

(** The groups alt, slash, filename and caption are numbered 1 to 4.
    [^!\[(?P<alt>[^\]]* )\]\(.(?P<slash>/)<folder>/(?P<filename>[^)]+)\)\s*\n(?:^\s*\n)*^######\s*(?P<caption>.*?)\s*$] *)
Definition figure_caption_pattern (media_folder_name : str) : regex :=
  cat [Bol; lit (u "!["); Grp 1 (star (notc 93%N)); lit (u "](");
       dot; Grp 2 (lit (u "/")); lit media_folder_name; lit (u "/");
       Grp 3 (plus (notc 41%N)); lit (u ")"); star ws; lit [nl];
       star (cat [Bol; star ws; lit [nl]]);
       Bol; lit (u "######"); star ws; Grp 4 (lazy_star dot); star ws; Eol].

(** [\[([^\]]+)\]\(([^)]+)\)] *)
Definition markdown_link_pattern : regex :=
  cat [lit (u "["); Grp 1 (plus (notc 93%N)); lit (u "]("); 
       Grp 2 (plus (notc 41%N)); lit (u ")")].

Definition replace_with_figure (media_folder_name : str) (mt : hit) : str :=
  let alt_text := group mt 1 in
  let slash := group mt 2 in
  let filename := group mt 3 in
  let caption_md := group mt 4 in
  let img_src := u "." ++ slash ++ media_folder_name ++ u "/" ++ filename in
  let caption_html :=
    sub NOFLAGS markdown_link_pattern
      [T (q "<a href=`"); G 2; T (q "`>"); G 1; T (u "</a>")] caption_md in
  let alt_text_html := replace dq (u "&quot;") alt_text in
  u "<figure>" ++ [nl]
  ++ q "  <img src=`" ++ img_src ++ q "` alt=`" ++ alt_text_html ++ q "` />" ++ [nl]
  ++ u "  <figcaption>" ++ caption_html ++ u "</figcaption>" ++ [nl]
  ++ u "</figure>" ++ [nl].

Definition convert_image_captions_to_figures (text media_folder_name : str) : str :=
  sub_with MULTILINE (figure_caption_pattern media_folder_name)
    (replace_with_figure media_folder_name) text.

(** *** convert_h6_to_blockquote *)

(** [^######\s*(Tip|Note|Caution|Warning)$] *)
Definition admonition_pattern : regex :=
  cat [Bol; lit (u "######"); star ws;
       Grp 1 (alts [lit (u "Tip"); lit (u "Note"); lit (u "Caution");
                    lit (u "Warning")]);
       Eol].

Definition convert_h6_to_blockquote (text : str) : str :=
  sub MULTILINE admonition_pattern [T (u "[!"); G 1; T (u "]")] text.

(** *** adjust_headers *)

Definition hash := Chr (CLit 35%N).

(** [^(#####\s* )(Example\s+[0-9]+(?:-[0-9]+)?\..* )$] *)
Definition example_header_pattern : regex :=
  cat [Bol; Grp 1 (cat [lit (u "#####"); star ws]);
       Grp 2 (cat [lit (u "Example"); plus ws; plus digit;
                   opt (cat [lit (u "-"); plus digit]); lit (u ".");
                   star dot]);
       Eol].

(** [^#\s+Chapter\s+[0-9.]+.*$] *)
Definition chapter_header_pattern : regex :=
  cat [Bol; lit (u "#"); plus ws; lit (u "Chapter"); plus ws;
       plus (Chr (CSet false [Range 48%N 57%N; One 46%N])); star dot; Eol].

(** [^(#{1,5})(\s+.* )$] *)
Definition general_header_pattern : regex :=
  cat [Bol; Grp 1 (times 1 5 hash); Grp 2 (cat [plus ws; star dot]); Eol].

(** The body of the loop over the lines. *)
Definition adjust_line (line : str) : str :=
  match re_match NOFLAGS example_header_pattern line with
  | Some match_ex3 => u "*" ++ strip (group match_ex3 2) ++ u "*"
  | None =>
      let stripped_line := strip line in
      if str_eqb stripped_line (u "# Chapter Goals") then u "### Chapter Goals"
      else
        match re_match NOFLAGS chapter_header_pattern stripped_line with
        | Some _ => line
        | None =>
            match re_match NOFLAGS general_header_pattern line with
            | Some match_general =>
                let current_hashes := group match_general 1 in
                let header_text_part := group match_general 2 in
                u "#" ++ current_hashes ++ header_text_part
            | None => line
            end
        end
  end.

Definition adjust_headers (text : str) : str :=
  let lines := splitlines text in
  let new_lines := map adjust_line lines in
  join [nl] new_lines.

(** *** convert_superscript_footnotes *)

(** [^<sup>\[([0-9]+)\]\(#[^)]+\)<\/sup>\s+(.* )] *)
Definition superscript_footnote_pattern : regex :=
  cat [Bol; lit (u "<sup>["); Grp 1 (plus digit); lit (u "](#");
       plus (notc 41%N); lit (u ")</sup>"); plus ws; Grp 2 (star dot)].

Definition convert_superscript_footnotes (text : str) : str :=
  sub MULTILINE superscript_footnote_pattern footnote_template text.

(** *** process_html_figures *)

(** [(<figure[^>]*>)(.*?)(<\/figure>)] *)
Definition figure_pattern : regex :=
  cat [Grp 1 (cat [lit (u "<figure"); star (notc 62%N); lit (u ">")]);
       Grp 2 (lazy_star dot);
       Grp 3 (lit (u "</figure>"))].

(** [<h6([^>]* )>] and [</h6>] *)
Definition h6_open_pattern : regex :=
  cat [lit (u "<h6"); Grp 1 (star (notc 62%N)); lit (u ">")].
Definition h6_close_pattern : regex := lit (u "</h6>").

Definition _normalize_and_replace_h6 (mt : hit) : str :=
  let figure_content := group mt 2 in
  let normalized_figure_opening_tag := u "<figure>" in
  let content_modified :=
    sub IGNORECASE h6_open_pattern [T (u "<figcaption"); G 1; T (u ">")]
      figure_content in
  let content_modified :=
    sub IGNORECASE h6_close_pattern [T (u "</figcaption>")] content_modified in
  normalized_figure_opening_tag ++ [nl] ++ strip content_modified ++ [nl]
  ++ u "</figure>".

Definition process_html_figures (text : str) : str :=
  sub_with IGNORECASE_DOTALL figure_pattern _normalize_and_replace_h6 text.

(** *** convert_internal_links_to_text *)

(** [<a\s+(?:[^>]*?\s+)?href=\`#(?:[^\`]* )\`(?:[^>]* )>(.*?)<\/a>] *)
Definition internal_link_pattern : regex :=
  cat [lit (u "<a"); plus ws; opt (cat [lazy_star (notc 62%N); plus ws]);
       lit (q "href=`#"); star (notc dq); lit [dq]; star (notc 62%N);
       lit (u ">"); Grp 1 (lazy_star dot); lit (u "</a>")].

Definition convert_internal_links_to_text (text : str) : str :=
  sub IGNORECASE internal_link_pattern [G 1] text.

(** *** normalize_blockquoted_headers *)

(** [^(>\s* )(#{1,6})(\s+.* )$] *)
Definition blockquoted_header_pattern : regex :=
  cat [Bol; Grp 1 (cat [lit (u ">"); star ws]); Grp 2 (times 1 6 hash);
       Grp 3 (cat [plus ws; star dot]); Eol].

(** The template [\1###\3]. *)
Definition normalize_blockquoted_headers (text : str) : str :=
  sub MULTILINE blockquoted_header_pattern [G 1; T (u "###"); G 3] text.

(** *** convert_specific_img_tags_to_numbered_text *)

(** [<img\s+(?:[^>]*?\s+)?src=`\.\/<folder>\/[0-9]+\.png`(?:[^>]*?\s+)?alt=`([0-9]+)`(?:[^>]*?)\s*\/?>\s+\n] *)
Definition numbered_img_pattern (media_folder_name : str) : regex :=
  cat [lit (u "<img"); plus ws;
       opt (cat [lazy_star (notc 62%N); plus ws]);
       lit (q "src=`./"); lit media_folder_name; lit (u "/"); plus digit;
       lit (q ".png`");
       opt (cat [lazy_star (notc 62%N); plus ws]);
       lit (q "alt=`"); Grp 1 (plus digit); lit [dq];
       lazy_star (notc 62%N);
       star ws; opt (lit (u "/")); lit (u ">"); plus ws; lit [nl]].

(** The folder name is part of an IGNORECASE pattern; see [lower] for the
    names on which the comparison is that of Python. *)
Definition convert_specific_img_tags_to_numbered_text
    (text media_folder_name : str) : str :=
  sub IGNORECASE (numbered_img_pattern media_folder_name) [G 1; T (u ". ")] text.

(** The default value of the parameter [media_folder_name]. *)
Definition default_media_folder : str := u "assets".

(** *** remove_reference_tags *)

(** [[a-zA-Z0-9_]] *)
Definition word_class : cclass :=
  CSet false [Range 97%N 122%N; Range 65%N 90%N; Range 48%N 57%N; One 95%N].
Definition word_char := Chr word_class.

(** [{#[a-zA-Z0-9_]+}] *)
Definition reference_tag_pattern : regex :=
  cat [lit (u "{#"); plus word_char; lit (u "}")].

Definition remove_reference_tags (text : str) : str :=
  sub NOFLAGS reference_tag_pattern [] text.

(** *** convert_html_snippet_to_markdown and convert_tables_to_markdown *)

(** What [subprocess.run] can do: return a completed process or raise. *)
Inductive run_result :=
| Completed (returncode : Z) (stdout stderr : str)
| FileNotFoundError
| OtherException (e : str).

(** What [open(path).read()] can do. *)
Inductive read_result :=
| ReadOk (content : str)
| ReadNotFound
| ReadError (e : str).

(** The world outside the program: the path of the Lua filter, the file
    system and the pandoc executable. *)
Record env := Env {
  LUA_TABLE_FLATTENER_FILTER : str;
  path_exists : str -> bool;
  subprocess_run : list str -> str -> run_result;
  read_file : str -> read_result;
  write_file : str -> str -> option str   (* the exception raised, if any *)
}.

(** What the program writes to its two streams. *)
Inductive event :=
| Stdout (s : str)
| Stderr (s : str).

(** [<p>(.*?)</p>] *)
Definition paragraph_pattern : regex :=
  cat [lit (u "<p>"); Grp 1 (lazy_star dot); lit (u "</p>")].

(** [\s*\{\#([a-zA-Z0-9_.-]+)\}\s*$] *)
Definition table_id_pattern : regex :=
  cat [star ws; lit (u "{#");
       Grp 1 (plus (Chr (CSet false [Range 97%N 122%N; Range 65%N 90%N;
                                     Range 48%N 57%N; One 95%N; One 46%N;
                                     One 45%N])));
       lit (u "}"); star ws; Eol].

Definition convert_html_snippet_to_markdown (e : env)
    (html_snippet from_format to_format : str) : str * list event :=
  let pandoc_cmd := [u "pandoc"; u "--from"; from_format; u "--to"; to_format] in
  let '(pandoc_cmd, log) :=
    if path_exists e (LUA_TABLE_FLATTENER_FILTER e)
    then (pandoc_cmd ++ [u "--lua-filter"; LUA_TABLE_FLATTENER_FILTER e], [])
    else (pandoc_cmd,
          [Stderr (u "Python Warning: Table flattener Lua filter not found at "
                   ++ LUA_TABLE_FLATTENER_FILTER e
                   ++ u ". Lists inside tables might not be flattened as intended."
                   ++ [nl])]) in
  let html_snippet := sub DOTALL paragraph_pattern [G 1] html_snippet in
  match subprocess_run e pandoc_cmd html_snippet with
  | Completed returncode stdout stderr =>
      if (returncode =? 0)%Z then
        let markdown_output := strip stdout in
        let markdown_output := sub MULTILINE table_id_pattern [] markdown_output in
        (markdown_output, log)
      else
        (html_snippet,
         log ++
         [Stderr (u "Python Warning: Pandoc failed to convert snippet (code "
                  ++ str_of_int returncode ++ u "). Target format: "
                  ++ to_format ++ [nl]);
          Stderr (u "Pandoc Stderr: " ++ firstn 500 stderr ++ u "..." ++ [nl])])
  | FileNotFoundError =>
      (html_snippet,
       log ++
       [Stderr (u "Python Error: pandoc command not found. Cannot convert HTML snippet to Markdown."
                ++ [nl])])
  | OtherException ex =>
      (html_snippet,
       log ++
       [Stderr (u "Python Error during pandoc snippet conversion: " ++ ex
                ++ [nl])])
  end.

(** [<table[^>]*>.*?<\/table>] *)
Definition table_pattern : regex :=
  cat [lit (u "<table"); star (notc 62%N); lit (u ">"); lazy_star dot;
       lit (u "</table>")].

(** [print(a, b, c)] *)
Definition print3 (a b c : str) : event :=
  Stdout (a ++ u " " ++ b ++ u " " ++ c ++ [nl]).

(** The state of the callback: the events so far and [processed_count]. *)
Definition replace_with_markdown_table (e : env) (mt : hit)
    (w : list event * nat) : str * (list event * nat) :=
  let '(log, processed_count) := w in
  let html_table := whole mt in
  let log := log ++ [print3 (u "Original table:" ++ [nl]) html_table [nl; nl; nl]] in
  let '(markdown_table, log') :=
    convert_html_snippet_to_markdown e html_table (u "html") (u "gfm") in
  let log := log ++ log' in
  let log := log ++ [print3 (u "Markdown table:" ++ [nl]) markdown_table [nl; nl; nl]] in
  let processed_count :=
    if negb (str_eqb markdown_table html_table) then S processed_count
    else processed_count in
  (markdown_table, (log, processed_count)).

Definition convert_tables_to_markdown (e : env) (text : str) : str * list event :=
  let '(modified_text, (log, _)) :=
    sub_fold (replace_with_markdown_table e)
      (scan IGNORECASE_DOTALL table_pattern None 0 text) ([], 0) in
  (modified_text, log).

(** *** The main program *)

(** The twelve steps, in the order of the source.  The folder name read
    from the command line is in scope as [current_media_folder]. *)
Definition pipeline (e : env) (current_media_folder : str) (content : str)
  : str * list event :=
  let content := convert_smart_quotes content in
  let content := fix_footnote_definitions content in
  let content := convert_h6_to_blockquote content in
  let content := adjust_headers content in
  let content := remove_unwanted_spans content in
  let content := convert_superscript_footnotes content in
  let content := process_html_figures content in
  let content := convert_internal_links_to_text content in
  let content := normalize_blockquoted_headers content in
  let content :=
    convert_specific_img_tags_to_numbered_text content default_media_folder in
  let '(content, log) := convert_tables_to_markdown e content in
  let content := remove_reference_tags content in
  (content, log).

(** The result of a run: the exit status (none when the script runs to
    its end), the events, and what was written to the file, if anything. *)
Record run := Run {
  exit_status : option Z;
  events : list event;
  written : option str
}.

(** [argv] is [sys.argv]. *)
Definition main (e : env) (argv : list str) : run :=
  match argv with
  | [] | [_] =>
      Run (Some 1%Z)
        [Stderr (u "Usage: python post_processor.py <markdown_file_path> [media_folder_name]" ++ [nl])]
        None
  | _ :: markdown_file_path :: args =>
      let current_media_folder :=
        match args with
        | folder :: _ => folder
        | [] => u "assets"
        end in
      match read_file e markdown_file_path with
      | ReadNotFound =>
          Run (Some 1%Z)
            [Stderr (u "Error: File not found " ++ markdown_file_path ++ [nl])]
            None
      | ReadError ex =>
          Run (Some 1%Z)
            [Stderr (u "Error reading file " ++ markdown_file_path ++ u ": "
                     ++ ex ++ [nl])]
            None
      | ReadOk content =>
          let original_content := content in
          let '(content, log) := pipeline e current_media_folder content in
          if negb (str_eqb content original_content) then
            match write_file e markdown_file_path content with
            | None => Run None log (Some content)
            | Some ex =>
                Run (Some 1%Z)
                  (log ++
                   [Stderr (u "Error writing file " ++ markdown_file_path
                            ++ u ": " ++ ex ++ [nl])])
                  None
            end
          else Run None log None
      end
  end.

End PostProcessor.

Import Py Re PostProcessor.
Local Open Scope string_scope.

(** * Definitions for the specification *)

(** ** Matching, seen from the text *)

(** The character before the position reached after reading [a]. *)
Definition prev_after (p : option char) (a : str) : option char :=
  fold_left (fun _ c => Some c) a p.

(** The longest prefix of characters accepted by [pc], and what follows. *)
Fixpoint span (pc : char -> bool) (s : str) : str * str :=
  match s with
  | c :: t => if pc c then let '(a, b) := span pc t in (c :: a, b) else ([], s)
  | [] => ([], [])
  end.

(** [n] repetitions are not more than the bound allows. *)
Definition within (hi : option nat) (n : nat) : bool :=
  match hi with
  | None => true
  | Some h => n <=? h
  end.

(** A greedy repetition of a one-character pattern, without the fuel. *)
Fixpoint greedy_spec (pc : char -> bool) (lo : nat) (hi : option nat)
    (k : cont) (cnt : nat) (p : option char) (s : str)
    (cs : list (nat * str)) : option mstate :=
  let stop := if lo <=? cnt then k (MState p s cs) else None in
  match s with
  | c :: t =>
      if below hi cnt && pc c then
        match greedy_spec pc lo hi k (S cnt) (Some c) t cs with
        | Some r => Some r
        | None => stop
        end
      else stop
  | [] => stop
  end.

(** A lazy repetition of a one-character pattern, without the fuel. *)
Fixpoint lazy_spec (pc : char -> bool) (lo : nat) (hi : option nat)
    (k : cont) (cnt : nat) (p : option char) (s : str)
    (cs : list (nat * str)) : option mstate :=
  let more :=
    match s with
    | c :: t =>
        if below hi cnt && pc c
        then lazy_spec pc lo hi k (S cnt) (Some c) t cs
        else None
    | [] => None
    end in
  if lo <=? cnt then
    match k (MState p s cs) with
    | Some r => Some r
    | None => more
    end
  else more.

(** [l] matches a prefix of [s], character by character. *)
Fixpoint lit_prefix (fl : flags) (l s : str) : bool :=
  match l, s with
  | [], _ => true
  | x :: l', c :: s' => lit_match fl x c && lit_prefix fl l' s'
  | _ :: _, [] => false
  end.

(** [l] matches at no position of [c] in the text [c ++ tail]. *)
Fixpoint free_of (fl : flags) (l c tail : str) : bool :=
  match c with
  | [] => true
  | _ :: c' => negb (lit_prefix fl l (c ++ tail)) && free_of fl l c' tail
  end.

(** [needle in hay] *)
Fixpoint contains (needle hay : str) : bool :=
  lit_prefix NOFLAGS needle hay
  || match hay with
     | [] => false
     | _ :: hay' => contains needle hay'
     end.

(** No [^] in the pattern: a match does not look behind its start. *)
Fixpoint bol_free (r : regex) : bool :=
  match r with
  | Bol => false
  | Seq a b | Alt a b => bol_free a && bol_free b
  | Rep _ _ _ a | Grp _ a => bol_free a
  | _ => true
  end.

(** Two states that differ at most in the character before them, and two
    results that do. *)
Definition same_text (a b : mstate) : Prop :=
  rest a = rest b /\ caps a = caps b.

Definition same_result (x y : option mstate) : Prop :=
  match x, y with
  | Some a, Some b => same_text a b
  | None, None => True
  | _, _ => False
  end.

(** The text that [re.sub] builds from the segments. *)
Definition render (repl : hit -> str) (segs : list segment) : str :=
  flat_map (fun sg => match sg with Keep c => [c] | Found h => repl h end) segs.

(** ** Character classes *)

Definition is_word (c : char) : bool := cc_match NOFLAGS word_class c.
Definition is_hash (c : char) : bool := ceqb c 35%N.
Definition not_nl (c : char) : bool := negb (ceqb c nl).
Definition not_gt (c : char) : bool := negb (ceqb c 62%N).

(** An s, S or long s: what the first letter of [src] matches. *)
Definition s_like (c : char) : bool := lit_match IGNORECASE 115%N c.

Definition no_space (s : str) : bool := forallb (fun c => negb (is_space c)) s.

(** A name of ASCII characters, such as [assets] and [media]. *)
Definition is_ascii (c : char) : bool := (c <? 128)%N.
Definition ascii_name (s : str) : bool := forallb is_ascii s.

Definition starts_without_space (s : str) : Prop :=
  match s with
  | [] => True
  | c :: _ => is_space c = false
  end.

(** No white space in [s] is followed by a character accepted by [pcy]. *)
Fixpoint no_space_then (pcy : char -> bool) (s : str) : bool :=
  match s with
  | x :: t =>
      match t with
      | y :: _ => negb (is_space x && pcy y) && no_space_then pcy t
      | [] => true
      end
  | [] => true
  end.

(** ** Reference tags *)

(** The marker with the identifier [ident]. *)
Definition tag_text (ident : str) : str := u "{#" ++ ident ++ u "}".

(** A reference tag at the start of [s]: its identifier and the text
    after the closing brace. *)
Definition tag_at (s : str) : option (str * str) :=
  match s with
  | c1 :: c2 :: s1 =>
      if ceqb c1 123%N && ceqb c2 35%N then
        match span is_word s1 with
        | (x :: a, c3 :: b) => if ceqb c3 125%N then Some (x :: a, b) else None
        | _ => None
        end
      else None
  | _ => None
  end.

(** ** Figure blocks *)

(** The opening tag with the attributes [attrs]. *)
Definition figure_open (attrs : str) : str := u "<figure" ++ attrs ++ u ">".

(** The two rewrites of the callback on the content of a block. *)
Definition h6_to_figcaption (figure_content : str) : str :=
  sub IGNORECASE h6_close_pattern [T (u "</figcaption>")]
    (sub IGNORECASE h6_open_pattern [T (u "<figcaption"); G 1; T (u ">")]
       figure_content).

(** What the callback returns for a block with the content
    [figure_content]. *)
Definition normalized_figure (figure_content : str) : str :=
  u "<figure>" ++ [nl] ++ strip (h6_to_figcaption figure_content) ++ [nl]
  ++ u "</figure>".

(** ** Numbered images *)

(** The tag with the folder [folder], the digits [d1] in src and the
    digits [d2] in alt. *)
Definition img_tag (folder d1 d2 : str) : str :=
  q "<img src=`./" ++ folder ++ u "/" ++ d1 ++ q ".png` alt=`" ++ d2 ++ q "` />".

(** The pattern of the numbered image, cut where the proofs stop: the
    optional attributes, the part from [alt] on and the part from [src]
    on, and the end of the tag. *)
Definition other_attrs : regex := opt (cat [lazy_star (notc 62%N); plus ws]).

Definition img_re_tail : list regex :=
  [lazy_star (notc 62%N); star ws; opt (lit (u "/")); lit (u ">"); plus ws;
   lit [nl]].

Definition img_re_alt : list regex :=
  lit (q "alt=`") :: Grp 1 (plus digit) :: lit [dq] :: img_re_tail.

Definition img_re_src (folder : str) : list regex :=
  lit (q "src=`./") :: lit folder :: lit (u "/") :: plus digit
  :: lit (q ".png`") :: other_attrs :: img_re_alt.

(** The text of the tag, cut at the same places; [sp] is the white space
    after the tag and [post] the text after the newline. *)
Definition img_tail_text (sp post : str) : str :=
  32%N :: u "/" ++ u ">" ++ sp ++ nl :: post.

Definition img_alt_text (d2 sp post : str) : str :=
  q "alt=`" ++ d2 ++ dq :: img_tail_text sp post.

Definition img_src_text (folder d1 d2 sp post : str) : str :=
  q "src=`./" ++ folder ++ u "/" ++ d1 ++ q ".png`"
  ++ 32%N :: img_alt_text d2 sp post.

(** The tag from [src] up to its closing bracket. *)
Definition img_attrs_text (folder d1 d2 : str) : str :=
  q "src=`./" ++ folder ++ u "/" ++ d1 ++ q ".png`" ++ 32%N :: q "alt=`" ++ d2
  ++ dq :: 32%N :: u "/".

(** ** Blockquoted headers *)

(** The start of the text or of a line. *)
Definition line_start (p : option char) : bool :=
  match p with
  | None => true
  | Some c => ceqb c nl
  end.

(** A blockquoted header at the start of [s]: the three groups and the
    text after the match. *)
Definition header_at (p : option char) (s : str)
  : option (str * str * str * str) :=
  if line_start p then
    match s with
    | c :: s1 =>
        if ceqb c 62%N then
          let '(w1, s2) := span is_space s1 in
          let '(h, s3) := span is_hash s2 in
          if (1 <=? length h) && (length h <=? 6) then
            let '(w2, s4) := span is_space s3 in
            match w2 with
            | [] => None
            | _ :: _ =>
                let '(l, s5) := span not_nl s4 in
                Some (c :: w1, h, w2 ++ l, s5)
            end
          else None
        else None
    | [] => None
    end
  else None.

(** The parts of a blockquoted header: the white space after the marker,
    the hashes, the white space after them, the rest of the line, and
    the text [x] after the match. *)
Definition header_parts (w1 h w2 l x : str) : Prop :=
  forallb is_space w1 = true /\
  forallb is_hash h = true /\ 1 <= length h <= 6 /\
  w2 <> [] /\ forallb is_space w2 = true /\
  forallb not_nl l = true /\
  starts_without_space (l ++ x) /\
  match x with [] => True | c :: _ => c = nl end.

(** Whether the text after a marker is a header. *)
Definition header_follows (t : str) : bool :=
  let '(w1, s2) := span is_space t in
  let '(h, s3) := span is_hash s2 in
  (1 <=? length h) && (length h <=? 6)
  && match fst (span is_space s3) with [] => false | _ :: _ => true end.

(** Two texts that agree up to their first marker. *)
Inductive same_to_marker : str -> str -> Prop :=
| same_end : same_to_marker [] []
| same_marker x y : same_to_marker (62%N :: x) (62%N :: y)
| same_char c x y : same_to_marker x y -> same_to_marker (c :: x) (c :: y).

(** The pass from a position inside the text, [p] being the character
    before it. *)
Definition normalize_from (p : option char) (s : str) : str :=
  render (expand [G 1; T (u "###"); G 3])
    (scan MULTILINE blockquoted_header_pattern p 0 s).

(** ** The transforms and their patterns *)

(** The thirteen functions from text to text of the program. *)
Inductive transform :=
| RemoveUnwantedSpans
| ConvertSmartQuotes
| FixFootnoteDefinitions
| ConvertImageCaptionsToFigures
| ConvertH6ToBlockquote
| AdjustHeaders
| ConvertSuperscriptFootnotes
| ProcessHtmlFigures
| ConvertInternalLinksToText
| NormalizeBlockquotedHeaders
| ConvertSpecificImgTagsToNumberedText
| ConvertTablesToMarkdown
| RemoveReferenceTags.

(** The text a transform returns; the table converter runs in [e]. *)
Definition apply_transform (e : env) (folder : str) (tr : transform)
    (text : str) : str :=
  match tr with
  | RemoveUnwantedSpans => remove_unwanted_spans text
  | ConvertSmartQuotes => convert_smart_quotes text
  | FixFootnoteDefinitions => fix_footnote_definitions text
  | ConvertImageCaptionsToFigures => convert_image_captions_to_figures text folder
  | ConvertH6ToBlockquote => convert_h6_to_blockquote text
  | AdjustHeaders => adjust_headers text
  | ConvertSuperscriptFootnotes => convert_superscript_footnotes text
  | ProcessHtmlFigures => process_html_figures text
  | ConvertInternalLinksToText => convert_internal_links_to_text text
  | NormalizeBlockquotedHeaders => normalize_blockquoted_headers text
  | ConvertSpecificImgTagsToNumberedText =>
      convert_specific_img_tags_to_numbered_text text folder
  | ConvertTablesToMarkdown => fst (convert_tables_to_markdown e text)
  | RemoveReferenceTags => remove_reference_tags text
  end.

Definition is_some {A} (o : option A) : bool :=
  match o with Some _ => true | None => false end.

(** A line to which one of the four rules of the header adjuster applies. *)
Definition line_recognized (line : str) : bool :=
  is_some (re_match NOFLAGS example_header_pattern line)
  || str_eqb (strip line) (u "# Chapter Goals")
  || is_some (re_match NOFLAGS chapter_header_pattern (strip line))
  || is_some (re_match NOFLAGS general_header_pattern line).

Definition is_smart_quote (c : char) : bool :=
  ceqb c ldquo || ceqb c rdquo || ceqb c lsquo || ceqb c rsquo.

(** The text holds a pattern the transform looks for: a match of the
    pattern it substitutes, one of the four quotation marks, or a line
    for one of the header rules. *)
Definition recognized (folder : str) (tr : transform) (text : str) : bool :=
  match tr with
  | RemoveUnwantedSpans =>
      occurs IGNORECASE empty_span_pattern text
      || occurs IGNORECASE_DOTALL indexterm_span_pattern text
  | ConvertSmartQuotes => existsb is_smart_quote text
  | FixFootnoteDefinitions => occurs MULTILINE footnote_definition_pattern text
  | ConvertImageCaptionsToFigures =>
      occurs MULTILINE (figure_caption_pattern folder) text
  | ConvertH6ToBlockquote => occurs MULTILINE admonition_pattern text
  | AdjustHeaders => existsb line_recognized (splitlines text)
  | ConvertSuperscriptFootnotes =>
      occurs MULTILINE superscript_footnote_pattern text
  | ProcessHtmlFigures => occurs IGNORECASE_DOTALL figure_pattern text
  | ConvertInternalLinksToText => occurs IGNORECASE internal_link_pattern text
  | NormalizeBlockquotedHeaders =>
      occurs MULTILINE blockquoted_header_pattern text
  | ConvertSpecificImgTagsToNumberedText =>
      occurs IGNORECASE (numbered_img_pattern folder) text
  | ConvertTablesToMarkdown => occurs IGNORECASE_DOTALL table_pattern text
  | RemoveReferenceTags => occurs NOFLAGS reference_tag_pattern text
  end.

(** Every line boundary of the text is a single line feed, and the text
    does not end with one. *)
Fixpoint plain_lines (s : str) : bool :=
  match s with
  | [] => true
  | c :: t =>
      match t with
      | [] => negb (is_linebreak c)
      | _ :: _ => (negb (is_linebreak c) || ceqb c nl) && plain_lines t
      end
  end.

(** The passes of the pipeline, in order. *)
Definition pipeline_passes : list transform :=
  [ConvertSmartQuotes; FixFootnoteDefinitions; ConvertH6ToBlockquote;
   AdjustHeaders; RemoveUnwantedSpans; ConvertSuperscriptFootnotes;
   ProcessHtmlFigures; ConvertInternalLinksToText;
   NormalizeBlockquotedHeaders; ConvertSpecificImgTagsToNumberedText;
   ConvertTablesToMarkdown; RemoveReferenceTags].

(** None of the passes of the pipeline finds its pattern in the text. *)
Definition pattern_free (text : str) : bool :=
  forallb (fun tr => negb (recognized default_media_folder tr text))
    pipeline_passes.

(** ** The environment *)

(** The converter invocation did not succeed: it raised, or returned a
    non-zero exit code. *)
Definition failed (r : run_result) : bool :=
  match r with
  | Completed returncode _ _ => negb (returncode =? 0)%Z
  | FileNotFoundError => true
  | OtherException _ => true
  end.

(** A machine without pandoc and without the Lua filter, on which
    [markdown_file] holds [content]. *)
Definition env_without_pandoc (markdown_file content : str) : env :=
  Env (u "table_flattener.lua") (fun _ => false)
      (fun _ _ => FileNotFoundError)
      (fun path => if str_eqb path markdown_file then ReadOk content
                   else ReadNotFound)
      (fun _ _ => None).

(** ** The documents of the examples *)

Definition table_with_paragraph : str := u "<table><p>x</p></table>".

Definition captioned_image : str :=
  u "![a](./assets/x.png)" ++ [nl] ++ u "###### Cap".

Definition numbered_image_in_media : str :=
  q "<img src=`./media/4.png` alt=`4` /> " ++ [nl] ++ u "x".

Definition two_closing_tags : str := u "<figure>a</figure>b</figure>".

(** * Definitions for the further properties *)

(** ** Quotation marks and events *)

(** The straight counterpart of a quotation mark. *)
Definition straighten (c : char) : char :=
  if ceqb c ldquo || ceqb c rdquo then dq
  else if ceqb c lsquo || ceqb c rsquo then 39%N
  else c.

Definition is_stderr (ev : event) : bool :=
  match ev with Stderr _ => true | Stdout _ => false end.

(** ** The matches of a scan *)

(** Every match among the segments satisfies [P]. *)
Definition on_hits (P : str -> Prop) (sg : segment) : Prop :=
  match sg with
  | Found h => P (whole h)
  | Keep _ => True
  end.

(** ** Lines *)

(** A text without any line boundary. *)
Definition one_line (s : str) : bool :=
  forallb (fun c => negb (is_linebreak c)) s.

(** The text starts with the character [c]. *)
Definition first_is (c : char) (s : str) : bool :=
  match s with
  | x :: _ => ceqb x c
  | [] => false
  end.

(** ** Example and chapter headers *)

(** The optional second number of an example header: nothing, or a
    hyphen and digits. *)
Definition is_range (r : str) : bool :=
  match r with
  | [] => true
  | c :: d2 => ceqb c 45%N && negb (length d2 =? 0) && forallb is_digit d2
  end.

(** The example header with the white space [sp2], the number [d], the
    range [range] and the text [tl] after the full stop. *)
Definition example_title (sp2 d range tl : str) : str :=
  u "Example" ++ sp2 ++ d ++ range ++ u "." ++ tl.

(** A digit or a full stop. *)
Definition is_chapter_number (c : char) : bool := is_digit c || ceqb c 46%N.

(** ** Line starts and line ends *)

(** No line of the text starts with [l]; [p] is the character before the
    text. *)
Fixpoint no_line_starts (l : str) (p : option char) (s : str) : bool :=
  match s with
  | [] => true
  | c :: t =>
      negb (line_start p && lit_prefix NOFLAGS l s)
      && no_line_starts l (Some c) t
  end.

(** The text is at its end or at the end of a line. *)
Definition line_end (s : str) : bool :=
  match s with
  | [] => true
  | c :: _ => ceqb c nl
  end.

(** ** Footnotes *)

Definition not_rparen (c : char) : bool := negb (ceqb c 41%N).

(** The head of a footnote definition with the number [d] and the
    anchor [a], as pandoc writes it and as a superscript. *)
Definition footnote_head (d a : str) : str :=
  u "^([" ++ d ++ u "](#" ++ a ++ u "))".

Definition superscript_head (d a : str) : str :=
  u "<sup>[" ++ d ++ u "](#" ++ a ++ u ")</sup>".

(** ** Admonitions *)

(** The four admonition words. *)
Definition is_admonition (kind : str) : bool :=
  existsb (str_eqb kind) [u "Tip"; u "Note"; u "Caution"; u "Warning"].

(** ** Table blocks *)

(** A table block with the attributes [attrs] and the content [c]. *)
Definition table_block (attrs c : str) : str :=
  u "<table" ++ attrs ++ u ">" ++ c ++ u "</table>".

(** What the callback of the table converter returns for a table block,
    and what it writes. *)
Definition converted_table (e : env) (html_table : str) : str :=
  fst (convert_html_snippet_to_markdown e html_table (u "html") (u "gfm")).

Definition table_events (e : env) (html_table : str) : list event :=
  print3 (u "Original table:" ++ [nl]) html_table [nl; nl; nl]
  :: snd (convert_html_snippet_to_markdown e html_table (u "html") (u "gfm"))
  ++ [print3 (u "Markdown table:" ++ [nl]) (converted_table e html_table)
        [nl; nl; nl]].

(** ** Index-term spans *)

(** An index-term span: white space [sp], the attributes [battrs] before
    [data-type], the attributes [attrs] after it, and the content [c]. *)
Definition indexterm_span (sp battrs attrs c : str) : str :=
  u "<span" ++ sp ++ battrs ++ q "data-type=`indexterm`" ++ attrs ++ u ">"
  ++ c ++ u "</span>".

(** ** Chapter spans *)

(** An empty chapter span: white space [sp], the chapter number [d], the
    attributes [attrs] after the id and the white space [sp2] inside. *)
Definition chapter_span (sp d attrs sp2 : str) : str :=
  u "<span" ++ sp ++ q "id=`ch" ++ d ++ q ".html`" ++ attrs ++ u ">" ++ sp2
  ++ u "</span>".

Definition not_lt (c : char) : bool := negb (ceqb c 60%N).

(** ** Internal links *)

Definition not_dq (c : char) : bool := negb (ceqb c dq).

(** An internal link: white space [sp], the anchor [anchor], the
    attributes [attrs] after the href and the content [c]. *)
Definition internal_link (sp anchor attrs c : str) : str :=
  u "<a" ++ sp ++ q "href=`#" ++ anchor ++ [dq] ++ attrs ++ u ">" ++ c
  ++ u "</a>".

(** ** The output of pandoc *)

Definition not_lbrace (c : char) : bool := negb (ceqb c 123%N).

(** ** Figure captions *)

(** The text holds neither [<h6] nor [</h6>], in any case. *)
Definition no_h6 (s : str) : bool :=
  free_of IGNORECASE (u "<h6") s [] && free_of IGNORECASE (u "</h6>") s [].

(** A figure content with one caption: the text [c1] before it, the
    attributes [ha] of the [h6] tag, the caption [cap] and the text [c2]
    after it. *)
Definition captioned_content (c1 ha cap c2 : str) : str :=
  c1 ++ u "<h6" ++ ha ++ u ">" ++ cap ++ u "</h6>" ++ c2.

Definition figcaption_content (c1 ha cap c2 : str) : str :=
  c1 ++ u "<figcaption" ++ ha ++ u ">" ++ cap ++ u "</figcaption>" ++ c2.

(** ** Images with a caption line *)

Definition not_rbracket (c : char) : bool := negb (ceqb c 93%N).

(** The text does not end with white space. *)
Definition ends_without_space (s : str) : Prop :=
  starts_without_space (rev s).

(** The text is at its end, or a line ends and the next one starts with a
    character other than white space. *)
Definition next_line_text (s : str) : bool :=
  match s with
  | [] => true
  | c :: t =>
      ceqb c nl && match t with [] => false | y :: _ => negb (is_space y) end
  end.

(** A Markdown image and its caption line: the alt text [alt], the
    character [x] before the folder, the file name [file], the white space
    [sp] after the hashes and the caption [cap]. *)
Definition image_with_caption (alt : str) (x : char) (folder file sp cap : str)
  : str :=
  u "![" ++ alt ++ u "](" ++ [x] ++ u "/" ++ folder ++ u "/" ++ file ++ u ")"
  ++ [nl] ++ u "######" ++ sp ++ cap.

(** ** An environment where pandoc succeeds *)

(** pandoc ends with exit code 0 and the output [out]; the Lua filter
    exists; no file can be read. *)
Definition env_with_pandoc (out : str) : env :=
  Env (u "table_flattener.lua") (fun _ => true)
      (fun _ _ => Completed 0 out [])
      (fun _ => ReadNotFound)
      (fun _ _ => None).

(** * Lemmas *)

(** Concatenations, associated to the right. *)
Ltac list_norm := cbn [app]; repeat (rewrite <- app_assoc; cbn [app]).

(** ** The matcher *)

Section Matcher.
Variable fl : flags.

Lemma m_eps k st : m fl Eps k st = k st.
Proof. reflexivity. Qed.

Lemma m_seq a b k st : m fl (Seq a b) k st = m fl a (m fl b k) st.
Proof. reflexivity. Qed.

Lemma m_cat_cons a rs k st :
  m fl (cat (a :: rs)) k st = m fl a (m fl (cat rs) k) st.
Proof. reflexivity. Qed.

Lemma m_cat_nil k st : m fl (cat []) k st = k st.
Proof. reflexivity. Qed.

Lemma m_chr cc k p c t cs :
  m fl (Chr cc) k (MState p (c :: t) cs) =
  if cc_match fl cc c then k (MState (Some c) t cs) else None.
Proof. reflexivity. Qed.

Lemma m_chr_nil cc k p cs : m fl (Chr cc) k (MState p [] cs) = None.
Proof. reflexivity. Qed.

Lemma m_grp n a k st :
  m fl (Grp n a) k st = m fl a (fun st' => k (set_cap n st st')) st.
Proof. reflexivity. Qed.

(** Reading a literal that is there. *)
Lemma m_lit l : forall l' k p s cs,
  Forall2 (fun pc c => lit_match fl pc c = true) l l' ->
  m fl (lit l) k (MState p (l' ++ s) cs) = k (MState (prev_after p l') s cs).
Proof.
  induction l as [|x l IH]; intros l' k p s cs H; inversion H; subst.
  - reflexivity.
  - unfold lit. cbn [map]. rewrite m_cat_cons. cbn [app]. rewrite m_chr.
    match goal with Hx : lit_match _ _ _ = true |- _ => cbn [cc_match]; rewrite Hx end.
    match goal with Hl : Forall2 _ l ?l2 |- _ => exact (IH l2 k (Some y) s cs Hl) end.
Qed.

Lemma lit_match_refl c : lit_match fl c c = true.
Proof.
  unfold lit_match. destruct (ignorecase fl).
  - unfold ceqb. rewrite N.eqb_refl. reflexivity.
  - apply N.eqb_refl.
Qed.

Lemma m_lit_self l k p s cs :
  m fl (lit l) k (MState p (l ++ s) cs) = k (MState (prev_after p l) s cs).
Proof.
  apply m_lit. induction l; constructor; auto using lit_match_refl.
Qed.

(** A repetition of a one-character pattern runs as its fuel-free form. *)
Lemma rep_loop_greedy cc lo hi k : forall fuel cnt p s cs,
  length s < fuel ->
  rep_loop (m fl (Chr cc)) true lo hi k fuel cnt (MState p s cs) =
  greedy_spec (cc_match fl cc) lo hi k cnt p s cs.
Proof.
  induction fuel as [|fuel IH]; intros cnt p s cs Hlen; [lia|].
  destruct s as [|c t].
  - cbn. destruct (below hi cnt); reflexivity.
  - cbn [rep_loop greedy_spec]. rewrite m_chr. cbn [rest length].
    destruct (below hi cnt); cbn [andb]; [|reflexivity].
    destruct (cc_match fl cc c); [|reflexivity].
    replace (length t <? S (length t)) with true
      by (symmetry; apply Nat.ltb_lt; lia).
    rewrite IH by (cbn in Hlen; lia). reflexivity.
Qed.

Lemma rep_loop_lazy cc lo hi k : forall fuel cnt p s cs,
  length s < fuel ->
  rep_loop (m fl (Chr cc)) false lo hi k fuel cnt (MState p s cs) =
  lazy_spec (cc_match fl cc) lo hi k cnt p s cs.
Proof.
  induction fuel as [|fuel IH]; intros cnt p s cs Hlen; [lia|].
  destruct s as [|c t].
  - cbn. destruct (below hi cnt); destruct (lo <=? cnt); try reflexivity.
    destruct (k _); reflexivity.
  - cbn [rep_loop lazy_spec]. rewrite m_chr. cbn [rest length].
    destruct (below hi cnt); cbn [andb].
    + destruct (cc_match fl cc c).
      * replace (length t <? S (length t)) with true
          by (symmetry; apply Nat.ltb_lt; lia).
        rewrite IH by (cbn in Hlen; lia). reflexivity.
      * reflexivity.
    + destruct (lo <=? cnt); [destruct (k _)|]; reflexivity.
Qed.

Lemma m_rep_greedy cc lo hi k p s cs :
  m fl (Rep true lo hi (Chr cc)) k (MState p s cs) =
  greedy_spec (cc_match fl cc) lo hi k 0 p s cs.
Proof. cbn [m rest]. apply rep_loop_greedy. lia. Qed.

Lemma m_rep_lazy cc lo hi k p s cs :
  m fl (Rep false lo hi (Chr cc)) k (MState p s cs) =
  lazy_spec (cc_match fl cc) lo hi k 0 p s cs.
Proof. cbn [m rest]. apply rep_loop_lazy. lia. Qed.

End Matcher.

(** ** Repetition of a one-character pattern *)

Section Repetition.
Variable pc : char -> bool.

Lemma below_within hi cnt : below hi cnt = true -> within hi (S cnt) = true.
Proof.
  destruct hi as [h|]; [|reflexivity]. unfold below, within.
  intros H. apply Nat.ltb_lt in H. apply Nat.leb_le. lia.
Qed.

Lemma not_below_within hi cnt n :
  below hi cnt = false -> within hi (S cnt + n) = false.
Proof.
  destruct hi as [h|]; [|discriminate]. unfold below, within.
  intros H. apply Nat.ltb_ge in H. apply Nat.leb_gt. lia.
Qed.

Lemma span_app s : forall a b, span pc s = (a, b) -> s = a ++ b.
Proof.
  induction s as [|c t IH]; intros a b H; cbn in H.
  - inversion H. reflexivity.
  - destruct (pc c).
    + destruct (span pc t) as [a' b']. inversion H; subst.
      cbn. f_equal. apply IH. reflexivity.
    + inversion H. reflexivity.
Qed.

Lemma span_all s : forall a b, span pc s = (a, b) -> forallb pc a = true.
Proof.
  induction s as [|c t IH]; intros a b H; cbn in H.
  - inversion H. reflexivity.
  - destruct (pc c) eqn:E.
    + destruct (span pc t) as [a' b']. inversion H; subst.
      cbn. rewrite E. eapply IH. reflexivity.
    + inversion H. reflexivity.
Qed.

Lemma span_stop s : forall a b c b',
  span pc s = (a, b) -> b = c :: b' -> pc c = false.
Proof.
  induction s as [|c t IH]; intros a b x b' H Hb; cbn in H.
  - inversion H; subst. discriminate.
  - destruct (pc c) eqn:E.
    + destruct (span pc t) as [a' b0]. inversion H; subst.
      eapply IH; reflexivity.
    + inversion H; subst. inversion H2; subst. assumption.
Qed.

(** The span of [a ++ b] when [a] is accepted and [b] starts with a
    character that is not. *)
Lemma span_exact a : forall b,
  forallb pc a = true ->
  match b with [] => True | c :: _ => pc c = false end ->
  span pc (a ++ b) = (a, b).
Proof.
  induction a as [|x a IH]; intros b Ha Hb; cbn in *.
  - destruct b as [|c b']; [reflexivity|]. cbn. rewrite Hb. reflexivity.
  - apply andb_prop in Ha as [Hx Ha]. rewrite Hx, IH; auto.
Qed.

(** When the continuation refuses every state that starts with an accepted
    character, a greedy repetition is the continuation after the whole
    run, if the run has an allowed length. *)
Lemma greedy_commit lo hi k :
  (forall c t p cs, pc c = true -> k (MState p (c :: t) cs) = None) ->
  forall s cnt p cs a b,
  span pc s = (a, b) ->
  within hi cnt = true ->
  greedy_spec pc lo hi k cnt p s cs =
  if (lo <=? cnt + length a) && within hi (cnt + length a)
  then k (MState (prev_after p a) b cs) else None.
Proof.
  intros Hk. induction s as [|c t IH]; intros cnt p cs a b Hs Hw; cbn in Hs.
  - inversion Hs; subst. cbn. rewrite Nat.add_0_r, Hw, andb_true_r. reflexivity.
  - cbn [greedy_spec]. destruct (pc c) eqn:E.
    + destruct (span pc t) as [a' b'] eqn:Et. inversion Hs; subst.
      cbn [length]. change (prev_after p (c :: a')) with (prev_after (Some c) a').
      replace (cnt + S (length a')) with (S cnt + length a') by lia.
      destruct (below hi cnt) eqn:Eb; cbn [andb].
      * rewrite (IH (S cnt) (Some c) cs a' b eq_refl)
          by (apply below_within; exact Eb).
        destruct ((lo <=? S cnt + length a') && within hi (S cnt + length a')).
        -- destruct (k (MState (prev_after (Some c) a') b cs)) eqn:Ek; [reflexivity|].
           destruct (lo <=? cnt); [apply Hk; assumption | reflexivity].
        -- destruct (lo <=? cnt); [apply Hk; assumption | reflexivity].
      * rewrite (not_below_within _ _ _ Eb), andb_false_r.
        destruct (lo <=? cnt); [apply Hk; assumption | reflexivity].
    + inversion Hs; subst. rewrite andb_false_r. cbn [length].
      change (prev_after p []) with p.
      rewrite Nat.add_0_r, Hw, andb_true_r. reflexivity.
Qed.

(** When the continuation succeeds after the whole run, that is the
    result of a greedy repetition. *)
Lemma greedy_first lo k r : forall s cnt p cs a b,
  span pc s = (a, b) ->
  lo <= cnt + length a ->
  k (MState (prev_after p a) b cs) = Some r ->
  greedy_spec pc lo None k cnt p s cs = Some r.
Proof.
  induction s as [|c t IH]; intros cnt p cs a b Hs Hlo Hk; cbn in Hs.
  - inversion Hs; subst. cbn in *.
    replace (lo <=? cnt) with true by (symmetry; apply Nat.leb_le; lia).
    assumption.
  - cbn [greedy_spec below andb]. destruct (pc c) eqn:E.
    + destruct (span pc t) as [a' b'] eqn:Et. inversion Hs; subst.
      rewrite (IH (S cnt) (Some c) cs a' b eq_refl); [reflexivity| cbn in Hlo; lia | exact Hk].
    + inversion Hs; subst. cbn in *.
      replace (lo <=? cnt) with true by (symmetry; apply Nat.leb_le; lia).
      assumption.
Qed.

(** A greedy repetition that gives back one character: the continuation
    fails after the whole run and succeeds one character before. *)
Lemma greedy_back_one lo k r c b : forall a cnt p cs,
  forallb pc a = true -> pc c = true ->
  match b with [] => True | x :: _ => pc x = false end ->
  lo <= cnt + length a ->
  k (MState (prev_after p (a ++ [c])) b cs) = None ->
  k (MState (prev_after p a) (c :: b) cs) = Some r ->
  greedy_spec pc lo None k cnt p (a ++ c :: b) cs = Some r.
Proof.
  induction a as [|x a IH]; intros cnt p cs Ha Hc Hb Hlo Hend Hk.
  - cbn [app greedy_spec below andb]. rewrite Hc.
    assert (E : greedy_spec pc lo None k (S cnt) (Some c) b cs = None).
    { destruct b as [|y b']; cbn [greedy_spec below andb].
      - change (prev_after p ([] ++ [c])) with (Some c) in Hend. rewrite Hend.
        destruct (lo <=? S cnt); reflexivity.
      - rewrite Hb. change (prev_after p ([] ++ [c])) with (Some c) in Hend.
        rewrite Hend. destruct (lo <=? S cnt); reflexivity. }
    rewrite E.
    replace (lo <=? cnt) with true by (symmetry; apply Nat.leb_le; cbn in Hlo; lia).
    exact Hk.
  - cbn in Ha. apply andb_prop in Ha as [Hx Ha].
    cbn [app greedy_spec below andb]. rewrite Hx.
    rewrite (IH (S cnt) (Some x) cs); auto. cbn in Hlo; lia.
Qed.

(** A lazy repetition stops at the first place where the continuation
    succeeds. *)
Lemma lazy_first lo hi k r cnt p s cs :
  lo <= cnt ->
  k (MState p s cs) = Some r ->
  lazy_spec pc lo hi k cnt p s cs = Some r.
Proof.
  intros Hlo Hk. destruct s; cbn;
  replace (lo <=? cnt) with true by (symmetry; apply Nat.leb_le; lia);
  rewrite Hk; reflexivity.
Qed.

Lemma lazy_skip k r : forall a cnt p s cs,
  forallb pc a = true ->
  (forall a1 a2, a = a1 ++ a2 -> a2 <> [] ->
     k (MState (prev_after p a1) (a2 ++ s) cs) = None) ->
  k (MState (prev_after p a) s cs) = Some r ->
  lazy_spec pc 0 None k cnt p (a ++ s) cs = Some r.
Proof.
  induction a as [|x a IH]; intros cnt p s cs Ha Hfail Hk.
  - apply lazy_first; [lia | exact Hk].
  - cbn in Ha. apply andb_prop in Ha as [Hx Ha].
    assert (H0 : k (MState p (x :: a ++ s) cs) = None)
      by (apply (Hfail [] (x :: a)); [reflexivity | discriminate]).
    cbn [app lazy_spec below andb Nat.leb]. rewrite Hx, H0.
    apply IH; auto.
    intros a1 a2 E Hne. apply (Hfail (x :: a1) a2); [subst; reflexivity | assumption].
Qed.

(** A lazy repetition fails when the continuation fails wherever the
    repetition can stop. *)
Lemma lazy_none hi k : forall s cnt p cs,
  (forall a b, s = a ++ b -> forallb pc a = true ->
     k (MState (prev_after p a) b cs) = None) ->
  lazy_spec pc 0 hi k cnt p s cs = None.
Proof.
  induction s as [|c t IH]; intros cnt p cs H.
  - pose proof (H [] [] eq_refl eq_refl) as H0.
    cbn. change (prev_after p []) with p in H0. rewrite H0. reflexivity.
  - pose proof (H [] (c :: t) eq_refl eq_refl) as H0.
    change (prev_after p []) with p in H0.
    cbn [lazy_spec Nat.leb]. rewrite H0.
    destruct (below hi cnt && pc c) eqn:E; [|reflexivity].
    apply andb_prop in E as [_ E].
    apply IH. intros a b Hab Ha.
    apply (H (c :: a) b); [subst; reflexivity | cbn; rewrite E; exact Ha].
Qed.

End Repetition.

(** ** Continuations, optional groups and the character before a match *)

Section MatcherExt.
Variable fl : flags.

Lemma rep_loop_ext (body body' : cont -> mstate -> option mstate) g lo hi :
  (forall k k' st, (forall s, k s = k' s) -> body k st = body' k' st) ->
  forall fuel k k' cnt st, (forall s, k s = k' s) ->
  rep_loop body g lo hi k fuel cnt st = rep_loop body' g lo hi k' fuel cnt st.
Proof.
  intros Hb. induction fuel as [|fuel IH]; intros k k' cnt st Hk.
  - cbn. rewrite Hk. reflexivity.
  - cbn [rep_loop]. rewrite (Hk st).
    rewrite (Hb _ (fun st' =>
                if length (rest st') <? length (rest st)
                then rep_loop body' g lo hi k' fuel (S cnt) st' else None) st).
    + reflexivity.
    + intros s. destruct (_ <? _); [apply IH; exact Hk | reflexivity].
Qed.

Lemma m_ext r : forall k k' st,
  (forall s, k s = k' s) -> m fl r k st = m fl r k' st.
Proof.
  induction r; intros k k' st Hk; cbn [m].
  - apply Hk.
  - destruct (rest st); [reflexivity|]. rewrite Hk. reflexivity.
  - apply IHr1. intros s. apply IHr2. exact Hk.
  - rewrite (IHr1 k k' st Hk), (IHr2 k k' st Hk). reflexivity.
  - apply rep_loop_ext; assumption.
  - apply IHr. intros s. apply Hk.
  - rewrite Hk. reflexivity.
  - rewrite Hk. reflexivity.
Qed.

(** An optional part is tried first, and skipped if that fails. *)
Lemma m_opt a k st :
  m fl (opt a) k st =
  match m fl a (fun st' => if length (rest st') <? length (rest st)
                           then k st' else None) st with
  | Some r => Some r
  | None => k st
  end.
Proof.
  unfold opt. cbn [m rep_loop].
  change (below (Some 1) 0) with true. change (0 <=? 0) with true. cbv iota.
  rewrite (m_ext a _ (fun st' => if length (rest st') <? length (rest st)
                                 then k st' else None)); [reflexivity|].
  intros s. cbv beta. destruct (length (rest s) <? length (rest st)); [|reflexivity].
  destruct (length (rest st)); reflexivity.
Qed.

Lemma same_text_refl st : same_text st st.
Proof. split; reflexivity. Qed.

Lemma rep_loop_bol_free (body : cont -> mstate -> option mstate) g lo hi :
  (forall k k' st st', same_text st st' ->
     (forall a b, same_text a b -> same_result (k a) (k' b)) ->
     same_result (body k st) (body k' st')) ->
  forall fuel k k' cnt st st', same_text st st' ->
  (forall a b, same_text a b -> same_result (k a) (k' b)) ->
  same_result (rep_loop body g lo hi k fuel cnt st)
              (rep_loop body g lo hi k' fuel cnt st').
Proof.
  intros Hb. induction fuel as [|fuel IH]; intros k k' cnt st st' Hst Hk.
  - cbn. destruct (lo <=? cnt); [apply Hk; exact Hst | exact I].
  - cbn [rep_loop].
    assert (Hstop : same_result (if lo <=? cnt then k st else None)
                                (if lo <=? cnt then k' st' else None))
      by (destruct (lo <=? cnt); [apply Hk; exact Hst | exact I]).
    assert (Hmore : same_result
      (body (fun s => if length (rest s) <? length (rest st)
                      then rep_loop body g lo hi k fuel (S cnt) s else None) st)
      (body (fun s => if length (rest s) <? length (rest st')
                      then rep_loop body g lo hi k' fuel (S cnt) s else None) st')).
    { apply Hb; [exact Hst|]. intros a b Hab.
      destruct Hst as [Hr _]. destruct Hab as [Hab1 Hab2].
      rewrite Hab1, Hr. destruct (_ <? _); [|exact I].
      apply IH; [split; assumption | exact Hk]. }
    destruct (below hi cnt); [|exact Hstop].
    destruct g.
    + destruct (body _ st), (body _ st'); cbn in Hmore; try contradiction;
        [exact Hmore | exact Hstop].
    + destruct (lo <=? cnt); [|exact Hmore].
      pose proof (Hk st st' Hst) as H0.
      destruct (k st), (k' st'); cbn in H0; try contradiction;
        [exact H0 | exact Hmore].
Qed.

(** A pattern without [^] does not look at the character before the
    position it is tried at. *)
Lemma m_bol_free r : bol_free r = true ->
  forall k k' st st', same_text st st' ->
  (forall a b, same_text a b -> same_result (k a) (k' b)) ->
  same_result (m fl r k st) (m fl r k' st').
Proof.
  induction r; intros Hr k k' st st' Hst Hk; cbn [m]; cbn in Hr.
  - apply Hk; exact Hst.
  - destruct Hst as [H1 H2]. rewrite H1, H2. destruct (rest st') as [|c t]; [exact I|].
    destruct (cc_match fl cc c); [|exact I]. apply Hk. split; reflexivity.
  - apply andb_prop in Hr as [Ha Hb]. apply IHr1; auto.
  - apply andb_prop in Hr as [Ha Hb].
    pose proof (IHr1 Ha k k' st st' Hst Hk) as H1.
    destruct (m fl r1 k st), (m fl r1 k' st'); cbn in H1; try contradiction;
      [exact H1 | apply IHr2; auto].
  - pose proof Hst as [H1 _]. rewrite H1.
    apply rep_loop_bol_free; auto.
  - apply IHr; auto. intros a b [Hab1 Hab2]. apply Hk.
    destruct Hst as [H1 H2]. unfold set_cap; split; cbn; congruence.
  - discriminate.
  - unfold at_eol. destruct Hst as [H1 H2]. rewrite H1.
    destruct (match rest st' with [] => true | _ => _ end);
      [apply Hk; split; assumption | exact I].
Qed.

Lemma match_at_bol_free r adv p p' s :
  bol_free r = true -> match_at fl r adv p s = match_at fl r adv p' s.
Proof.
  intros Hr. unfold match_at.
  match goal with |- match m fl r ?k ?st with _ => _ end
                     = match m fl r _ ?st' with _ => _ end =>
    pose proof (m_bol_free r Hr k k st st') as H end.
  cbv beta in H.
  match type of H with ?A -> ?B -> _ =>
    assert (HA : A) by (split; reflexivity);
    assert (HB : B) end.
  { intros a b [Hab1 Hab2]. rewrite Hab1.
    destruct (adv && _); [exact I | split; assumption]. }
  specialize (H HA HB).
  destruct (m fl r _ (MState p s [])), (m fl r _ (MState p' s []));
    cbn in H; try contradiction; [|reflexivity].
  destruct H as [H1 H2]. rewrite H1, H2. reflexivity.
Qed.

End MatcherExt.

(** ** The fuel of a repetition *)

Section Fuel.
Variable fl : flags.

(** A continuation is only called on what is left of the text. *)
Lemma rep_loop_local (body : cont -> mstate -> option mstate) g lo hi :
  (forall k k' st,
     (forall s, length (rest s) <= length (rest st) -> k s = k' s) ->
     body k st = body k' st) ->
  forall fuel k k' cnt st,
  (forall s, length (rest s) <= length (rest st) -> k s = k' s) ->
  rep_loop body g lo hi k fuel cnt st = rep_loop body g lo hi k' fuel cnt st.
Proof.
  intros Hb. induction fuel as [|fuel IH]; intros k k' cnt st Hk.
  - cbn. rewrite (Hk st) by lia. reflexivity.
  - cbn [rep_loop]. rewrite (Hk st) by lia.
    rewrite (Hb _ (fun st' =>
                if length (rest st') <? length (rest st)
                then rep_loop body g lo hi k' fuel (S cnt) st' else None) st).
    + reflexivity.
    + intros s Hs. destruct (Nat.ltb_spec (length (rest s)) (length (rest st)));
        [|reflexivity].
      apply IH. intros s' Hs'. apply Hk. lia.
Qed.

Lemma m_local r : forall k k' st,
  (forall s, length (rest s) <= length (rest st) -> k s = k' s) ->
  m fl r k st = m fl r k' st.
Proof.
  induction r; intros k k' st Hk; cbn [m].
  - apply Hk. lia.
  - destruct (rest st) as [|c t] eqn:E; [reflexivity|].
    rewrite Hk by (cbn; lia). reflexivity.
  - apply IHr1. intros s Hs. apply IHr2. intros s' Hs'. apply Hk. lia.
  - rewrite (IHr1 k k' st Hk), (IHr2 k k' st Hk). reflexivity.
  - apply rep_loop_local; assumption.
  - apply IHr. intros s Hs. apply Hk. cbn. exact Hs.
  - rewrite Hk by lia. reflexivity.
  - rewrite Hk by lia. reflexivity.
Qed.

(** The fuel of a repetition is never used up: more of it changes
    nothing. *)
Lemma rep_loop_fuel a g lo hi k : forall fuel fuel' cnt st,
  length (rest st) < fuel -> length (rest st) < fuel' ->
  rep_loop (m fl a) g lo hi k fuel cnt st =
  rep_loop (m fl a) g lo hi k fuel' cnt st.
Proof.
  induction fuel as [|fuel IH]; intros fuel' cnt st H H'; [lia|].
  destruct fuel' as [|fuel']; [lia|].
  cbn [rep_loop].
  rewrite (m_local a _ (fun st' =>
              if length (rest st') <? length (rest st)
              then rep_loop (m fl a) g lo hi k fuel' (S cnt) st' else None) st).
  - reflexivity.
  - intros s Hs. destruct (Nat.ltb_spec (length (rest s)) (length (rest st)));
      [|reflexivity].
    apply IH; lia.
Qed.

End Fuel.

(** ** [re.sub] *)

Section Scan.
Variable fl : flags.
Variable r : regex.

Lemma scan_skip : forall w p s',
  scan fl r p (length w) (w ++ s') = scan fl r (prev_after p w) 0 s'.
Proof.
  induction w as [|c w IH]; intros p s'.
  - reflexivity.
  - cbn [length app scan]. apply IH.
Qed.

Lemma scan_keep p c t :
  match_at fl r false p (c :: t) = None ->
  scan fl r p 0 (c :: t) = Keep c :: scan fl r (Some c) 0 t.
Proof.
  intros H. cbn [scan]. unfold search_here. rewrite H. reflexivity.
Qed.

Lemma scan_nil p :
  match_at fl r false p [] = None -> scan fl r p 0 [] = [].
Proof.
  intros H. cbn [scan]. unfold search_here. rewrite H. reflexivity.
Qed.

Lemma scan_found p w s' h :
  match_at fl r false p (w ++ s') = Some h ->
  whole h = w -> w <> [] ->
  scan fl r p 0 (w ++ s') = Found h :: scan fl r (prev_after p w) 0 s'.
Proof.
  intros H Hw Hne. destruct w as [|c w]; [congruence|].
  cbn [app scan]. unfold search_here.
  change (c :: w ++ s') with ((c :: w) ++ s'). rewrite H, Hw.
  cbn [length map app]. f_equal. exact (scan_skip w (Some c) s').
Qed.

Lemma scan_bol_free : bol_free r = true ->
  forall s p p' n, scan fl r p n s = scan fl r p' n s.
Proof.
  intros Hr. induction s as [|c t IH]; intros p p' n.
  - cbn. destruct n; [|reflexivity]. unfold search_here.
    rewrite (match_at_bol_free fl r false p p' [] Hr),
            (match_at_bol_free fl r true p p' [] Hr). reflexivity.
  - cbn [scan]. destruct n; [|reflexivity]. unfold search_here.
    rewrite (match_at_bol_free fl r false p p' (c :: t) Hr),
            (match_at_bol_free fl r true p p' (c :: t) Hr). reflexivity.
Qed.

(** Where the pattern occurs nowhere, every character is kept. *)
Lemma scan_no_occurrence : forall s p,
  occurs_from fl r p s = false -> scan fl r p 0 s = map Keep s.
Proof.
  induction s as [|c t IH]; intros p H; cbn [occurs_from] in H.
  - destruct (match_at fl r false p []) eqn:E; [discriminate|].
    apply scan_nil; exact E.
  - destruct (match_at fl r false p (c :: t)) eqn:E; [discriminate|].
    rewrite scan_keep by exact E. cbn [map]. f_equal. apply IH; exact H.
Qed.

Lemma render_keep repl s : render repl (map Keep s) = s.
Proof.
  induction s as [|c t IH]; [reflexivity|].
  unfold render in *. cbn [map flat_map app]. rewrite IH. reflexivity.
Qed.

Lemma sub_fold_keep {W} (repl : hit -> W -> str * W) s w :
  sub_fold repl (map Keep s) w = (s, w).
Proof.
  induction s as [|c t IH]; [reflexivity|].
  cbn [map sub_fold]. rewrite IH. reflexivity.
Qed.

Lemma sub_with_no_occurrence repl s :
  occurs fl r s = false -> sub_with fl r repl s = s.
Proof.
  intros H. unfold sub_with. rewrite scan_no_occurrence by exact H.
  apply render_keep.
Qed.

Lemma sub_no_occurrence tpl s :
  occurs fl r s = false -> sub fl r tpl s = s.
Proof. apply sub_with_no_occurrence. Qed.

End Scan.

(** ** Literals *)

Section Literal.
Variable fl : flags.

Lemma m_lit_prefix l : forall k p s cs,
  m fl (lit l) k (MState p s cs) =
  if lit_prefix fl l s
  then k (MState (prev_after p (firstn (length l) s)) (skipn (length l) s) cs)
  else None.
Proof.
  induction l as [|x l IH]; intros k p s cs.
  - reflexivity.
  - unfold lit. cbn [map]. rewrite m_cat_cons.
    destruct s as [|c t]; [reflexivity|].
    rewrite m_chr. cbn [cc_match lit_prefix].
    destruct (lit_match fl x c); [|reflexivity].
    cbn [andb length firstn skipn].
    exact (IH k (Some c) t cs).
Qed.

Lemma lit_prefix_self l s : lit_prefix fl l (l ++ s) = true.
Proof.
  induction l as [|x l IH]; [reflexivity|].
  cbn. rewrite lit_match_refl, IH. reflexivity.
Qed.

End Literal.

Lemma firstn_length_app {A} (a b : list A) : firstn (length a) (a ++ b) = a.
Proof.
  induction a; cbn; [|f_equal]; auto.
Qed.

Lemma skipn_length_app {A} (a b : list A) : skipn (length a) (a ++ b) = b.
Proof.
  induction a; cbn; auto.
Qed.

(** The text of a match, from the text read and what is left of it. *)
Lemma firstn_consumed {A} (a b : list A) :
  firstn (length (a ++ b) - length b) (a ++ b) = a.
Proof.
  rewrite length_app. replace (length a + length b - length b) with (length a) by lia.
  apply firstn_length_app.
Qed.

Lemma prev_after_app p a b :
  prev_after p (a ++ b) = prev_after (prev_after p a) b.
Proof. apply fold_left_app. Qed.

Lemma span_app_stop pc : forall t y x a b,
  pc y = false -> span pc t = (a, b) ->
  span pc (t ++ y :: x) = (a, b ++ y :: x).
Proof.
  induction t as [|c t IH]; intros y x a b Hy H; cbn in H.
  - inversion H; subst. cbn. rewrite Hy. reflexivity.
  - cbn [app span]. destruct (pc c).
    + destruct (span pc t) as [a' b'] eqn:E. inversion H; subst.
      rewrite (IH y x a' b Hy eq_refl). reflexivity.
    + inversion H; subst. reflexivity.
Qed.

Lemma forallb_pointwise {A} (f g : A -> bool) l :
  (forall x, f x = g x) -> forallb f l = forallb g l.
Proof.
  intros H. induction l as [|x l IH]; cbn; [|rewrite H, IH]; reflexivity.
Qed.

Lemma firstn_consumed_eq {A} (a b s : list A) :
  s = a ++ b -> firstn (length s - length b) s = a.
Proof. intros ->. apply firstn_consumed. Qed.


(** ** Character classes *)

Section Classes.

Lemma is_space_spec c :
  is_space c = true ->
  ((9 <= c <= 13) \/ (28 <= c <= 32) \/ c = 133 \/ c = 160 \/ c = 5760
   \/ (8192 <= c <= 8202) \/ c = 8232 \/ c = 8233 \/ c = 8239 \/ c = 8287
   \/ c = 12288)%N.
Proof.
  unfold is_space. intros H.
  repeat match type of H with
  | (_ || _) = true => apply orb_prop in H; destruct H as [H|H]
  end;
  repeat match type of H with
  | (_ && _) = true => let H1 := fresh in apply andb_prop in H as [H H1];
                       apply N.leb_le in H1
  end;
  try apply N.leb_le in H; try apply N.eqb_eq in H; lia.
Qed.

Lemma is_digit_spec c : is_digit c = true -> (48 <= c <= 57)%N.
Proof.
  unfold is_digit. intros H. apply andb_prop in H as [H1 H2].
  apply N.leb_le in H1. apply N.leb_le in H2. lia.
Qed.

Lemma lower_same c :
  ((c < 65) \/ (90 < c < 304) \/ (304 < c < 8490) \/ (8490 < c))%N ->
  lower c = c.
Proof.
  intros H. unfold lower, is_upper.
  destruct (N.leb_spec 65 c), (N.leb_spec c 90); cbn [andb]; try lia;
  destruct (N.eqb_spec c 304); try lia;
  destruct (N.eqb_spec c 8490); try lia; reflexivity.
Qed.

Lemma lower_space c : is_space c = true -> lower c = c.
Proof. intros H. apply is_space_spec in H. apply lower_same. lia. Qed.

Lemma lower_digit c : is_digit c = true -> lower c = c.
Proof. intros H. apply is_digit_spec in H. apply lower_same. lia. Qed.

Lemma class_neq (P : char -> bool) c x :
  P c = true -> P x = false -> ceqb c x = false.
Proof.
  intros Hc Hx. unfold ceqb. destruct (N.eqb_spec c x); [|reflexivity].
  subst. congruence.
Qed.

(** A pattern character outside a class of caseless characters matches
    none of them. *)
Lemma lit_match_class (P : char -> bool) fl x c :
  (forall y, P y = true -> lower y = y) ->
  P c = true -> P x = false -> P (lower x) = false ->
  forallb (fun y => negb (P y)) (case_fixes (lower x)) = true ->
  lit_match fl x c = false.
Proof.
  intros Hlow Hc Hx Hlx Hfix. unfold lit_match.
  destruct (ignorecase fl); [|apply (class_neq P); assumption].
  rewrite (Hlow c Hc), (class_neq P c (lower x) Hc Hlx). cbn [orb].
  induction (case_fixes (lower x)) as [|y l IH]; [reflexivity|].
  cbn in Hfix |- *. apply andb_prop in Hfix as [Hy Hl].
  apply negb_true_iff in Hy. rewrite (class_neq P c y Hc Hy). auto.
Qed.

Lemma lit_match_space fl x c :
  is_space c = true -> is_space x = false -> is_space (lower x) = false ->
  forallb (fun y => negb (is_space y)) (case_fixes (lower x)) = true ->
  lit_match fl x c = false.
Proof. intros. apply (lit_match_class is_space); auto using lower_space. Qed.

Lemma lit_match_digit fl x c :
  is_digit c = true -> is_digit x = false -> is_digit (lower x) = false ->
  forallb (fun y => negb (is_digit y)) (case_fixes (lower x)) = true ->
  lit_match fl x c = false.
Proof. intros. apply (lit_match_class is_digit); auto using lower_digit. Qed.

Lemma digit_class fl c : cc_match fl (CSet false [Range 48%N 57%N]) c = is_digit c.
Proof. cbn. rewrite orb_false_r. reflexivity. Qed.

Lemma digit_not_space c : is_digit c = true -> is_space c = false.
Proof.
  intros H. apply is_digit_spec in H.
  destruct (is_space c) eqn:E; [|reflexivity].
  apply is_space_spec in E. lia.
Qed.

Lemma length_ltb_app {A} (a s : list A) :
  a <> [] -> (length s <? length (a ++ s)) = true.
Proof.
  intros H. apply Nat.ltb_lt. rewrite length_app.
  destruct a; [congruence | cbn; lia].
Qed.

End Classes.

(** ** remove_reference_tags *)

Section ReferenceTags.

Lemma ceqb_eq a b : ceqb a b = true -> a = b.
Proof. apply N.eqb_eq. Qed.

Lemma tag_at_shape s {a b} : tag_at s = Some (a, b) -> s = tag_text a ++ b.
Proof.
  unfold tag_at. destruct s as [|c1 [|c2 s1]]; try discriminate.
  destruct (ceqb c1 123%N) eqn:E1; [|discriminate].
  destruct (ceqb c2 35%N) eqn:E2; [|discriminate]. cbn [andb].
  destruct (span is_word s1) as [[|x a'] [|c3 b']] eqn:Es; try discriminate.
  destruct (ceqb c3 125%N) eqn:E3; [|discriminate].
  intros H; inversion H; subst.
  apply ceqb_eq in E1, E2, E3. subst.
  apply span_app in Es. subst s1. unfold tag_text.
  change (u "{#") with [123%N; 35%N]. change (u "}") with [125%N].
  cbn [app]. rewrite <- app_assoc. reflexivity.
Qed.

Lemma tag_match p s :
  match_at NOFLAGS reference_tag_pattern false p s =
  match tag_at s with
  | Some (a, b) => Some (Hit (tag_text a) [])
  | None => None
  end.
Proof.
  destruct (tag_at s) as [[a b]|] eqn:Et.
  - pose proof (tag_at_shape _ Et) as Hs.
    unfold tag_at in Et. destruct s as [|c1 [|c2 s1]]; try discriminate.
    destruct (ceqb c1 123%N) eqn:E1; [|discriminate].
    destruct (ceqb c2 35%N) eqn:E2; [|discriminate]. cbn [andb] in Et.
    destruct (span is_word s1) as [[|x a'] [|c3 b']] eqn:Es; try discriminate.
    destruct (ceqb c3 125%N) eqn:E3; [|discriminate].
    inversion Et; subst a b; clear Et.
    unfold match_at, reference_tag_pattern.
    rewrite m_cat_cons, m_lit_prefix.
    change (u "{#") with [123%N; 35%N]. cbn [lit_prefix lit_match ignorecase NOFLAGS].
    rewrite E1, E2. change (length [123%N; 35%N]) with 2. cbn [andb firstn skipn].
    rewrite m_cat_cons. unfold plus, word_char.
    rewrite m_rep_greedy.
    rewrite (greedy_first is_word 1 _ (MState (Some c3) b' []) _ 0 _ _ _ _ Es);
      [ | cbn; lia | ].
    + rewrite Hs. cbn [rest caps]. rewrite firstn_consumed. reflexivity.
    + rewrite m_cat_cons, m_lit_prefix.
      change (u "}") with [125%N]. cbn [lit_prefix lit_match ignorecase NOFLAGS].
      rewrite E3. change (length [125%N]) with 1. cbn [andb firstn skipn].
      rewrite m_cat_nil. cbn [rest andb]. reflexivity.
  - unfold match_at, reference_tag_pattern.
    rewrite m_cat_cons, m_lit_prefix.
    change (u "{#") with [123%N; 35%N].
    unfold tag_at in Et.
    destruct s as [|c1 [|c2 s1]]; cbn [lit_prefix lit_match ignorecase NOFLAGS];
      [reflexivity | destruct (ceqb c1 123%N); reflexivity | ].
    destruct (ceqb c1 123%N) eqn:E1; [|reflexivity].
    destruct (ceqb c2 35%N) eqn:E2; [|reflexivity]. cbn [andb] in Et |- *.
    cbn [length firstn skipn].
    rewrite m_cat_cons. unfold plus, word_char. rewrite m_rep_greedy.
    destruct (span is_word s1) as [a b] eqn:Es.
    rewrite (greedy_commit is_word 1 None) with (a := a) (b := b);
      [ | | exact Es | reflexivity ].
    + destruct a as [|x a']; [reflexivity|].
      replace ((1 <=? 0 + length (x :: a')) && within None (0 + length (x :: a')))
        with true by reflexivity.
      rewrite m_cat_cons, m_lit_prefix. change (u "}") with [125%N].
      destruct b as [|c3 b']; [reflexivity|].
      cbn [lit_prefix lit_match ignorecase NOFLAGS].
      destruct (ceqb c3 125%N); [discriminate | reflexivity].
    + intros c t p0 cs Hc. rewrite m_cat_cons, m_lit_prefix.
      change (u "}") with [125%N]. cbn [lit_prefix lit_match ignorecase NOFLAGS].
      destruct (ceqb c 125%N) eqn:E; [|reflexivity].
      apply ceqb_eq in E. subst c. discriminate Hc.
Qed.

End ReferenceTags.

Section ReferenceTagsSub.

Lemma tag_at_here ident post :
  ident <> [] -> forallb is_word ident = true ->
  tag_at (tag_text ident ++ post) = Some (ident, post).
Proof.
  intros Hne Hw. unfold tag_text. change (u "{#") with [123%N; 35%N].
  change (u "}") with [125%N]. cbn [app tag_at ceqb N.eqb Pos.eqb andb].
  rewrite <- app_assoc. cbn [app].
  rewrite (span_exact is_word ident (125%N :: post) Hw) by reflexivity.
  destruct ident; [congruence | reflexivity].
Qed.

Lemma tag_at_app pre x :
  pre <> [] ->
  tag_at (pre ++ 123%N :: x) =
  match tag_at pre with
  | Some (a, b) => Some (a, b ++ 123%N :: x)
  | None => None
  end.
Proof.
  intros Hne. destruct pre as [|c1 [|c2 s1]]; [congruence | |].
  - cbn [app tag_at]. change (ceqb 123%N 35%N) with false.
    rewrite andb_false_r. reflexivity.
  - cbn [app tag_at]. destruct (ceqb c1 123%N && ceqb c2 35%N); [|reflexivity].
    destruct (span is_word s1) as [a b] eqn:Es.
    rewrite (span_app_stop is_word s1 123%N x a b eq_refl Es).
    destruct a as [|x0 a']; [reflexivity|].
    destruct b as [|c3 b']; [reflexivity|].
    cbn [app]. destruct (ceqb c3 125%N); reflexivity.
Qed.

Lemma remove_reference_tags_step s :
  remove_reference_tags s =
  match tag_at s with
  | Some (a, b) => remove_reference_tags b
  | None =>
      match s with
      | [] => []
      | c :: t => c :: remove_reference_tags t
      end
  end.
Proof.
  unfold remove_reference_tags, sub, sub_with.
  pose proof (tag_match None s) as Hm.
  destruct (tag_at s) as [[a b]|] eqn:Et.
  - pose proof (tag_at_shape s Et) as Hs. subst s.
    rewrite (scan_found NOFLAGS reference_tag_pattern None (tag_text a) b _ Hm eq_refl)
      by discriminate.
    cbn [flat_map expand app].
    rewrite (scan_bol_free NOFLAGS reference_tag_pattern eq_refl b _ None).
    reflexivity.
  - destruct s as [|c t].
    + rewrite scan_nil by exact Hm. reflexivity.
    + rewrite scan_keep by exact Hm. cbn [flat_map app].
      rewrite (scan_bol_free NOFLAGS reference_tag_pattern eq_refl t _ None).
      reflexivity.
Qed.

Lemma tag_at_shorter s a b : tag_at s = Some (a, b) -> length b < length s.
Proof.
  intros H. apply tag_at_shape in H. subst s.
  rewrite length_app. unfold tag_text. cbn. lia.
Qed.

Lemma remove_reference_tags_app_tag ident post :
  ident <> [] -> forallb is_word ident = true ->
  forall n pre, length pre <= n ->
  remove_reference_tags (pre ++ tag_text ident ++ post) =
  remove_reference_tags pre ++ remove_reference_tags post.
Proof.
  intros Hne Hw. induction n as [|n IH]; intros pre Hlen.
  - destruct pre; [|cbn in Hlen; lia].
    cbn [app]. rewrite (remove_reference_tags_step (tag_text ident ++ post)).
    rewrite tag_at_here by assumption.
    rewrite (remove_reference_tags_step []). reflexivity.
  - destruct pre as [|c t].
    + apply (IH []). cbn. lia.
    + rewrite (remove_reference_tags_step ((c :: t) ++ tag_text ident ++ post)).
      rewrite (remove_reference_tags_step (c :: t)).
      change (tag_text ident ++ post) with (123%N :: (35%N :: ident ++ u "}") ++ post).
      rewrite tag_at_app by discriminate.
      destruct (tag_at (c :: t)) as [[a b]|] eqn:Et.
      * apply IH. apply tag_at_shorter in Et. cbn in *. lia.
      * cbn [app]. f_equal. apply (IH t). cbn in Hlen. lia.
Qed.

End ReferenceTagsSub.

(** ** process_html_figures *)

Section Figures.

Lemma lower_fixes_ascii c x :
  (x < 65)%N -> (lower c =? x)%N = (c =? x)%N.
Proof.
  intros Hx. unfold lower, is_upper.
  destruct ((65 <=? c)%N && (c <=? 90)%N) eqn:E.
  - apply andb_prop in E as [E1 E2].
    apply N.leb_le in E1. apply N.leb_le in E2.
    destruct (N.eqb_spec (c + 32) x), (N.eqb_spec c x); try reflexivity; lia.
  - destruct (N.eqb_spec c 304).
    + subst. destruct (N.eqb_spec 105 x), (N.eqb_spec 304 x); try reflexivity; lia.
    + destruct (N.eqb_spec c 8490); [|reflexivity].
      subst. destruct (N.eqb_spec 107 x), (N.eqb_spec 8490 x); try reflexivity; lia.
Qed.

(** A pattern character below the letters is compared as it is. *)
Lemma lit_match_low fl x c : (x < 65)%N -> lit_match fl x c = ceqb c x.
Proof.
  intros Hx. unfold lit_match. destruct (ignorecase fl); [|reflexivity].
  rewrite (lower_same x) by lia.
  replace (case_fixes x) with (@nil N).
  - cbn [existsb]. rewrite orb_false_r. unfold ceqb.
    apply lower_fixes_ascii. exact Hx.
  - unfold case_fixes, ceqb.
    destruct (N.eqb_spec x 105); [lia|].
    destruct (N.eqb_spec x 115); [lia|]. reflexivity.
Qed.

Lemma lit_match_gt fl c : lit_match fl 62%N c = ceqb c 62%N.
Proof. apply lit_match_low. lia. Qed.

Lemma notc_gt fl c : cc_match fl (CSet true [One 62%N]) c = not_gt c.
Proof.
  cbn [cc_match existsb item_match]. rewrite lit_match_gt, orb_false_r.
  reflexivity.
Qed.

Lemma free_of_split fl l : forall c tail a1 a2,
  free_of fl l c tail = true -> c = a1 ++ a2 -> a2 <> [] ->
  lit_prefix fl l (a2 ++ tail) = false.
Proof.
  induction c as [|x c IH]; intros tail a1 a2 H E Hne.
  - destruct a1, a2; try discriminate. congruence.
  - cbn [free_of] in H. apply andb_prop in H as [H1 H2].
    destruct a1 as [|y a1].
    + cbn in E. subst a2. apply negb_true_iff in H1. exact H1.
    + inversion E; subst. apply (IH tail a1 a2); auto.
Qed.

Lemma figure_match p attrs c tail :
  forallb not_gt attrs = true ->
  free_of IGNORECASE_DOTALL (u "</figure>") c (u "</figure>" ++ tail) = true ->
  match_at IGNORECASE_DOTALL figure_pattern false p
    (figure_open attrs ++ c ++ u "</figure>" ++ tail) =
  Some (Hit (figure_open attrs ++ c ++ u "</figure>")
            [(3, u "</figure>"); (2, c); (1, figure_open attrs)]).
Proof.
  intros Hattrs Hfree.
  unfold match_at. set (s := figure_open attrs ++ c ++ u "</figure>" ++ tail).
  set (kf := fun st : mstate => if false && (length (rest st) =? length s)
                                then None else Some st).
  assert (Hm : m IGNORECASE_DOTALL figure_pattern kf (MState p s []) =
               Some (MState (Some 62%N) tail
                       [(3, u "</figure>"); (2, c); (1, figure_open attrs)])).
  { unfold figure_pattern, s, figure_open.
    rewrite m_cat_cons, m_grp, m_cat_cons.
    rewrite <- !app_assoc. rewrite m_lit_self.
    rewrite m_cat_cons. unfold star, notc. rewrite m_rep_greedy.
    rewrite (greedy_commit (cc_match IGNORECASE_DOTALL (CSet true [One 62%N])) 0 None)
      with (a := attrs) (b := u ">" ++ c ++ u "</figure>" ++ tail).
    - cbn [Nat.leb within andb].
      rewrite m_cat_cons, m_lit_self, m_cat_nil.
      rewrite m_cat_cons, m_grp. unfold lazy_star, dot.
      unfold set_cap. cbn [rest prev caps]. rewrite m_rep_lazy.
      erewrite lazy_skip; [reflexivity | | | ].
      + apply forallb_forall. reflexivity.
      + intros a1 a2 E Hne. unfold set_cap. cbn [rest prev caps].
        rewrite m_cat_cons, m_grp, m_lit_prefix.
        rewrite (free_of_split _ _ _ _ a1 a2 Hfree E Hne). reflexivity.
      + unfold set_cap. cbn [rest prev caps].
        rewrite m_cat_cons, m_grp, m_lit_self, m_cat_nil.
        unfold set_cap. cbn [rest prev caps]. unfold kf. cbn [andb].
        rewrite !firstn_consumed.
        replace (u "<figure" ++ attrs ++ u ">" ++ c ++ u "</figure>" ++ tail)
          with ((u "<figure" ++ attrs ++ u ">") ++ c ++ u "</figure>" ++ tail)
          by (rewrite <- !app_assoc; reflexivity).
        rewrite firstn_consumed. reflexivity.
    - intros x t p0 cs Hx. rewrite m_cat_cons, m_lit_prefix.
      change (u ">") with [62%N]. cbn [lit_prefix].
      rewrite notc_gt in Hx. rewrite lit_match_gt.
      unfold not_gt in Hx. apply negb_true_iff in Hx. rewrite Hx. reflexivity.
    - apply span_exact.
      + rewrite (forallb_pointwise _ not_gt attrs (notc_gt _)). exact Hattrs.
      + change (u ">") with [62%N]. cbn [app]. rewrite notc_gt. reflexivity.
    - reflexivity. }
  rewrite Hm. cbn [rest caps]. unfold s.
  rewrite 2 app_assoc. rewrite firstn_consumed. rewrite <- app_assoc. reflexivity.
Qed.

End Figures.

Section FiguresSub.

Lemma process_html_figures_first_close attrs c tail :
  forallb not_gt attrs = true ->
  free_of IGNORECASE_DOTALL (u "</figure>") c (u "</figure>" ++ tail) = true ->
  process_html_figures (figure_open attrs ++ c ++ u "</figure>" ++ tail) =
  normalized_figure c ++ process_html_figures tail.
Proof.
  intros Ha Hc. unfold process_html_figures, sub_with.
  pose proof (figure_match None attrs c tail Ha Hc) as Hm.
  replace (figure_open attrs ++ c ++ u "</figure>" ++ tail)
    with ((figure_open attrs ++ c ++ u "</figure>") ++ tail) in *
    by (rewrite <- !app_assoc; reflexivity).
  rewrite (scan_found IGNORECASE_DOTALL figure_pattern None _ tail _ Hm eq_refl).
  - cbn [flat_map].
    rewrite (scan_bol_free IGNORECASE_DOTALL figure_pattern eq_refl tail _ None).
    reflexivity.
  - unfold figure_open. destruct attrs; discriminate.
Qed.

End FiguresSub.

(** ** convert_specific_img_tags_to_numbered_text *)

Section NumberedImages.

Lemma img_tail k r p cs sp post :
  sp <> [] -> forallb is_space sp = true -> starts_without_space post ->
  k (MState (Some nl) post cs) = Some r ->
  m IGNORECASE (cat img_re_tail) k (MState p (img_tail_text sp post) cs) = Some r.
Proof.
  intros Hne Hsp Hpost Hk. unfold img_re_tail, img_tail_text.
  rewrite m_cat_cons. unfold lazy_star, notc. rewrite m_rep_lazy.
  apply lazy_first; [lia|].
  rewrite m_cat_cons. unfold star, ws. rewrite m_rep_greedy.
  rewrite (greedy_commit (cc_match IGNORECASE CSpace) 0 None)
    with (a := [32%N]) (b := u "/" ++ u ">" ++ sp ++ nl :: post);
    [ | | reflexivity | reflexivity ].
  - cbn [Nat.leb within andb].
    rewrite m_cat_cons, m_opt, m_lit_self.
    cbn [rest]. rewrite (length_ltb_app (u "/")) by discriminate.
    rewrite m_cat_cons, m_lit_self, m_cat_cons.
    unfold plus. rewrite m_rep_greedy.
    rewrite (greedy_back_one (cc_match IGNORECASE CSpace) 1 _ r nl post sp 0 _ cs);
      [reflexivity | exact Hsp | reflexivity | exact Hpost
      | destruct sp; [congruence | cbn; lia] | | ].
    + rewrite m_cat_cons, m_lit_prefix.
      destruct post as [|y post']; [reflexivity|].
      cbn [lit_prefix]. cbn in Hpost.
      rewrite lit_match_low by (unfold nl; lia).
      rewrite (class_neq (fun c => negb (is_space c)) y nl);
        [reflexivity | rewrite Hpost; reflexivity | reflexivity].
    + rewrite m_cat_cons, m_lit_prefix. cbn [lit_prefix].
      rewrite lit_match_refl. cbn [andb length firstn skipn].
      rewrite m_cat_nil.
      replace (prev_after (prev_after _ sp) [nl]) with (Some nl) by reflexivity.
      exact Hk.
  - intros c t p0 cs0 Hc. cbn [cc_match] in Hc.
    rewrite m_cat_cons, m_opt, m_lit_prefix.
    change (u "/") with [47%N]. cbn [lit_prefix].
    rewrite (lit_match_space IGNORECASE 47%N c Hc) by reflexivity. cbn [andb].
    rewrite m_cat_cons, m_lit_prefix. change (u ">") with [62%N]. cbn [lit_prefix].
    rewrite (lit_match_space IGNORECASE 62%N c Hc) by reflexivity. reflexivity.
Qed.

Lemma img_alt k r p cs d2 sp post :
  d2 <> [] -> forallb is_digit d2 = true ->
  sp <> [] -> forallb is_space sp = true -> starts_without_space post ->
  k (MState (Some nl) post ((1, d2) :: cs)) = Some r ->
  m IGNORECASE (cat img_re_alt) k (MState p (img_alt_text d2 sp post) cs) = Some r.
Proof.
  intros Hne2 Hd2 Hne Hsp Hpost Hk. unfold img_re_alt, img_alt_text.
  rewrite m_cat_cons, m_lit_self, m_cat_cons, m_grp.
  unfold plus, digit. rewrite m_rep_greedy.
  rewrite (greedy_commit (cc_match IGNORECASE (CSet false [Range 48%N 57%N])) 1 None)
    with (a := d2) (b := dq :: img_tail_text sp post);
    [ | | | reflexivity ].
  - replace ((1 <=? 0 + length d2) && within None (0 + length d2)) with true
      by (destruct d2; [congruence | reflexivity]).
    unfold set_cap. cbn [rest prev caps]. rewrite firstn_consumed.
    rewrite m_cat_cons. change (dq :: img_tail_text sp post) with ([dq] ++ img_tail_text sp post).
    rewrite m_lit_self. apply img_tail; assumption.
  - intros c t p0 cs0 Hc. rewrite digit_class in Hc.
    unfold set_cap. cbn [rest prev caps].
    rewrite m_cat_cons, m_lit_prefix. cbn [lit_prefix].
    rewrite (lit_match_digit IGNORECASE dq c Hc) by reflexivity. reflexivity.
  - apply span_exact.
    + rewrite (forallb_pointwise _ is_digit d2 (digit_class IGNORECASE)). exact Hd2.
    + reflexivity.
Qed.

Lemma img_src k r p cs folder d1 d2 sp post :
  d1 <> [] -> forallb is_digit d1 = true ->
  d2 <> [] -> forallb is_digit d2 = true ->
  sp <> [] -> forallb is_space sp = true -> starts_without_space post ->
  k (MState (Some nl) post ((1, d2) :: cs)) = Some r ->
  m IGNORECASE (cat (img_re_src folder)) k (MState p (img_src_text folder d1 d2 sp post) cs) = Some r.
Proof.
  intros Hne1 Hd1 Hne2 Hd2 Hne Hsp Hpost Hk. unfold img_re_src, img_src_text.
  rewrite m_cat_cons, m_lit_self, m_cat_cons, m_lit_self, m_cat_cons, m_lit_self.
  rewrite m_cat_cons. unfold plus at 1, digit at 1. rewrite m_rep_greedy.
  rewrite (greedy_commit (cc_match IGNORECASE (CSet false [Range 48%N 57%N])) 1 None)
    with (a := d1) (b := q ".png`" ++ 32%N :: img_alt_text d2 sp post);
    [ | | | reflexivity ].
  - replace ((1 <=? 0 + length d1) && within None (0 + length d1)) with true
      by (destruct d1; [congruence | reflexivity]).
    rewrite m_cat_cons, m_lit_self, m_cat_cons. unfold other_attrs.
    rewrite m_opt. cbn [rest].
    rewrite m_cat_cons. unfold lazy_star, notc. rewrite m_rep_lazy.
    erewrite lazy_first; [reflexivity | lia | ].
    rewrite m_cat_cons. unfold plus, ws. rewrite m_rep_greedy.
    rewrite (greedy_commit (cc_match IGNORECASE CSpace) 1 None)
      with (a := [32%N]) (b := img_alt_text d2 sp post);
      [ | | reflexivity | reflexivity ].
    + cbn [Nat.leb length Nat.add within andb]. rewrite m_cat_nil. cbn [rest].
      replace (length (img_alt_text d2 sp post) <? S (length (img_alt_text d2 sp post)))
        with true by (symmetry; apply Nat.ltb_lt; lia).
      apply img_alt; assumption.
    + intros c t p0 cs0 Hc. cbn [cc_match] in Hc. rewrite m_cat_nil. cbn [rest].
      destruct (_ <? _); [|reflexivity].
      unfold img_re_alt. rewrite m_cat_cons, m_lit_prefix.
      change (q "alt=`") with [97%N; 108%N; 116%N; 61%N; dq]. cbn [lit_prefix].
      rewrite (lit_match_space IGNORECASE 97%N c Hc) by reflexivity. reflexivity.
  - intros c t p0 cs0 Hc. rewrite digit_class in Hc.
    rewrite m_cat_cons, m_lit_prefix.
    change (q ".png`") with [46%N; 112%N; 110%N; 103%N; dq]. cbn [lit_prefix].
    rewrite (lit_match_digit IGNORECASE 46%N c Hc) by reflexivity. reflexivity.
  - apply span_exact.
    + rewrite (forallb_pointwise _ is_digit d1 (digit_class IGNORECASE)). exact Hd1.
    + reflexivity.
Qed.

Lemma no_space_then_tail pcy x t : no_space_then pcy (x :: t) = true -> no_space_then pcy t = true.
Proof.
  cbn [no_space_then]. destruct t; [reflexivity|].
  intros H. apply andb_prop in H as [_ H]. exact H.
Qed.

Lemma no_space_then_suffix pcy a : forall b,
  no_space_then pcy (a ++ b) = true -> no_space_then pcy b = true.
Proof.
  induction a as [|x a IH]; intros b H; [exact H|].
  apply IH. apply (no_space_then_tail pcy x). exact H.
Qed.

Lemma no_space_then_cons pcy x t :
  is_space x = false -> no_space_then pcy t = true ->
  no_space_then pcy (x :: t) = true.
Proof.
  intros Hx Ht. cbn [no_space_then]. destruct t; [reflexivity|].
  rewrite Hx, Ht. reflexivity.
Qed.

Lemma no_space_then_cons_other pcy x y t :
  pcy y = false -> no_space_then pcy (y :: t) = true ->
  no_space_then pcy (x :: y :: t) = true.
Proof.
  intros Hy Ht. cbn [no_space_then] in *. rewrite Hy, andb_false_r, Ht. reflexivity.
Qed.

Lemma no_space_then_app pcy a : forall b,
  no_space a = true -> no_space_then pcy b = true ->
  no_space_then pcy (a ++ b) = true.
Proof.
  induction a as [|x a IH]; intros b Ha Hb; [exact Hb|].
  cbn in Ha. apply andb_prop in Ha as [Hx Ha]. apply negb_true_iff in Hx.
  cbn [app]. apply no_space_then_cons; auto.
Qed.

Lemma no_space_then_run pcy : forall s w b,
  no_space_then pcy s = true -> span is_space s = (w, b) -> w <> [] ->
  match b with y :: _ => pcy y = false | [] => True end.
Proof.
  induction s as [|x t IH]; intros w b Hn Hs Hw; cbn in Hs.
  - inversion Hs; subst. congruence.
  - destruct (is_space x) eqn:Ex; [|inversion Hs; subst; congruence].
    destruct (span is_space t) as [w' b'] eqn:Et. inversion Hs; subst.
    destruct w' as [|z w'].
    + destruct t as [|y t']; cbn in Et.
      * inversion Et; subst. exact I.
      * destruct (is_space y) eqn:Ey.
        -- destruct (span is_space t'); inversion Et.
        -- inversion Et; subst. cbn [no_space_then] in Hn.
           apply andb_prop in Hn as [Hn _]. rewrite Ex in Hn.
           destruct (pcy y); [discriminate | reflexivity].
    + apply (IH (z :: w') b); [apply (no_space_then_tail pcy x); exact Hn | reflexivity | discriminate].
Qed.

Lemma prefix_split (a : str) : forall b big rest',
  a ++ b = big ++ 62%N :: rest' -> forallb not_gt a = true ->
  exists b0, b = b0 ++ 62%N :: rest' /\ big = a ++ b0.
Proof.
  induction a as [|x a IH]; intros b big rest' E Ha.
  - exists big. split; [exact E | reflexivity].
  - cbn in Ha. apply andb_prop in Ha as [Hx Ha].
    destruct big as [|y big]; cbn in E; inversion E; subst.
    + discriminate Hx.
    + destruct (IH b big rest' H1 Ha) as [b0 [E1 E2]].
      exists b0. split; [exact E1 | rewrite E2; reflexivity].
Qed.

Lemma img_src_text_split folder d1 d2 sp post :
  img_src_text folder d1 d2 sp post = img_attrs_text folder d1 d2 ++ 62%N :: sp ++ nl :: post.
Proof.
  unfold img_src_text, img_alt_text, img_tail_text, img_attrs_text.
  repeat (rewrite <- app_assoc; cbn [app]). reflexivity.
Qed.

Lemma digits_no_space d : forallb is_digit d = true -> no_space d = true.
Proof.
  induction d as [|x d IH]; [reflexivity|]. intros H.
  cbn [forallb] in H. apply andb_prop in H as [Hx Hd].
  unfold no_space in *. cbn [forallb].
  rewrite (digit_not_space x Hx), IH; auto.
Qed.

Lemma s_like_digit c : is_digit c = true -> s_like c = false.
Proof. intros H. apply (lit_match_digit IGNORECASE 115%N c H); reflexivity. Qed.

Lemma img_attrs_no_space_then folder d1 d2 :
  no_space folder = true -> forallb is_digit d1 = true ->
  d2 <> [] -> forallb is_digit d2 = true ->
  no_space_then s_like (img_attrs_text folder d1 d2) = true.
Proof.
  intros Hf Hd1 Hne2 Hd2. unfold img_attrs_text.
  apply no_space_then_app; [reflexivity|].
  apply no_space_then_app; [exact Hf|].
  apply no_space_then_app; [reflexivity|].
  apply no_space_then_app; [apply digits_no_space; exact Hd1|].
  apply no_space_then_app; [reflexivity|].
  change (q "alt=`") with (97%N :: [108%N; 116%N; 61%N; dq]). cbn [app].
  apply no_space_then_cons_other; [reflexivity|].
  do 5 (apply no_space_then_cons; [reflexivity|]).
  apply no_space_then_app; [apply digits_no_space; exact Hd2|].
  reflexivity.
Qed.

(** The attributes before [src] cannot be anything: no white space of the
    tag is followed by [src]. *)
Lemma img_no_other_attrs (k' : cont) p cs folder d1 d2 sp post :
  no_space folder = true -> forallb is_digit d1 = true ->
  d2 <> [] -> forallb is_digit d2 = true ->
  (forall st, match rest st with c :: _ => s_like c = false | [] => True end ->
              k' st = None) ->
  m IGNORECASE (cat [lazy_star (notc 62%N); plus ws]) k'
    (MState p (img_src_text folder d1 d2 sp post) cs) = None.
Proof.
  intros Hf Hd1 Hne2 Hd2 Hk'.
  rewrite m_cat_cons. unfold lazy_star, notc. rewrite m_rep_lazy.
  apply lazy_none. intros a b Hab Ha.
  rewrite (forallb_pointwise _ not_gt a (notc_gt IGNORECASE)) in Ha.
  rewrite img_src_text_split in Hab. symmetry in Hab.
  destruct (prefix_split a b _ _ Hab Ha) as [b0 [Eb Ebig]].
  rewrite m_cat_cons. unfold plus, ws. rewrite m_rep_greedy.
  destruct (span is_space b0) as [w b0'] eqn:Es.
  rewrite (greedy_commit (cc_match IGNORECASE CSpace) 1 None)
    with (a := w) (b := b0' ++ 62%N :: sp ++ nl :: post);
    [ | | | reflexivity ].
  - destruct w as [|x w]; [reflexivity|].
    replace ((1 <=? 0 + length (x :: w)) && within None (0 + length (x :: w)))
      with true by reflexivity.
    rewrite m_cat_nil. apply Hk'. cbn [rest].
    pose proof (img_attrs_no_space_then folder d1 d2 Hf Hd1 Hne2 Hd2) as Hn.
    rewrite Ebig in Hn. apply no_space_then_suffix in Hn.
    pose proof (no_space_then_run s_like b0 (x :: w) b0' Hn Es) as Hr.
    destruct b0' as [|y b0'']; [reflexivity|].
    cbn [app]. apply Hr. discriminate.
  - intros c t p0 cs0 Hc. cbn [cc_match] in Hc. rewrite m_cat_nil.
    apply Hk'. cbn [rest].
    apply (lit_match_space IGNORECASE 115%N c Hc); reflexivity.
  - rewrite Eb. apply (span_app_stop is_space b0 62%N); [reflexivity | exact Es].
Qed.

Lemma img_text folder d1 d2 sp post :
  img_tag folder d1 d2 ++ sp ++ nl :: post =
  u "<img" ++ 32%N :: img_src_text folder d1 d2 sp post.
Proof.
  unfold img_tag, img_src_text, img_alt_text, img_tail_text.
  change (q "<img src=`./") with (u "<img" ++ 32%N :: q "src=`./").
  change (q ".png` alt=`") with (q ".png`" ++ 32%N :: q "alt=`").
  change (q "` />") with (dq :: 32%N :: u "/" ++ u ">").
  repeat (rewrite <- app_assoc; cbn [app]). reflexivity.
Qed.

Lemma img_match p folder d1 d2 sp post :
  no_space folder = true ->
  d1 <> [] -> forallb is_digit d1 = true ->
  d2 <> [] -> forallb is_digit d2 = true ->
  sp <> [] -> forallb is_space sp = true -> starts_without_space post ->
  match_at IGNORECASE (numbered_img_pattern folder) false p
    (img_tag folder d1 d2 ++ sp ++ nl :: post) =
  Some (Hit (img_tag folder d1 d2 ++ sp ++ [nl]) [(1, d2)]).
Proof.
  intros Hf Hne1 Hd1 Hne2 Hd2 Hne Hsp Hpost.
  unfold match_at.
  set (s := img_tag folder d1 d2 ++ sp ++ nl :: post).
  set (kf := fun st : mstate => if false && (length (rest st) =? length s)
                                then None else Some st).
  assert (Hm : m IGNORECASE (numbered_img_pattern folder) kf (MState p s []) =
               Some (MState (Some nl) post [(1, d2)])).
  { unfold s. rewrite img_text.
    change (numbered_img_pattern folder)
      with (cat (lit (u "<img") :: plus ws :: other_attrs :: img_re_src folder)).
    rewrite m_cat_cons, m_lit_self, m_cat_cons.
    unfold plus, ws. rewrite m_rep_greedy.
    apply (greedy_first (cc_match IGNORECASE CSpace) 1 _ _ _ 0 _ _ [32%N]
             (img_src_text folder d1 d2 sp post)).
    - reflexivity.
    - cbn. lia.
    - rewrite m_cat_cons. unfold other_attrs. rewrite m_opt.
      rewrite img_no_other_attrs; try assumption.
      + apply img_src; try assumption. reflexivity.
      + intros st Hst. destruct (_ <? _); [|reflexivity].
        unfold img_re_src. rewrite m_cat_cons.
        destruct st as [p0 s0 cs0]. rewrite m_lit_prefix.
        change (q "src=`./") with (115%N :: [114%N; 99%N; 61%N; dq; 46%N; 47%N]).
        cbn [rest] in Hst. destruct s0 as [|c s0]; [reflexivity|].
        cbn [lit_prefix]. unfold s_like in Hst. rewrite Hst. reflexivity. }
  rewrite Hm. cbn [rest caps]. unfold s.
  replace (img_tag folder d1 d2 ++ sp ++ nl :: post)
    with ((img_tag folder d1 d2 ++ sp ++ [nl]) ++ post)
    by (repeat (rewrite <- app_assoc; cbn [app]); reflexivity).
  rewrite firstn_consumed. reflexivity.
Qed.

Lemma bol_free_lit l : bol_free (lit l) = true.
Proof. induction l as [|x l IH]; [reflexivity | exact IH]. Qed.

Lemma bol_free_numbered_img folder :
  bol_free (numbered_img_pattern folder) = true.
Proof.
  unfold numbered_img_pattern, cat. cbn [fold_right bol_free].
  rewrite !bol_free_lit. reflexivity.
Qed.

Lemma numbered_img_replaced folder d1 d2 sp post :
  no_space folder = true ->
  d1 <> [] -> forallb is_digit d1 = true ->
  d2 <> [] -> forallb is_digit d2 = true ->
  sp <> [] -> forallb is_space sp = true -> starts_without_space post ->
  convert_specific_img_tags_to_numbered_text
    (img_tag folder d1 d2 ++ sp ++ nl :: post) folder =
  d2 ++ u ". " ++ convert_specific_img_tags_to_numbered_text post folder.
Proof.
  intros Hf Hne1 Hd1 Hne2 Hd2 Hne Hsp Hpost.
  unfold convert_specific_img_tags_to_numbered_text, sub, sub_with.
  pose proof (img_match None folder d1 d2 sp post Hf Hne1 Hd1 Hne2 Hd2 Hne Hsp Hpost) as Hm.
  replace (img_tag folder d1 d2 ++ sp ++ nl :: post)
    with ((img_tag folder d1 d2 ++ sp ++ [nl]) ++ post) in *
    by (repeat (rewrite <- app_assoc; cbn [app]); reflexivity).
  rewrite (scan_found IGNORECASE (numbered_img_pattern folder) None _ post _ Hm eq_refl).
  - cbn [flat_map expand group lookup groups Nat.eqb app].
    rewrite (scan_bol_free IGNORECASE (numbered_img_pattern folder)) with (p' := None).
    + rewrite app_nil_r, <- app_assoc. reflexivity.
    + apply bol_free_numbered_img.
  - unfold img_tag. destruct folder; discriminate.
Qed.

End NumberedImages.

(** ** normalize_blockquoted_headers *)

Section BlockquotedHeaders.

Lemma greedy_too_short pc lo hi k : forall s cnt p cs a b,
  span pc s = (a, b) -> cnt + length a < lo ->
  greedy_spec pc lo hi k cnt p s cs = None.
Proof.
  induction s as [|c t IH]; intros cnt p cs a b Hs Hlen; cbn in Hs.
  - inversion Hs; subst. cbn in *.
    replace (lo <=? cnt) with false by (symmetry; apply Nat.leb_gt; lia).
    reflexivity.
  - cbn [greedy_spec].
    assert (Hstop : (lo <=? cnt) = false)
      by (apply Nat.leb_gt; lia).
    rewrite Hstop. destruct (pc c).
    + destruct (span pc t) as [a' b'] eqn:Et. inversion Hs; subst.
      destruct (below hi cnt); cbn [andb]; [|reflexivity].
      rewrite (IH (S cnt) (Some c) cs a' b eq_refl); [reflexivity|].
      cbn in Hlen. lia.
    + rewrite andb_false_r. reflexivity.
Qed.

Lemma greedy_stuck pc lo hi k x t p cs :
  pc x = false -> 0 < lo -> greedy_spec pc lo hi k 0 p (x :: t) cs = None.
Proof.
  intros Hx Hlo. cbn [greedy_spec]. rewrite Hx, andb_false_r.
  replace (lo <=? 0) with false by (symmetry; apply Nat.leb_gt; lia).
  reflexivity.
Qed.

Lemma hash_not_space x : is_hash x = true -> is_space x = false.
Proof. intros H. apply ceqb_eq in H. subst. reflexivity. Qed.

Lemma hash_class c : cc_match MULTILINE (CLit 35%N) c = is_hash c.
Proof. reflexivity. Qed.

Lemma dot_class c : cc_match MULTILINE CDot c = not_nl c.
Proof. reflexivity. Qed.

Lemma eol_after_line s4 l s5 :
  span not_nl s4 = (l, s5) ->
  forall p cs, at_eol MULTILINE (MState p s5 cs) = true.
Proof.
  intros E p cs. unfold at_eol. cbn [rest].
  destruct s5 as [|y s5']; [reflexivity|].
  pose proof (span_stop not_nl s4 l (y :: s5') y s5' E eq_refl) as Hy.
  unfold not_nl in Hy. apply negb_false_iff in Hy. rewrite Hy. reflexivity.
Qed.

Lemma header_match p s :
  match_at MULTILINE blockquoted_header_pattern false p s =
  match header_at p s with
  | Some (g1, g2, g3, _) =>
      Some (Hit (g1 ++ g2 ++ g3) [(3, g3); (2, g2); (1, g1)])
  | None => None
  end.
Proof.
  unfold match_at, header_at, blockquoted_header_pattern.
  set (kf := fun st : mstate => if false && (length (rest st) =? length s)
                                then None else Some st).
  rewrite m_cat_cons. cbn [m].
  replace (at_bol MULTILINE (MState p s [])) with (line_start p)
    by (destruct p; reflexivity).
  destruct (line_start p); [|reflexivity].
  rewrite m_cat_cons, m_grp, m_cat_cons, m_lit_prefix.
  destruct s as [|c s1]; [reflexivity|].
  change (u ">") with [62%N]. cbn [lit_prefix lit_match ignorecase MULTILINE].
  destruct (ceqb c 62%N) eqn:Ec; [|reflexivity].
  change (length [62%N]) with 1. cbn [andb firstn skipn].
  destruct (span is_space s1) as [w1 s2] eqn:E1.
  destruct (span is_hash s2) as [h s3] eqn:E2.
  destruct (span is_space s3) as [w2 s4] eqn:E3.
  destruct (span not_nl s4) as [l s5] eqn:E4.
  pose proof (span_app _ _ _ _ E1) as H1.
  pose proof (span_app _ _ _ _ E2) as H2.
  pose proof (span_app _ _ _ _ E3) as H3.
  pose proof (span_app _ _ _ _ E4) as H4.
  rewrite m_cat_cons. unfold star, ws. rewrite m_rep_greedy.
  rewrite (greedy_commit (cc_match MULTILINE CSpace) 0 None) with (a := w1) (b := s2);
    [ | | exact E1 | reflexivity ].
  2:{ intros x t p0 cs0 Hx. cbn [cc_match] in Hx.
      rewrite m_cat_nil. unfold set_cap. cbn [rest prev caps].
      rewrite m_cat_cons, m_grp. unfold times, hash. rewrite m_rep_greedy.
      apply greedy_stuck; [|lia].
      rewrite hash_class. apply (class_neq is_space x 35%N Hx eq_refl). }
  replace ((0 <=? 0 + length w1) && within None (0 + length w1)) with true
    by reflexivity.
  rewrite m_cat_nil. unfold set_cap at 1. cbn [rest prev caps].
  rewrite m_cat_cons, m_grp. unfold times, hash. rewrite m_rep_greedy.
  rewrite (greedy_commit (cc_match MULTILINE (CLit 35%N)) 1 (Some 6)) with (a := h) (b := s3);
    [ | | exact E2 | reflexivity ].
  2:{ intros x t p0 cs0 Hx. rewrite hash_class in Hx.
      unfold set_cap. cbn [rest prev caps].
      rewrite m_cat_cons, m_grp, m_cat_cons. unfold plus, ws. rewrite m_rep_greedy.
      apply greedy_stuck; [|lia].
      apply hash_not_space. exact Hx. }
  change ((1 <=? 0 + length h) && within (Some 6) (0 + length h))
    with ((1 <=? length h) && (length h <=? 6)).
  destruct ((1 <=? length h) && (length h <=? 6)); [|reflexivity].
  unfold set_cap at 1. cbn [rest prev caps].
  rewrite m_cat_cons, m_grp, m_cat_cons. unfold plus, ws. rewrite m_rep_greedy.
  destruct w2 as [|x2 w2].
  - rewrite (greedy_too_short (cc_match MULTILINE CSpace) 1 None) with (a := []) (b := s4);
      [reflexivity | exact E3 | cbn; lia].
  - erewrite (greedy_first (cc_match MULTILINE CSpace) 1 _ _ s3 0 _ _ (x2 :: w2) s4 E3);
      [ | cbn; lia | ].
    2:{ rewrite m_cat_cons. unfold star, dot. rewrite m_rep_greedy.
        erewrite (greedy_first (cc_match MULTILINE CDot) 0 _ _ s4 0 _ _ l s5 E4);
          [reflexivity | lia | ].
        rewrite m_cat_nil. unfold set_cap. cbn [rest prev caps].
        rewrite m_cat_cons. cbn [m].
        rewrite (eol_after_line s4 l s5 E4). rewrite m_cat_nil.
        unfold kf. cbn [andb]. reflexivity. }
    cbn [rest caps]. subst s4 s3 s2 s1.
    rewrite (firstn_consumed_eq ((c :: w1) ++ h ++ (x2 :: w2) ++ l) s5)
      by (repeat (rewrite <- app_assoc; cbn [app]); reflexivity).
    rewrite (firstn_consumed_eq ((x2 :: w2) ++ l) s5)
      by (repeat (rewrite <- app_assoc; cbn [app]); reflexivity).
    rewrite (firstn_consumed_eq h ((x2 :: w2) ++ l ++ s5)) by reflexivity.
    rewrite (firstn_consumed_eq (c :: w1) (h ++ (x2 :: w2) ++ l ++ s5))
      by reflexivity.
    reflexivity.
Qed.

Lemma span_stop_head pc s a b :
  span pc s = (a, b) -> match b with [] => True | c :: _ => pc c = false end.
Proof.
  intros H. destruct b as [|c b']; [exact I|].
  apply (span_stop pc s a (c :: b') c b' H eq_refl).
Qed.

Lemma header_at_inv p s g1 g2 g3 x :
  header_at p s = Some (g1, g2, g3, x) ->
  exists w1 w2 l,
    line_start p = true /\ g1 = 62%N :: w1 /\ g3 = w2 ++ l /\
    s = g1 ++ g2 ++ g3 ++ x /\ header_parts w1 g2 w2 l x.
Proof.
  unfold header_at. destruct (line_start p); [|discriminate].
  destruct s as [|c s1]; [discriminate|].
  destruct (ceqb c 62%N) eqn:Ec; [|discriminate].
  destruct (span is_space s1) as [w1 s2] eqn:E1.
  destruct (span is_hash s2) as [h s3] eqn:E2.
  destruct ((1 <=? length h) && (length h <=? 6)) eqn:Eh; [|discriminate].
  destruct (span is_space s3) as [w2 s4] eqn:E3.
  destruct w2 as [|x2 w2]; [discriminate|].
  destruct (span not_nl s4) as [l s5] eqn:E4.
  intros H. inversion H; subst g1 g2 g3 x; clear H.
  apply ceqb_eq in Ec. subst c.
  exists w1, (x2 :: w2), l.
  apply andb_prop in Eh as [Eh1 Eh2].
  apply Nat.leb_le in Eh1. apply Nat.leb_le in Eh2.
  split; [reflexivity|]. split; [reflexivity|]. split; [reflexivity|].
  split.
  - rewrite (span_app _ _ _ _ E1), (span_app _ _ _ _ E2),
            (span_app _ _ _ _ E3), (span_app _ _ _ _ E4).
    list_norm. reflexivity.
  - unfold header_parts.
    split; [exact (span_all _ _ _ _ E1)|].
    split; [exact (span_all _ _ _ _ E2)|].
    split; [lia|]. split; [discriminate|].
    split; [exact (span_all _ _ _ _ E3)|].
    split; [exact (span_all _ _ _ _ E4)|].
    split.
    + rewrite <- (span_app _ _ _ _ E4).
      exact (span_stop_head _ _ _ _ E3).
    + pose proof (span_stop_head _ _ _ _ E4) as Hs.
      destruct s5 as [|y s5']; [exact I|].
      unfold not_nl in Hs. apply negb_false_iff in Hs. apply ceqb_eq in Hs.
      exact Hs.
Qed.

Lemma header_at_intro p w1 h w2 l x :
  line_start p = true -> header_parts w1 h w2 l x ->
  header_at p ((62%N :: w1) ++ h ++ (w2 ++ l) ++ x) = Some (62%N :: w1, h, w2 ++ l, x).
Proof.
  intros Hp (Hw1 & Hh & Hlen & Hne & Hw2 & Hl & Hlx & Hx).
  unfold header_at. rewrite Hp. cbn [app]. change (ceqb 62%N 62%N) with true. cbv iota.
  assert (Hhead : match h ++ (w2 ++ l) ++ x with [] => True
                  | c :: _ => is_space c = false end).
  { destruct h as [|c h']; [cbn in Hlen; lia|]. cbn in Hh |- *.
    apply andb_prop in Hh as [Hc _]. apply hash_not_space. exact Hc. }
  rewrite (span_exact is_space w1 _ Hw1 Hhead).
  assert (Hhead2 : match (w2 ++ l) ++ x with [] => True
                   | c :: _ => is_hash c = false end).
  { destruct w2 as [|c w2']; [congruence|]. cbn in Hw2 |- *.
    apply andb_prop in Hw2 as [Hc _].
    destruct (is_hash c) eqn:E; [|reflexivity].
    apply hash_not_space in E. congruence. }
  rewrite (span_exact is_hash h _ Hh Hhead2).
  replace ((1 <=? length h) && (length h <=? 6)) with true
    by (symmetry; apply andb_true_intro; split; apply Nat.leb_le; lia).
  rewrite <- app_assoc.
  rewrite (span_exact is_space w2 _ Hw2 Hlx).
  destruct w2 as [|c w2']; [congruence|].
  assert (Hhead3 : match x with [] => True | c :: _ => not_nl c = false end).
  { destruct x as [|y x']; [exact I|]. subst y. reflexivity. }
  rewrite (span_exact not_nl l _ Hl Hhead3). reflexivity.
Qed.

Lemma normalize_from_start s :
  normalize_blockquoted_headers s = normalize_from None s.
Proof. reflexivity. Qed.

Lemma normalize_from_step p s :
  normalize_from p s =
  match header_at p s with
  | Some (g1, g2, g3, x) =>
      g1 ++ u "###" ++ g3 ++ normalize_from (prev_after p (g1 ++ g2 ++ g3)) x
  | None =>
      match s with
      | [] => []
      | c :: t => c :: normalize_from (Some c) t
      end
  end.
Proof.
  unfold normalize_from. pose proof (header_match p s) as Hm.
  destruct (header_at p s) as [[[[g1 g2] g3] x]|] eqn:Eb.
  - destruct (header_at_inv p s g1 g2 g3 x Eb) as (w1 & w2 & l & _ & Hg1 & _ & Hs & _).
    assert (Hs' : s = (g1 ++ g2 ++ g3) ++ x) by (rewrite Hs; list_norm; reflexivity).
    rewrite Hs' in Hm |- *.
    rewrite (scan_found MULTILINE blockquoted_header_pattern p _ x _ Hm eq_refl)
      by (subst g1; discriminate).
    unfold render. cbn [flat_map expand group lookup groups Nat.eqb].
    list_norm. reflexivity.
  - destruct s as [|c t].
    + rewrite scan_nil by exact Hm. reflexivity.
    + rewrite scan_keep by exact Hm. reflexivity.
Qed.

Lemma header_at_nil p : header_at p [] = None.
Proof. unfold header_at. destruct (line_start p); reflexivity. Qed.

Lemma normalize_from_nil p : normalize_from p [] = [].
Proof. rewrite normalize_from_step, header_at_nil. reflexivity. Qed.

Lemma normalize_from_nl p x :
  normalize_from p (nl :: x) = nl :: normalize_from (Some nl) x.
Proof.
  rewrite normalize_from_step.
  replace (header_at p (nl :: x)) with (@None (str * str * str * str))
    by (unfold header_at; destruct (line_start p); reflexivity).
  reflexivity.
Qed.

Lemma header_at_none p c t :
  header_at p (c :: t) = None <->
  line_start p && ceqb c 62%N && header_follows t = false.
Proof.
  unfold header_at, header_follows.
  destruct (line_start p); [|split; reflexivity].
  destruct (ceqb c 62%N); [|split; reflexivity]. cbn [andb].
  destruct (span is_space t) as [w1 s2].
  destruct (span is_hash s2) as [h s3].
  destruct ((1 <=? length h) && (length h <=? 6)); [|split; reflexivity].
  destruct (span is_space s3) as [w2 s4]. cbn [fst andb].
  destruct w2; [split; reflexivity|].
  destruct (span not_nl s4). split; discriminate.
Qed.

Lemma span_same_to_marker pc x y :
  pc 62%N = false -> same_to_marker x y ->
  fst (span pc x) = fst (span pc y) /\
  same_to_marker (snd (span pc x)) (snd (span pc y)).
Proof.
  intros Hpc H. induction H as [| x y | c x y H IH].
  - split; [reflexivity | constructor].
  - cbn. rewrite Hpc. split; [reflexivity | constructor].
  - cbn [span]. destruct (pc c).
    + destruct IH as [IH1 IH2].
      destruct (span pc x) as [a b], (span pc y) as [a' b']. cbn in *.
      split; [f_equal; exact IH1 | exact IH2].
    + split; [reflexivity | constructor; exact H].
Qed.

Lemma header_follows_same x y :
  same_to_marker x y -> header_follows x = header_follows y.
Proof.
  intros H. unfold header_follows.
  destruct (span_same_to_marker is_space x y eq_refl H) as [H1 H2].
  destruct (span is_space x) as [w1 s2], (span is_space y) as [w1' s2'].
  cbn [fst snd] in *.
  destruct (span_same_to_marker is_hash s2 s2' eq_refl H2) as [H3 H4].
  destruct (span is_hash s2) as [h s3], (span is_hash s2') as [h' s3'].
  cbn [fst snd] in *. subst h'.
  destruct (span_same_to_marker is_space s3 s3' eq_refl H4) as [H5 _].
  rewrite H5. reflexivity.
Qed.

Lemma normalize_same_to_marker : forall t p,
  same_to_marker t (normalize_from p t).
Proof.
  induction t as [|c t IH]; intros p.
  - rewrite normalize_from_nil. constructor.
  - rewrite normalize_from_step.
    destruct (header_at p (c :: t)) as [[[[g1 g2] g3] x]|] eqn:Eb.
    + destruct (header_at_inv _ _ _ _ _ _ Eb) as (w1 & w2 & l & _ & Hg1 & _ & Hs & _).
      subst g1. cbn [app] in Hs |- *. inversion Hs; subst. constructor.
    + constructor. apply IH.
Qed.

Lemma prev_after_last p a c : prev_after p (a ++ [c]) = Some c.
Proof. unfold prev_after. rewrite fold_left_app. reflexivity. Qed.

Lemma prev_after_nonempty p p' a : a <> [] -> prev_after p a = prev_after p' a.
Proof.
  intros H. destruct (exists_last H) as (a' & c & ->).
  rewrite !prev_after_last. reflexivity.
Qed.

Lemma normalize_from_idempotent : forall n s p,
  length s <= n ->
  normalize_from p (normalize_from p s) = normalize_from p s.
Proof.
  induction n as [|n IH]; intros s p Hlen.
  - destruct s; [|cbn in Hlen; lia].
    rewrite !normalize_from_nil. reflexivity.
  - rewrite (normalize_from_step p s).
    destruct (header_at p s) as [[[[g1 g2] g3] x]|] eqn:Eb.
    + destruct (header_at_inv _ _ _ _ _ _ Eb)
        as (w1 & w2 & l & Hp & Hg1 & Hg3 & Hs & Hparts).
      destruct Hparts as (Hw1 & Hh & Hhl & Hne & Hw2 & Hl & Hlx & Hx).
      set (p' := prev_after p (g1 ++ g2 ++ g3)).
      assert (Hparts' : header_parts w1 (u "###") w2 l (normalize_from p' x)).
      { unfold header_parts. repeat split; try assumption; try (cbn; lia).
        - destruct l as [|y l']; [|exact Hlx].
          cbn [app] in Hlx |- *. destruct x as [|y x']; [|subst y; discriminate Hlx].
          rewrite normalize_from_nil. exact I.
        - destruct x as [|y x'].
          + rewrite normalize_from_nil. exact I.
          + subst y. rewrite normalize_from_nl. reflexivity. }
      pose proof (header_at_intro p w1 (u "###") w2 l _ Hp Hparts') as Hb.
      rewrite <- Hg1, <- Hg3 in Hb.
      replace (g1 ++ u "###" ++ g3 ++ normalize_from p' x)
        with (g1 ++ u "###" ++ g3 ++ normalize_from p' x) by reflexivity.
      rewrite (normalize_from_step p (g1 ++ u "###" ++ g3 ++ normalize_from p' x)).
      rewrite Hb.
      replace (prev_after p (g1 ++ u "###" ++ g3)) with p'.
      * rewrite IH; [reflexivity|].
        rewrite Hs in Hlen. rewrite !length_app in Hlen.
        subst g1. cbn in Hlen. lia.
      * unfold p'. rewrite !app_assoc. rewrite !prev_after_app.
        apply prev_after_nonempty. subst g3. destruct w2; [congruence | discriminate].
    + destruct s as [|c t]; [apply normalize_from_nil|].
      rewrite (normalize_from_step p (c :: normalize_from (Some c) t)).
      replace (header_at p (c :: normalize_from (Some c) t))
        with (@None (str * str * str * str)).
      * f_equal. apply IH. cbn in Hlen. lia.
      * symmetry. apply header_at_none. apply header_at_none in Eb.
        rewrite <- (header_follows_same t _ (normalize_same_to_marker t (Some c))).
        exact Eb.
Qed.

End BlockquotedHeaders.

(** ** Texts without any pattern *)

Section Identity.

Lemma splitlines_aux_nonempty : forall t cur,
  t <> [] \/ cur <> [] -> splitlines_aux cur t <> [].
Proof.
  induction t as [|c t IH]; intros cur H.
  - destruct H as [H|H]; [congruence|]. cbn. destruct cur; [congruence|discriminate].
  - cbn [splitlines_aux]. destruct (is_linebreak c); [discriminate|].
    apply IH. right. discriminate.
Qed.

Lemma join_cons sep p ps :
  ps <> [] -> join sep (p :: ps) = p ++ sep ++ join sep ps.
Proof. destruct ps; [congruence | reflexivity]. Qed.

Lemma nl_is_linebreak c : ceqb c nl = true -> is_linebreak c = true.
Proof. intros H. apply ceqb_eq in H. subst. reflexivity. Qed.

(** Joining the lines of such a text gives the text back. *)
Lemma join_splitlines_aux : forall t cur,
  plain_lines t = true ->
  join [nl] (splitlines_aux cur t) = rev cur ++ t.
Proof.
  induction t as [|c t IH]; intros cur H.
  - cbn. destruct cur; [reflexivity|]. cbn [join]. rewrite app_nil_r. reflexivity.
  - cbn [plain_lines] in H. cbn [splitlines_aux]. destruct t as [|d t'].
    + apply negb_true_iff in H. rewrite H. cbn [splitlines_aux join rev].
      reflexivity.
    + apply andb_prop in H as [Hc Ht].
      destruct (is_linebreak c) eqn:Ec.
      * cbn [negb orb] in Hc. apply ceqb_eq in Hc. subst c.
        change (ceqb nl 13%N) with false. cbn [andb].
        rewrite join_cons by (apply splitlines_aux_nonempty; left; discriminate).
        rewrite (IH [] Ht). reflexivity.
      * rewrite (IH (c :: cur) Ht). cbn [rev]. rewrite <- app_assoc. reflexivity.
Qed.

Lemma join_splitlines t :
  plain_lines t = true -> join [nl] (splitlines t) = t.
Proof. apply (join_splitlines_aux t []). Qed.

Lemma adjust_line_unrecognized line :
  line_recognized line = false -> adjust_line line = line.
Proof.
  unfold line_recognized, adjust_line. intros H.
  apply orb_false_elim in H as [H H4].
  apply orb_false_elim in H as [H H3].
  apply orb_false_elim in H as [H1 H2].
  destruct (re_match NOFLAGS example_header_pattern line); [discriminate|].
  rewrite H2.
  destruct (re_match NOFLAGS chapter_header_pattern (strip line)); [discriminate|].
  destruct (re_match NOFLAGS general_header_pattern line); [discriminate|].
  reflexivity.
Qed.

Lemma adjust_headers_unrecognized text :
  existsb line_recognized (splitlines text) = false ->
  adjust_headers text = join [nl] (splitlines text).
Proof.
  unfold adjust_headers. intros H. f_equal.
  induction (splitlines text) as [|line ls IH]; [reflexivity|].
  cbn in H |- *. apply orb_false_elim in H as [H1 H2].
  rewrite (adjust_line_unrecognized line H1), (IH H2). reflexivity.
Qed.

Lemma replace_absent old new s :
  existsb (fun c => ceqb c old) s = false -> replace old new s = s.
Proof.
  unfold replace. induction s as [|c t IH]; [reflexivity|].
  cbn. intros H. apply orb_false_elim in H as [H1 H2].
  rewrite H1. cbn. rewrite (IH H2). reflexivity.
Qed.

Lemma existsb_weaken {A} (f g : A -> bool) l :
  (forall x, g x = true -> f x = true) ->
  existsb f l = false -> existsb g l = false.
Proof.
  intros Hfg. induction l as [|x l IH]; [reflexivity|].
  cbn. intros H. apply orb_false_elim in H as [H1 H2].
  rewrite (IH H2), orb_false_r.
  destruct (g x) eqn:E; [|reflexivity]. rewrite (Hfg x E) in H1. discriminate.
Qed.

Lemma convert_smart_quotes_absent text :
  existsb is_smart_quote text = false -> convert_smart_quotes text = text.
Proof.
  intros H. unfold convert_smart_quotes.
  rewrite (replace_absent ldquo), (replace_absent rdquo),
          (replace_absent lsquo), (replace_absent rsquo); try reflexivity;
  apply (existsb_weaken is_smart_quote); try exact H;
  intros x Hx; unfold is_smart_quote; rewrite Hx;
  rewrite ?orb_true_r; reflexivity.
Qed.

Lemma convert_tables_no_occurrence e text :
  occurs IGNORECASE_DOTALL table_pattern text = false ->
  convert_tables_to_markdown e text = (text, []).
Proof.
  intros H. unfold convert_tables_to_markdown.
  rewrite scan_no_occurrence by exact H.
  rewrite sub_fold_keep. reflexivity.
Qed.

Lemma apply_unrecognized e folder tr text :
  recognized folder tr text = false ->
  apply_transform e folder tr text =
  match tr with
  | AdjustHeaders => join [nl] (splitlines text)
  | _ => text
  end.
Proof.
  intros H. destruct tr; cbn [recognized apply_transform] in *.
  - apply orb_false_elim in H as [H1 H2]. unfold remove_unwanted_spans.
    rewrite (sub_no_occurrence _ _ _ _ H1). apply sub_no_occurrence; exact H2.
  - apply convert_smart_quotes_absent; exact H.
  - apply sub_no_occurrence; exact H.
  - apply sub_with_no_occurrence; exact H.
  - apply sub_no_occurrence; exact H.
  - apply adjust_headers_unrecognized; exact H.
  - apply sub_no_occurrence; exact H.
  - apply sub_with_no_occurrence; exact H.
  - apply sub_no_occurrence; exact H.
  - apply sub_no_occurrence; exact H.
  - apply sub_no_occurrence; exact H.
  - rewrite convert_tables_no_occurrence by exact H. reflexivity.
  - apply sub_no_occurrence; exact H.
Qed.

Lemma pipeline_pattern_free e folder text :
  pattern_free text = true -> plain_lines text = true ->
  pipeline e folder text = (text, []).
Proof.
  unfold pattern_free, pipeline_passes. cbn [forallb].
  intros H Hp.
  repeat match type of H with
  | (_ && _) = true => let H1 := fresh "R" in apply andb_prop in H as [H1 H];
                       apply negb_true_iff in H1
  end.
  unfold pipeline.
  pose proof (apply_unrecognized e default_media_folder ConvertSmartQuotes text R) as A0.
  pose proof (apply_unrecognized e default_media_folder FixFootnoteDefinitions text R0) as A1.
  pose proof (apply_unrecognized e default_media_folder ConvertH6ToBlockquote text R1) as A2.
  pose proof (apply_unrecognized e default_media_folder AdjustHeaders text R2) as A3.
  pose proof (apply_unrecognized e default_media_folder RemoveUnwantedSpans text R3) as A4.
  pose proof (apply_unrecognized e default_media_folder ConvertSuperscriptFootnotes text R4) as A5.
  pose proof (apply_unrecognized e default_media_folder ProcessHtmlFigures text R5) as A6.
  pose proof (apply_unrecognized e default_media_folder ConvertInternalLinksToText text R6) as A7.
  pose proof (apply_unrecognized e default_media_folder NormalizeBlockquotedHeaders text R7) as A8.
  pose proof (apply_unrecognized e default_media_folder ConvertSpecificImgTagsToNumberedText text R8) as A9.
  pose proof (apply_unrecognized e default_media_folder RemoveReferenceTags text R10) as A11.
  cbn [apply_transform] in *. cbn [recognized] in R9.
  rewrite A0, A1, A2, A3, (join_splitlines text Hp), A4, A5, A6, A7, A8, A9.
  rewrite (convert_tables_no_occurrence e text R9), A11. reflexivity.
Qed.

End Identity.

(** ** convert_smart_quotes, and the table converter when pandoc fails *)

Lemma replace_one old new s :
  replace old [new] s = map (fun c => if ceqb c old then new else c) s.
Proof.
  unfold replace. induction s as [|c t IH]; [reflexivity|].
  cbn [flat_map map]. rewrite IH. destruct (ceqb c old); reflexivity.
Qed.

Lemma convert_smart_quotes_map t :
  convert_smart_quotes t = map straighten t.
Proof.
  unfold convert_smart_quotes. change (u "'") with [39%N].
  rewrite !replace_one, !map_map. apply map_ext. intros c.
  unfold straighten, ldquo, rdquo, lsquo, rsquo, dq, ceqb.
  destruct (N.eqb_spec c 8220); [subst; reflexivity|].
  destruct (N.eqb_spec c 8221); [subst; reflexivity|].
  destruct (N.eqb_spec c 8216); [subst; reflexivity|].
  cbn [orb].
  destruct (N.eqb_spec 34 8221); [lia|].
  destruct (N.eqb_spec c 8217); subst; reflexivity.
Qed.

Lemma straighten_not_smart c : is_smart_quote (straighten c) = false.
Proof.
  unfold straighten, is_smart_quote, ldquo, rdquo, lsquo, rsquo, dq, ceqb.
  destruct (N.eqb_spec c 8220); [reflexivity|].
  destruct (N.eqb_spec c 8221); [reflexivity|].
  destruct (N.eqb_spec c 8216); [reflexivity|].
  destruct (N.eqb_spec c 8217); [reflexivity|]. cbn [orb].
  destruct (N.eqb_spec c 8220), (N.eqb_spec c 8221), (N.eqb_spec c 8216),
           (N.eqb_spec c 8217); try contradiction. reflexivity.
Qed.

Lemma str_eqb_refl a : str_eqb a a = true.
Proof.
  induction a as [|c a IH]; [reflexivity|].
  cbn. unfold ceqb. rewrite N.eqb_refl. exact IH.
Qed.

Lemma str_eqb_eq a : forall b, str_eqb a b = true -> a = b.
Proof.
  induction a as [|c a IH]; intros [|d b] H; try discriminate; [reflexivity|].
  cbn in H. apply andb_prop in H as [H1 H2].
  apply ceqb_eq in H1. subst. f_equal. apply IH. exact H2.
Qed.

Section ScanWhole.
Variable fl : flags.
Variable r : regex.

Lemma match_at_whole adv p s h :
  match_at fl r adv p s = Some h ->
  whole h = firstn (length (whole h)) s /\ length (whole h) <= length s.
Proof.
  unfold match_at. destruct (m fl r _ _) as [st|]; [|discriminate].
  intros H. inversion H; subst h; clear H. cbn [whole].
  rewrite length_firstn.
  replace (Nat.min (length s - length (rest st)) (length s))
    with (length s - length (rest st)) by lia.
  split; [reflexivity | lia].
Qed.

Lemma search_here_whole p s hs k :
  search_here fl r p s = (hs, k) ->
  flat_map whole hs = firstn k s /\ k <= length s
  /\ Forall (fun h => whole h = firstn (length (whole h)) s) hs.
Proof.
  unfold search_here.
  destruct (match_at fl r false p s) as [h|] eqn:E.
  - destruct (match_at_whole _ _ _ _ E) as [Hw Hl].
    destruct (length (whole h)) as [|n] eqn:El.
    + destruct (match_at fl r true p s) as [h'|] eqn:E'.
      * destruct (match_at_whole _ _ _ _ E') as [Hw' Hl'].
        intros H; inversion H; subst hs k; clear H.
        assert (E0 : whole h = []) by (destruct (whole h); [reflexivity | discriminate]).
        cbn [flat_map]. rewrite E0, app_nil_r. cbn [app].
        split; [exact Hw'|]. split; [exact Hl'|].
        constructor; [rewrite E0; reflexivity|].
        constructor; [exact Hw' | constructor].
      * intros H; inversion H; subst hs k; clear H.
        assert (E0 : whole h = []) by (destruct (whole h); [reflexivity | discriminate]).
        cbn [flat_map]. rewrite E0. cbn.
        split; [reflexivity|]. split; [lia|].
        constructor; [rewrite E0; reflexivity | constructor].
    + intros H; inversion H; subst hs k; clear H.
      cbn [flat_map]. rewrite app_nil_r.
      split; [exact Hw|]. split; [exact Hl|].
      constructor; [rewrite El; exact Hw | constructor].
  - intros H; inversion H; subst hs k; clear H.
    cbn. split; [reflexivity|]. split; [lia | constructor].
Qed.

Lemma render_app repl a b :
  render repl (a ++ b) = render repl a ++ render repl b.
Proof. unfold render. apply flat_map_app. Qed.

Lemma render_found repl hs :
  render repl (map Found hs) = flat_map repl hs.
Proof.
  induction hs as [|h hs IH]; [reflexivity|].
  unfold render in *. cbn [map flat_map]. rewrite IH. reflexivity.
Qed.

(** Replacing every match by itself gives the text back. *)
Lemma scan_render_whole : forall s p n,
  n <= length s -> render whole (scan fl r p n s) = skipn n s.
Proof.
  induction s as [|c t IH]; intros p n Hn.
  - destruct n; [|cbn in Hn; lia]. cbn [scan skipn].
    destruct (search_here fl r p []) as [hs k] eqn:E.
    destruct (search_here_whole _ _ _ _ E) as (_ & _ & Hall).
    cbn [fst]. destruct hs as [|h hs]; [reflexivity|].
    cbn [firstn map]. unfold render. cbn [flat_map].
    inversion Hall; subst. rewrite H1. rewrite firstn_nil. reflexivity.
  - cbn [scan]. destruct n as [|n].
    + destruct (search_here fl r p (c :: t)) as [hs k] eqn:E.
      destruct (search_here_whole _ _ _ _ E) as (Hw & Hk & _).
      rewrite render_app, render_found, Hw. cbn [skipn].
      destruct k as [|k].
      * unfold render. cbn [firstn flat_map app]. f_equal.
        apply (IH (Some c) 0). lia.
      * cbn [firstn]. rewrite (IH (Some c) k) by (cbn in Hk; lia).
        cbn [app]. f_equal. apply firstn_skipn.
    + cbn [skipn]. apply IH. cbn in Hn. lia.
Qed.

Lemma scan_hits_inside (P : str -> Prop) :
  (forall a w b, P (a ++ w ++ b) -> P w) ->
  forall s p n, P s -> Forall (on_hits P) (scan fl r p n s).
Proof.
  intros Hsub.
  assert (Hpre : forall s k, P s -> P (firstn k s)).
  { intros s k H. apply (Hsub [] (firstn k s) (skipn k s)).
    cbn [app]. rewrite firstn_skipn. exact H. }
  assert (Hhs : forall p s hs k, P s -> search_here fl r p s = (hs, k) ->
                Forall (on_hits P) (map Found hs)).
  { intros p s hs k H E. destruct (search_here_whole _ _ _ _ E) as (_ & _ & Hall).
    clear E. induction Hall as [|h hs Hh Hall IHh]; [constructor|].
    cbn [map]. constructor; [|exact IHh].
    cbn [on_hits]. rewrite Hh. apply Hpre. exact H. }
  induction s as [|c t IH]; intros p n H.
  - cbn [scan]. destruct n; [|constructor].
    destruct (search_here fl r p []) as [hs k] eqn:E. cbn [fst].
    pose proof (Hhs p [] hs k H E) as Hall.
    destruct hs as [|h hs]; [constructor|].
    cbn [firstn map] in *. inversion Hall; subst. repeat constructor. assumption.
  - assert (Ht : P t) by (apply (Hsub [c] t []); cbn [app]; rewrite app_nil_r; exact H).
    cbn [scan]. destruct n as [|n]; [|apply IH; exact Ht].
    destruct (search_here fl r p (c :: t)) as [hs k] eqn:E.
    apply Forall_app. split; [exact (Hhs p (c :: t) hs k H E)|].
    destruct k; [constructor; [exact I|]|]; apply IH; exact Ht.
Qed.

End ScanWhole.

Section Contains.

Lemma lit_prefix_app fl l : forall w b,
  lit_prefix fl l w = true -> lit_prefix fl l (w ++ b) = true.
Proof.
  induction l as [|x l IH]; intros w b H; [reflexivity|].
  destruct w as [|c w]; [discriminate|]. cbn in H |- *.
  apply andb_prop in H as [H1 H2]. rewrite H1, (IH w b H2). reflexivity.
Qed.

Lemma contains_nil_r needle : forall a,
  contains needle a = false -> lit_prefix NOFLAGS needle a = false.
Proof.
  intros a H. destruct a; cbn [contains] in H;
    apply orb_false_elim in H as [H _]; exact H.
Qed.

Lemma contains_suffix needle : forall a x,
  contains needle (a ++ x) = false -> contains needle x = false.
Proof.
  induction a as [|c a IH]; intros x H; [exact H|].
  cbn [app contains] in H. apply orb_false_elim in H as [_ H]. apply IH. exact H.
Qed.

Lemma contains_prefix needle : forall w b,
  contains needle (w ++ b) = false -> contains needle w = false.
Proof.
  induction w as [|c w IH]; intros b H.
  - cbn [app] in H. cbn [contains]. rewrite orb_false_r.
    destruct (lit_prefix NOFLAGS needle []) eqn:E; [|reflexivity].
    apply (lit_prefix_app NOFLAGS needle [] b) in E. cbn [app] in E.
    apply contains_nil_r in H. congruence.
  - cbn [app contains] in H |- *. apply orb_false_elim in H as [H1 H2].
    rewrite (IH b H2), orb_false_r.
    destruct (lit_prefix NOFLAGS needle (c :: w)) eqn:E; [|reflexivity].
    apply (lit_prefix_app NOFLAGS needle (c :: w) b) in E. cbn [app] in E. congruence.
Qed.

Lemma contains_inside needle a w b :
  contains needle (a ++ w ++ b) = false -> contains needle w = false.
Proof.
  intros H. apply contains_suffix in H. apply contains_prefix in H. exact H.
Qed.

Lemma lit_prefix_caseless fl l : ignorecase fl = false ->
  forall s, lit_prefix fl l s = lit_prefix NOFLAGS l s.
Proof.
  intros Hfl. induction l as [|x l IH]; intros s; [reflexivity|].
  destruct s as [|c s]; [reflexivity|]. cbn [lit_prefix].
  rewrite IH. unfold lit_match. rewrite Hfl. reflexivity.
Qed.

(** A pattern that starts with a literal occurs nowhere in a text that
    does not hold the literal. *)
Lemma occurs_from_lit fl l rs : ignorecase fl = false ->
  forall s p, contains l s = false ->
  occurs_from fl (cat (lit l :: rs)) p s = false.
Proof.
  intros Hfl.
  assert (Hm : forall s p, contains l s = false ->
               match_at fl (cat (lit l :: rs)) false p s = None).
  { intros s p H. unfold match_at. rewrite m_cat_cons, m_lit_prefix.
    rewrite (lit_prefix_caseless fl l Hfl), (contains_nil_r l s H). reflexivity. }
  induction s as [|c t IH]; intros p H; cbn [occurs_from]; rewrite (Hm _ p H).
  - reflexivity.
  - apply IH. apply (contains_suffix l [c] t). exact H.
Qed.

End Contains.

Section Tables.

Lemma paragraphs_absent s :
  contains (u "<p>") s = false -> sub DOTALL paragraph_pattern [G 1] s = s.
Proof.
  intros H. apply sub_no_occurrence. unfold occurs, paragraph_pattern.
  apply occurs_from_lit; [reflexivity | exact H].
Qed.

Lemma convert_html_snippet_failed e s f t :
  (forall cmd input, failed (subprocess_run e cmd input) = true) ->
  fst (convert_html_snippet_to_markdown e s f t)
  = sub DOTALL paragraph_pattern [G 1] s
  /\ snd (convert_html_snippet_to_markdown e s f t) <> []
  /\ forallb is_stderr (snd (convert_html_snippet_to_markdown e s f t)) = true.
Proof.
  intros H. unfold convert_html_snippet_to_markdown.
  destruct (path_exists e (LUA_TABLE_FLATTENER_FILTER e));
  match goal with |- context [subprocess_run e ?c ?i] =>
    specialize (H c i); destruct (subprocess_run e c i) as [rc out err| |ex]
  end;
  cbn [failed] in H; try (destruct (rc =? 0)%Z; [discriminate H|]);
  cbn [fst snd app forallb is_stderr andb];
  (split; [reflexivity|]; split; [discriminate | reflexivity]).
Qed.

Lemma sub_fold_tables_failed e :
  (forall cmd input, failed (subprocess_run e cmd input) = true) ->
  forall segs w,
  Forall (on_hits (fun x => contains (u "<p>") x = false)) segs ->
  fst (sub_fold (replace_with_markdown_table e) segs w) = render whole segs.
Proof.
  intros He. induction segs as [|sg segs IH]; intros w Hall; [reflexivity|].
  inversion Hall as [|? ? Hsg Hrest]; subst.
  destruct sg as [c|h]; cbn [sub_fold].
  - specialize (IH w Hrest).
    destruct (sub_fold (replace_with_markdown_table e) segs w) as [out w'].
    cbn [fst] in *. rewrite IH. reflexivity.
  - cbn [on_hits] in Hsg. destruct w as [log cnt].
    unfold replace_with_markdown_table at 1.
    destruct (convert_html_snippet_failed e (whole h) (u "html") (u "gfm") He)
      as (Hf & _ & _).
    destruct (convert_html_snippet_to_markdown e (whole h) (u "html") (u "gfm"))
      as [md log'].
    cbn [fst] in Hf. rewrite (paragraphs_absent _ Hsg) in Hf. subst md.
    match goal with |- context [sub_fold _ segs ?w1] => specialize (IH w1 Hrest);
      destruct (sub_fold (replace_with_markdown_table e) segs w1) as [out w2] end.
    cbn [fst] in *. rewrite IH. reflexivity.
Qed.

End Tables.

(** ** Nested reference tags and blockquoted headers *)

Section ReferenceTagsMore.

Lemma tag_at_not_brace c t : ceqb c 123%N = false -> tag_at (c :: t) = None.
Proof.
  intros H. unfold tag_at. destruct t as [|c2 s1]; [reflexivity|].
  rewrite H. reflexivity.
Qed.

Lemma remove_reference_tags_no_brace : forall s,
  forallb (fun c => negb (ceqb c 123%N)) s = true ->
  remove_reference_tags s = s.
Proof.
  induction s as [|c t IH]; intros H; rewrite remove_reference_tags_step.
  - reflexivity.
  - cbn in H. apply andb_prop in H as [Hc Ht]. apply negb_true_iff in Hc.
    rewrite (tag_at_not_brace c t Hc), (IH Ht). reflexivity.
Qed.

Lemma is_word_not_brace c : is_word c = true -> ceqb c 123%N = false.
Proof. intros H. apply (class_neq is_word c 123%N H). reflexivity. Qed.

Lemma remove_reference_tags_skip_word : forall a s,
  forallb is_word a = true ->
  remove_reference_tags (a ++ s) = a ++ remove_reference_tags s.
Proof.
  induction a as [|c a IH]; intros s H; [reflexivity|].
  cbn in H. apply andb_prop in H as [Hc Ha].
  cbn [app]. rewrite remove_reference_tags_step.
  rewrite (tag_at_not_brace c _ (is_word_not_brace c Hc)), (IH s Ha).
  reflexivity.
Qed.

End ReferenceTagsMore.

Section BlockquotedHeadersMore.

Lemma normalize_from_line_start p x :
  match x with [] => True | c :: _ => c = nl end ->
  normalize_from p x = normalize_blockquoted_headers x.
Proof.
  intros H. destruct x as [|c x'].
  - rewrite normalize_from_start, !normalize_from_nil. reflexivity.
  - subst c. rewrite normalize_from_start, !normalize_from_nl. reflexivity.
Qed.

End BlockquotedHeadersMore.

(** ** Lines and [strip] *)

Section Lines.

Lemma splitlines_aux_one_line : forall line cur,
  one_line line = true ->
  splitlines_aux cur line =
  match rev cur ++ line with [] => [] | _ => [rev cur ++ line] end.
Proof.
  induction line as [|c t IH]; intros cur H.
  - cbn [splitlines_aux]. rewrite app_nil_r. destruct cur as [|x cur]; [reflexivity|].
    destruct (rev (x :: cur)) eqn:E; [|reflexivity].
    apply (f_equal (@length _)) in E. rewrite length_rev in E. discriminate.
  - cbn in H. apply andb_prop in H as [Hc Ht]. apply negb_true_iff in Hc.
    cbn [splitlines_aux]. rewrite Hc, (IH (c :: cur) Ht). cbn [rev].
    rewrite <- app_assoc. reflexivity.
Qed.

Lemma splitlines_one_line line :
  one_line line = true ->
  splitlines line = match line with [] => [] | _ => [line] end.
Proof. intros H. apply (splitlines_aux_one_line line [] H). Qed.

Lemma splitlines_aux_line : forall line cur rest,
  one_line line = true ->
  splitlines_aux cur (line ++ nl :: rest) = (rev cur ++ line) :: splitlines rest.
Proof.
  induction line as [|c t IH]; intros cur rest H.
  - cbn [app splitlines_aux]. change (is_linebreak nl) with true. cbv iota.
    rewrite app_nil_r. f_equal. destruct rest as [|d t']; reflexivity.
  - cbn in H. apply andb_prop in H as [Hc Ht]. apply negb_true_iff in Hc.
    cbn [app splitlines_aux]. rewrite Hc, (IH (c :: cur) rest Ht). cbn [rev].
    rewrite <- app_assoc. reflexivity.
Qed.

Lemma splitlines_line line rest :
  one_line line = true ->
  splitlines (line ++ nl :: rest) = line :: splitlines rest.
Proof. intros H. apply (splitlines_aux_line line [] rest H). Qed.

Lemma adjust_line_nil : adjust_line [] = [].
Proof. reflexivity. Qed.

Lemma adjust_headers_one_line line :
  one_line line = true -> adjust_headers line = adjust_line line.
Proof.
  intros H. unfold adjust_headers. rewrite (splitlines_one_line line H).
  destruct line; reflexivity.
Qed.

Lemma adjust_headers_line line rest :
  one_line line = true ->
  adjust_headers (line ++ nl :: rest) =
  match rest with
  | [] => adjust_headers line
  | _ :: _ => adjust_headers line ++ nl :: adjust_headers rest
  end.
Proof.
  intros H. rewrite (adjust_headers_one_line line H).
  unfold adjust_headers. rewrite (splitlines_line line rest H). cbn [map].
  destruct rest as [|d t]; [reflexivity|].
  rewrite join_cons; [reflexivity|].
  intros E. apply map_eq_nil in E. revert E.
  apply splitlines_aux_nonempty. left. discriminate.
Qed.

End Lines.

Section Strip.

Lemma lstrip_app_keep : forall a b,
  b <> [] -> starts_without_space b -> lstrip (a ++ b) = lstrip a ++ b.
Proof.
  induction a as [|c a IH]; intros b Hne Hb.
  - cbn [app lstrip]. destruct b as [|x b]; [congruence|].
    cbn in Hb |- *. rewrite Hb. reflexivity.
  - cbn [app lstrip]. destruct (is_space c); [apply IH; assumption | reflexivity].
Qed.

Lemma lstrip_spaces : forall a, forallb is_space a = true -> lstrip a = [].
Proof.
  induction a as [|c a IH]; intros H; [reflexivity|].
  cbn in H |- *. apply andb_prop in H as [Hc Ha]. rewrite Hc. apply IH. exact Ha.
Qed.

Lemma lstrip_keep b : starts_without_space b -> lstrip b = b.
Proof.
  destruct b as [|x b]; [reflexivity|]. cbn. intros H. rewrite H. reflexivity.
Qed.

(** [rstrip] keeps a prefix that ends with a character other than white
    space. *)
Lemma rstrip_app_keep b x t :
  is_space x = false -> rstrip ((b ++ [x]) ++ t) = (b ++ [x]) ++ rstrip t.
Proof.
  intros Hx. unfold rstrip. rewrite rev_app_distr.
  rewrite lstrip_app_keep.
  - rewrite rev_app_distr, rev_involutive. reflexivity.
  - rewrite rev_app_distr. discriminate.
  - rewrite rev_app_distr. cbn. exact Hx.
Qed.

Lemma rstrip_spaces a : forallb is_space a = true -> rstrip a = [].
Proof.
  intros H. unfold rstrip. rewrite lstrip_spaces; [reflexivity|].
  rewrite forallb_forall in *. intros x Hx. apply H. apply in_rev. exact Hx.
Qed.

Lemma lstrip_forallb (P : char -> bool) : forall s,
  forallb P s = true -> forallb P (lstrip s) = true.
Proof.
  induction s as [|c s IH]; intros H; [reflexivity|].
  cbn [lstrip]. destruct (is_space c); [|exact H].
  cbn in H. apply andb_prop in H as [_ H]. apply IH. exact H.
Qed.

Lemma forallb_rev {A} (P : A -> bool) s :
  forallb P s = true -> forallb P (rev s) = true.
Proof.
  rewrite !forallb_forall. intros H x Hx. apply H. apply in_rev. exact Hx.
Qed.

Lemma rstrip_forallb (P : char -> bool) s :
  forallb P s = true -> forallb P (rstrip s) = true.
Proof.
  intros H. unfold rstrip. apply forallb_rev, lstrip_forallb, forallb_rev, H.
Qed.

End Strip.

(** ** The rules of adjust_headers *)

Section HeaderRules.

Lemma hash_class_plain c : cc_match NOFLAGS (CLit 35%N) c = is_hash c.
Proof. reflexivity. Qed.

Lemma dot_class_plain c : cc_match NOFLAGS CDot c = not_nl c.
Proof. reflexivity. Qed.

Lemma lit_prefix_first fl x l c s :
  lit_match fl x c = false -> lit_prefix fl (x :: l) (c :: s) = false.
Proof. intros H. cbn. rewrite H. reflexivity. Qed.

Lemma not_first_is c s : first_is c s = false ->
  match s with [] => True | x :: _ => ceqb x c = false end.
Proof. destruct s; [intros; exact I | exact (fun H => H)]. Qed.

(** A literal that starts with [x] is not read from a text that starts
    with another character or is empty. *)
Lemma m_lit_first x l k p s cs :
  first_is x s = false -> m NOFLAGS (lit (x :: l)) k (MState p s cs) = None.
Proof.
  intros H. rewrite m_lit_prefix. destruct s as [|c s]; [reflexivity|].
  cbn in H. cbn [lit_prefix lit_match ignorecase NOFLAGS]. rewrite H. reflexivity.
Qed.

Lemma first_is_space x c s :
  is_space x = false -> is_space c = true -> first_is x (c :: s) = false.
Proof.
  intros Hx Hc. cbn. apply (class_neq is_space c x Hc Hx).
Qed.

Lemma example_prefix_none line :
  lit_prefix NOFLAGS (u "#####") line = false ->
  re_match NOFLAGS example_header_pattern line = None.
Proof.
  intros H. unfold re_match, match_at, example_header_pattern.
  rewrite m_cat_cons. cbn [m at_bol prev]. cbv iota.
  rewrite m_cat_cons, m_grp, m_cat_cons, m_lit_prefix, H. reflexivity.
Qed.

Lemma example_title_none sp title :
  forallb is_space sp = true -> starts_without_space title ->
  first_is 69%N title = false ->
  re_match NOFLAGS example_header_pattern (u "#####" ++ sp ++ title) = None.
Proof.
  intros Hsp Ht HE. unfold re_match, match_at, example_header_pattern.
  rewrite m_cat_cons. cbn [m at_bol prev]. cbv iota.
  rewrite m_cat_cons, m_grp, m_cat_cons, m_lit_self.
  rewrite m_cat_cons. unfold star, Re.ws. rewrite m_rep_greedy.
  rewrite (greedy_commit (cc_match NOFLAGS CSpace) 0 None) with (a := sp) (b := title);
    [ | | apply span_exact; [exact Hsp | destruct title; [exact I | exact Ht]]
      | reflexivity ].
  - replace ((0 <=? 0 + length sp) && within None (0 + length sp)) with true
      by reflexivity.
    rewrite m_cat_nil. unfold set_cap. cbn [rest prev caps].
    rewrite m_cat_cons, m_grp, m_cat_cons.
    change (u "Example") with (69%N :: u "xample").
    rewrite (m_lit_first 69%N) by exact HE. reflexivity.
  - intros c t p0 cs0 Hc. cbn [cc_match] in Hc.
    rewrite m_cat_nil. unfold set_cap. cbn [rest prev caps].
    rewrite m_cat_cons, m_grp, m_cat_cons.
    change (u "Example") with (69%N :: u "xample").
    apply (m_lit_first 69%N). apply first_is_space; [reflexivity | exact Hc].
Qed.

Lemma chapter_none sp title :
  forallb is_space sp = true -> starts_without_space title ->
  first_is 67%N title = false ->
  re_match NOFLAGS chapter_header_pattern (35%N :: sp ++ title) = None.
Proof.
  intros Hsp Ht HC. unfold re_match, match_at, chapter_header_pattern.
  rewrite m_cat_cons. cbn [m at_bol prev]. cbv iota.
  rewrite m_cat_cons. change (35%N :: sp ++ title) with (u "#" ++ sp ++ title).
  rewrite m_lit_self.
  rewrite m_cat_cons. unfold plus, Re.ws. rewrite m_rep_greedy.
  rewrite (greedy_commit (cc_match NOFLAGS CSpace) 1 None) with (a := sp) (b := title);
    [ | | apply span_exact; [exact Hsp | destruct title; [exact I | exact Ht]]
      | reflexivity ].
  - destruct ((1 <=? 0 + length sp) && within None (0 + length sp)); [|reflexivity].
    rewrite m_cat_cons. change (u "Chapter") with (67%N :: u "hapter").
    rewrite (m_lit_first 67%N) by exact HC. reflexivity.
  - intros c t p0 cs0 Hc. cbn [cc_match] in Hc.
    rewrite m_cat_cons. change (u "Chapter") with (67%N :: u "hapter").
    apply (m_lit_first 67%N). apply first_is_space; [reflexivity | exact Hc].
Qed.

Lemma not_chapter_goals sp title :
  forallb is_space sp = true -> starts_without_space title ->
  first_is 67%N title = false ->
  str_eqb (35%N :: sp ++ title) (u "# Chapter Goals") = false.
Proof.
  intros Hsp Ht HC. change (u "# Chapter Goals") with (35%N :: 32%N :: u "Chapter Goals").
  cbn [str_eqb]. change (ceqb 35%N 35%N) with true. cbn [andb].
  destruct sp as [|w [|w2 ws3]]; cbn [app].
  - destruct title as [|x t]; [reflexivity|]. cbn [str_eqb].
    cbn in Ht. rewrite (class_neq (fun c => negb (is_space c)) x 32%N);
      [reflexivity | rewrite Ht; reflexivity | reflexivity].
  - destruct title as [|x t]; cbn [str_eqb].
    + apply andb_false_r.
    + cbn in HC. change (u "Chapter Goals") with (67%N :: u "hapter Goals").
      cbn [str_eqb]. rewrite HC. apply andb_false_r.
  - cbn in Hsp. apply andb_prop in Hsp as [_ Hsp]. apply andb_prop in Hsp as [Hw2 _].
    change (u "Chapter Goals") with (67%N :: u "hapter Goals").
    cbn [str_eqb]. rewrite (class_neq is_space w2 67%N Hw2 eq_refl).
    apply andb_false_r.
Qed.

Lemma eol_plain p cs : at_eol NOFLAGS (MState p [] cs) = true.
Proof. reflexivity. Qed.

Lemma general_header_match h sp title :
  forallb is_hash h = true -> 1 <= length h <= 5 ->
  sp <> [] -> forallb is_space sp = true ->
  starts_without_space title -> forallb not_nl title = true ->
  re_match NOFLAGS general_header_pattern (h ++ sp ++ title) =
  Some (Hit (h ++ sp ++ title) [(2, sp ++ title); (1, h)]).
Proof.
  intros Hh Hlen Hne Hsp Ht Hnl.
  unfold re_match, match_at, general_header_pattern.
  rewrite m_cat_cons. cbn [m at_bol prev]. cbv iota.
  rewrite m_cat_cons, m_grp. unfold times, hash. rewrite m_rep_greedy.
  assert (Hhead : match sp ++ title with [] => True
                  | c :: _ => is_hash c = false end).
  { destruct sp as [|c sp']; [congruence|]. cbn in Hsp |- *.
    apply andb_prop in Hsp as [Hc _].
    destruct (is_hash c) eqn:E; [|reflexivity].
    apply hash_not_space in E. congruence. }
  rewrite (greedy_commit (cc_match NOFLAGS (CLit 35%N)) 1 (Some 5))
    with (a := h) (b := sp ++ title);
    [ | | exact (span_exact is_hash h _ Hh Hhead) | reflexivity ].
  2:{ intros x t p0 cs0 Hx. rewrite hash_class_plain in Hx.
      unfold set_cap. cbn [rest prev caps].
      rewrite m_cat_cons, m_grp, m_cat_cons. unfold plus, Re.ws. rewrite m_rep_greedy.
      apply greedy_stuck; [|lia]. apply hash_not_space. exact Hx. }
  replace ((1 <=? 0 + length h) && within (Some 5) (0 + length h)) with true
    by (symmetry; apply andb_true_intro; split; apply Nat.leb_le; cbn; lia).
  unfold set_cap at 1. cbn [rest prev caps].
  rewrite m_cat_cons, m_grp, m_cat_cons. unfold plus, Re.ws. rewrite m_rep_greedy.
  assert (E3 : span is_space (sp ++ title) = (sp, title))
    by (apply span_exact; [exact Hsp | destruct title; [exact I | exact Ht]]).
  assert (E4 : span not_nl (title ++ []) = (title, []))
    by (apply span_exact; [exact Hnl | exact I]).
  rewrite app_nil_r in E4.
  erewrite (greedy_first (cc_match NOFLAGS CSpace) 1 _ _ (sp ++ title) 0 _ _ sp title E3);
    [ | destruct sp; [congruence | cbn; lia] | ].
  2:{ rewrite m_cat_cons. unfold star, dot. rewrite m_rep_greedy.
      erewrite (greedy_first (cc_match NOFLAGS CDot) 0 _ _ title 0 _ _ title [] E4);
        [reflexivity | lia | ].
      rewrite m_cat_nil. unfold set_cap. cbn [rest prev caps].
      rewrite m_cat_cons. cbn [m]. rewrite eol_plain. rewrite m_cat_nil.
      cbn [andb]. reflexivity. }
  cbn [rest caps length]. rewrite !Nat.sub_0_r.
  rewrite !firstn_all.
  rewrite (firstn_consumed_eq h (sp ++ title)) by reflexivity.
  reflexivity.
Qed.

Lemma general_header_long_none h tl :
  forallb is_hash h = true -> 6 <= length h ->
  re_match NOFLAGS general_header_pattern (h ++ tl) = None.
Proof.
  intros Hh Hlen.
  unfold re_match, match_at, general_header_pattern.
  rewrite m_cat_cons. cbn [m at_bol prev]. cbv iota.
  rewrite m_cat_cons, m_grp. unfold times, hash. rewrite m_rep_greedy.
  destruct (span is_hash tl) as [a b] eqn:Er.
  assert (Es : span is_hash (h ++ tl) = (h ++ a, b)).
  { rewrite (span_app _ _ _ _ Er), app_assoc. apply span_exact.
    - rewrite forallb_app, Hh. exact (span_all _ _ _ _ Er).
    - exact (span_stop_head _ _ _ _ Er). }
  rewrite (greedy_commit (cc_match NOFLAGS (CLit 35%N)) 1 (Some 5))
    with (a := h ++ a) (b := b); [ | | exact Es | reflexivity ].
  - replace (within (Some 5) (0 + length (h ++ a))) with false;
      [rewrite andb_false_r; reflexivity|].
    symmetry. apply Nat.leb_gt. rewrite length_app. lia.
  - intros x t p0 cs0 Hx. rewrite hash_class_plain in Hx.
    unfold set_cap. cbn [rest prev caps].
    rewrite m_cat_cons, m_grp, m_cat_cons. unfold plus, Re.ws. rewrite m_rep_greedy.
    apply greedy_stuck; [|lia]. apply hash_not_space. exact Hx.
Qed.

End HeaderRules.

(** ** Header lines *)

Section HeaderTexts.

Lemma hashes_repeat h : forallb is_hash h = true -> h = repeat 35%N (length h).
Proof.
  induction h as [|c h IH]; intros H; [reflexivity|].
  cbn in H. apply andb_prop in H as [Hc Hh]. apply ceqb_eq in Hc. subst c.
  cbn. f_equal. apply IH. exact Hh.
Qed.

Lemma one_line_app a b : one_line (a ++ b) = one_line a && one_line b.
Proof. apply forallb_app. Qed.

Lemma one_line_hashes h : forallb is_hash h = true -> one_line h = true.
Proof.
  intros H. unfold one_line. rewrite forallb_forall in *. intros x Hx.
  specialize (H x Hx). apply ceqb_eq in H. subst x. reflexivity.
Qed.

Lemma one_line_not_nl s : one_line s = true -> forallb not_nl s = true.
Proof.
  unfold one_line. rewrite !forallb_forall. intros H x Hx. specialize (H x Hx).
  unfold not_nl. destruct (ceqb x nl) eqn:E; [|reflexivity].
  apply ceqb_eq in E. subst x. discriminate H.
Qed.

(** The stripped form of a header line: the hashes, white space, and a
    title that starts as the title of the line does. *)
Lemma strip_header h sp title :
  h <> [] -> forallb is_hash h = true -> forallb is_space sp = true ->
  starts_without_space title ->
  exists sp' title',
    strip (h ++ sp ++ title) = h ++ sp' ++ title'
    /\ forallb is_space sp' = true /\ starts_without_space title'
    /\ forall c, first_is c title = false -> first_is c title' = false.
Proof.
  intros Hne Hh Hsp Ht. unfold strip.
  assert (Hlast : exists h', h = h' ++ [35%N]).
  { destruct (exists_last Hne) as (h' & x & E). exists h'. rewrite E in Hh |- *.
    rewrite forallb_app in Hh. apply andb_prop in Hh as [_ Hx]. cbn in Hx.
    apply andb_prop in Hx as [Hx _]. apply ceqb_eq in Hx. subst x. reflexivity. }
  rewrite lstrip_keep.
  2:{ destruct h as [|c h']; [congruence|]. cbn in Hh |- *.
      apply andb_prop in Hh as [Hc _]. apply hash_not_space. exact Hc. }
  destruct title as [|x t].
  - exists [], []. rewrite app_nil_r. destruct Hlast as (h' & ->).
    rewrite rstrip_app_keep by reflexivity. rewrite (rstrip_spaces sp Hsp).
    repeat split; auto.
  - exists sp, (x :: rstrip t). cbn in Ht.
    replace (h ++ sp ++ x :: t) with (((h ++ sp) ++ [x]) ++ t)
      by (list_norm; reflexivity).
    rewrite rstrip_app_keep by exact Ht. list_norm.
    repeat split; auto.
Qed.

Lemma adjust_line_deepens h sp title :
  forallb is_hash h = true -> 1 <= length h <= 5 ->
  sp <> [] -> forallb is_space sp = true ->
  starts_without_space title -> forallb not_nl title = true ->
  (length h = 1 -> first_is 67%N title = false) ->
  (length h = 5 -> first_is 69%N title = false) ->
  adjust_line (h ++ sp ++ title) = u "#" ++ h ++ sp ++ title.
Proof.
  intros Hh Hlen Hne Hsp Ht Hnl HC HE. unfold adjust_line.
  assert (Hsp1 : exists w sp', sp = w :: sp' /\ is_space w = true).
  { destruct sp as [|w sp']; [congruence|]. exists w, sp'.
    cbn in Hsp. apply andb_prop in Hsp as [Hw _]. auto. }
  replace (re_match NOFLAGS example_header_pattern (h ++ sp ++ title))
    with (@None hit).
  2:{ symmetry. destruct (Nat.eq_dec (length h) 5) as [E5|N5].
      - rewrite (hashes_repeat h Hh), E5.
        apply (example_title_none sp title Hsp Ht (HE E5)).
      - apply example_prefix_none. destruct Hsp1 as (w & sp' & -> & Hw).
        assert (Hw' : ceqb w 35%N = false) by (apply (class_neq is_space w 35%N Hw eq_refl)).
        rewrite (hashes_repeat h Hh).
        destruct (length h) as [|[|[|[|[|[|n]]]]]]; try lia;
          cbn [repeat app lit_prefix lit_match ignorecase NOFLAGS u map
               String.list_ascii_of_string];
          cbn; rewrite Hw'; reflexivity. }
  assert (Hhne : h <> []) by (destruct h; [cbn in Hlen; lia | discriminate]).
  destruct (strip_header h sp title Hhne Hh Hsp Ht)
    as (sp' & title' & Hstrip & Hsp' & Ht' & Hfirst).
  rewrite Hstrip.
  assert (Hshape : exists sp2 title2,
            h ++ sp' ++ title' = 35%N :: sp2 ++ title2
            /\ forallb is_space sp2 = true /\ starts_without_space title2
            /\ first_is 67%N title2 = false).
  { destruct h as [|c [|c2 h2]]; [congruence | |].
    - cbn in Hh. apply andb_prop in Hh as [Hc _]. apply ceqb_eq in Hc. subst c.
      exists sp', title'. repeat split; auto.
    - cbn in Hh. apply andb_prop in Hh as [Hc Hh]. apply ceqb_eq in Hc. subst c.
      apply andb_prop in Hh as [Hc2 _]. apply ceqb_eq in Hc2. subst c2.
      exists [], (35%N :: h2 ++ sp' ++ title'). repeat split; auto. }
  destruct Hshape as (sp2 & title2 & Eshape & Hsp2 & Ht2 & HC2).
  rewrite Eshape.
  rewrite (not_chapter_goals sp2 title2 Hsp2 Ht2 HC2).
  rewrite (chapter_none sp2 title2 Hsp2 Ht2 HC2).
  rewrite (general_header_match h sp title Hh Hlen Hne Hsp Ht Hnl).
  cbn [group groups lookup Nat.eqb]. reflexivity.
Qed.

Lemma adjust_line_level_six tl :
  adjust_line (u "######" ++ tl) = u "######" ++ tl.
Proof.
  unfold adjust_line.
  change (u "######" ++ tl) with (u "#####" ++ [] ++ 35%N :: tl) at 1.
  rewrite (example_title_none [] (35%N :: tl) eq_refl eq_refl eq_refl).
  destruct (strip_header (u "#####") [] (35%N :: tl)) as (sp' & title' & Hs & Hsp' & Ht' & Hf);
    try reflexivity; try discriminate.
  change (u "#####" ++ [] ++ 35%N :: tl) with (u "######" ++ tl) in Hs.
  rewrite Hs.
  change (u "#####" ++ sp' ++ title') with (35%N :: [] ++ u "####" ++ sp' ++ title').
  rewrite not_chapter_goals, chapter_none; try reflexivity.
  rewrite (general_header_long_none (u "######") tl); reflexivity || (cbn; lia).
Qed.

Lemma adjust_line_chapter_goals w1 w2 :
  forallb is_space w1 = true -> forallb is_space w2 = true ->
  adjust_line (w1 ++ u "# Chapter Goals" ++ w2) = u "### Chapter Goals".
Proof.
  intros H1 H2. unfold adjust_line.
  replace (re_match NOFLAGS example_header_pattern (w1 ++ u "# Chapter Goals" ++ w2))
    with (@None hit).
  2:{ symmetry. apply example_prefix_none. destruct w1 as [|c w1']; [reflexivity|].
      cbn in H1. apply andb_prop in H1 as [Hc _].
      cbn [app]. apply lit_prefix_first. cbn.
      apply (class_neq is_space c 35%N Hc eq_refl). }
  replace (strip (w1 ++ u "# Chapter Goals" ++ w2)) with (u "# Chapter Goals");
    [reflexivity|].
  unfold strip. rewrite lstrip_app_keep by (try discriminate; reflexivity).
  rewrite (lstrip_spaces w1 H1). cbn [app].
  change (u "# Chapter Goals" ++ w2) with ((u "# Chapter Goal" ++ [115%N]) ++ w2).
  rewrite rstrip_app_keep by reflexivity.
  rewrite (rstrip_spaces w2 H2). reflexivity.
Qed.

End HeaderTexts.

(** ** Example headers and chapter headers *)

Section ExampleRule.

Lemma digit_class_plain c :
  cc_match NOFLAGS (CSet false [Range 48%N 57%N]) c = is_digit c.
Proof. apply digit_class. Qed.

Lemma first_is_digit x c s :
  is_digit x = false -> is_digit c = true -> first_is x (c :: s) = false.
Proof. intros Hx Hc. cbn. apply (class_neq is_digit c x Hc Hx). Qed.

(** After the first number: a digit cannot follow. *)
Lemma example_after_number_stuck k c t p cs :
  is_digit c = true ->
  m NOFLAGS (cat [opt (cat [lit (u "-"); plus digit]); lit (u "."); star dot]) k
    (MState p (c :: t) cs) = None.
Proof.
  intros Hc. rewrite m_cat_cons, m_opt, m_cat_cons.
  change (u "-") with [45%N].
  rewrite (m_lit_first 45%N) by (apply first_is_digit; [reflexivity | exact Hc]).
  rewrite m_cat_cons. change (u ".") with [46%N].
  apply (m_lit_first 46%N). apply first_is_digit; [reflexivity | exact Hc].
Qed.

Lemma span_pointwise (f g : char -> bool) s :
  (forall c, f c = g c) -> span f s = span g s.
Proof.
  intros H. induction s as [|x l IH]; [reflexivity|].
  cbn [span]. rewrite H, IH. reflexivity.
Qed.

Lemma example_after_number k r p cs range tl :
  is_range range = true -> forallb not_nl tl = true ->
  k (MState (prev_after p (range ++ u "." ++ tl)) [] cs) = Some r ->
  m NOFLAGS (cat [opt (cat [lit (u "-"); plus digit]); lit (u "."); star dot]) k
    (MState p (range ++ u "." ++ tl) cs) = Some r.
Proof.
  intros Hr Hnl Hk.
  assert (E4 : span not_nl tl = (tl, [])).
  { rewrite <- (app_nil_r tl) at 1. apply span_exact; [exact Hnl | exact I]. }
  assert (Htail : forall p0,
    k (MState (prev_after p0 (u "." ++ tl)) [] cs) = Some r ->
    m NOFLAGS (cat [lit (u "."); star dot]) k (MState p0 (u "." ++ tl) cs)
    = Some r).
  { intros p0 Hk0. rewrite m_cat_cons, m_lit_self, m_cat_cons.
    unfold star, dot. rewrite m_rep_greedy.
    erewrite (greedy_first (cc_match NOFLAGS CDot) 0 _ _ tl 0 _ _ tl [] E4);
      [reflexivity | lia | ].
    rewrite m_cat_nil. rewrite prev_after_app in Hk0. exact Hk0. }
  rewrite m_cat_cons, m_opt, m_cat_cons.
  destruct range as [|c d2].
  - cbn [app]. change (u "-") with [45%N].
    rewrite (m_lit_first 45%N) by reflexivity.
    apply Htail. exact Hk.
  - cbn [is_range] in Hr. apply andb_prop in Hr as [Hr Hd2].
    apply andb_prop in Hr as [Hc Hlen]. apply ceqb_eq in Hc. subst c.
    change ((45%N :: d2) ++ u "." ++ tl) with (u "-" ++ d2 ++ u "." ++ tl).
    rewrite m_lit_self. rewrite m_cat_cons. unfold plus, digit.
    rewrite m_rep_greedy.
    assert (E : span is_digit (d2 ++ u "." ++ tl) = (d2, u "." ++ tl))
      by (apply span_exact; [exact Hd2 | reflexivity]).
    rewrite <- (span_pointwise _ is_digit _ digit_class_plain) in E.
    erewrite (greedy_first _ 1 _ _ (d2 ++ u "." ++ tl) 0 _ _ d2 (u "." ++ tl) E);
      [reflexivity | | ].
    + destruct d2; [discriminate Hlen | cbn; lia].
    + rewrite m_cat_nil. cbn [rest].
      replace (length (u "." ++ tl) <? length (u "-" ++ d2 ++ u "." ++ tl)) with true
        by (symmetry; apply Nat.ltb_lt; rewrite !length_app; cbn; lia).
      apply Htail.
      change ((45%N :: d2) ++ u "." ++ tl) with (u "-" ++ d2 ++ u "." ++ tl) in Hk.
      rewrite !prev_after_app in Hk. rewrite ?prev_after_app. exact Hk.
Qed.

Lemma example_header_match sp sp2 d range tl :
  forallb is_space sp = true ->
  sp2 <> [] -> forallb is_space sp2 = true ->
  d <> [] -> forallb is_digit d = true ->
  is_range range = true -> forallb not_nl tl = true ->
  re_match NOFLAGS example_header_pattern
    (u "#####" ++ sp ++ example_title sp2 d range tl) =
  Some (Hit (u "#####" ++ sp ++ example_title sp2 d range tl)
            [(2, example_title sp2 d range tl); (1, u "#####" ++ sp)]).
Proof.
  intros Hsp Hne2 Hsp2 Hned Hd Hr Hnl.
  unfold re_match, match_at, example_header_pattern, example_title.
  rewrite m_cat_cons. cbn [m at_bol prev]. cbv iota.
  rewrite m_cat_cons, m_grp, m_cat_cons, m_lit_self.
  rewrite m_cat_cons. unfold star, ws. rewrite m_rep_greedy.
  rewrite (greedy_commit (cc_match NOFLAGS CSpace) 0 None)
    with (a := sp) (b := u "Example" ++ sp2 ++ d ++ range ++ u "." ++ tl);
    [ | | apply span_exact; [exact Hsp | reflexivity] | reflexivity ].
  2:{ intros c t p0 cs0 Hc. cbn [cc_match] in Hc.
      rewrite m_cat_nil. unfold set_cap. cbn [rest prev caps].
      rewrite m_cat_cons, m_grp, m_cat_cons.
      change (u "Example") with (69%N :: u "xample").
      apply (m_lit_first 69%N). apply first_is_space; [reflexivity | exact Hc]. }
  replace ((0 <=? 0 + length sp) && within None (0 + length sp)) with true
    by reflexivity.
  rewrite m_cat_nil. unfold set_cap at 1. cbn [rest prev caps].
  rewrite m_cat_cons, m_grp, m_cat_cons, m_lit_self.
  rewrite m_cat_cons. unfold plus, ws. rewrite m_rep_greedy.
  assert (Hd1 : exists x d', d = x :: d' /\ is_digit x = true).
  { destruct d as [|x d']; [congruence|]. exists x, d'.
    cbn in Hd. apply andb_prop in Hd as [Hx _]. auto. }
  rewrite (greedy_commit (cc_match NOFLAGS CSpace) 1 None)
    with (a := sp2) (b := d ++ range ++ u "." ++ tl);
    [ | | apply span_exact; [exact Hsp2|] | reflexivity ].
  3:{ destruct Hd1 as (x & d' & -> & Hx). cbn [app]. apply digit_not_space. exact Hx. }
  2:{ intros c t p0 cs0 Hc. cbn [cc_match] in Hc.
      rewrite m_cat_cons. unfold digit. rewrite m_rep_greedy.
      apply greedy_stuck; [|lia]. rewrite digit_class_plain.
      destruct (is_digit c) eqn:E; [|reflexivity].
      apply digit_not_space in E. congruence. }
  replace ((1 <=? 0 + length sp2) && within None (0 + length sp2)) with true
    by (destruct sp2; [congruence | reflexivity]).
  rewrite m_cat_cons. unfold digit. rewrite m_rep_greedy.
  assert (Hrange : match range ++ u "." ++ tl with [] => True
                   | c :: _ => is_digit c = false end).
  { destruct range as [|c d2]; [reflexivity|]. cbn in Hr |- *.
    apply andb_prop in Hr as [Hr _]. apply andb_prop in Hr as [Hc _].
    apply ceqb_eq in Hc. subst c. reflexivity. }
  pose proof (span_exact is_digit d _ Hd Hrange) as Ed.
  rewrite <- (span_pointwise _ is_digit _ digit_class_plain) in Ed.
  rewrite (greedy_commit _ 1 None _) with (a := d) (b := range ++ u "." ++ tl);
    [ | | exact Ed | reflexivity ].
  2:{ intros c t p0 cs0 Hc. rewrite digit_class_plain in Hc.
      apply example_after_number_stuck. exact Hc. }
  replace ((1 <=? 0 + length d) && within None (0 + length d)) with true
    by (destruct d; [congruence | reflexivity]).
  erewrite example_after_number; [ | exact Hr | exact Hnl | ].
  2:{ unfold set_cap. cbn [rest prev caps].
      rewrite m_cat_cons. cbn [m]. rewrite eol_plain, m_cat_nil.
      cbn [andb]. reflexivity. }
  cbn [rest caps length]. rewrite !Nat.sub_0_r, !firstn_all.
  rewrite (firstn_consumed_eq (u "#####" ++ sp)
             (u "Example" ++ sp2 ++ d ++ range ++ u "." ++ tl))
    by (list_norm; reflexivity).
  reflexivity.
Qed.

Lemma adjust_line_example sp sp2 d range tl :
  forallb is_space sp = true ->
  sp2 <> [] -> forallb is_space sp2 = true ->
  d <> [] -> forallb is_digit d = true ->
  is_range range = true -> forallb not_nl tl = true ->
  adjust_line (u "#####" ++ sp ++ example_title sp2 d range tl) =
  u "*" ++ example_title sp2 d range (rstrip tl) ++ u "*".
Proof.
  intros Hsp Hne2 Hsp2 Hned Hd Hr Hnl. unfold adjust_line.
  rewrite (example_header_match sp sp2 d range tl) by assumption.
  cbn [group groups lookup Nat.eqb]. do 2 f_equal.
  unfold strip, example_title.
  rewrite lstrip_keep by reflexivity.
  replace (u "Example" ++ sp2 ++ d ++ range ++ u "." ++ tl)
    with (((u "Example" ++ sp2 ++ d ++ range) ++ [46%N]) ++ tl)
    by (list_norm; reflexivity).
  rewrite rstrip_app_keep by reflexivity. list_norm. reflexivity.
Qed.

End ExampleRule.

Section ChapterRule.

Lemma chapter_class c :
  cc_match NOFLAGS (CSet false [Range 48%N 57%N; One 46%N]) c
  = is_chapter_number c.
Proof.
  unfold is_chapter_number, is_digit. cbn. rewrite orb_false_r. reflexivity.
Qed.

Lemma chapter_number_not_space c :
  is_chapter_number c = true -> is_space c = false.
Proof.
  unfold is_chapter_number. intros H. apply orb_prop in H as [H|H].
  - apply digit_not_space. exact H.
  - apply ceqb_eq in H. subst c. reflexivity.
Qed.

Lemma chapter_header_match sp sp2 n tl :
  sp <> [] -> forallb is_space sp = true ->
  sp2 <> [] -> forallb is_space sp2 = true ->
  is_chapter_number n = true -> forallb not_nl tl = true ->
  exists h,
    re_match NOFLAGS chapter_header_pattern
      (u "#" ++ sp ++ u "Chapter" ++ sp2 ++ n :: tl) = Some h.
Proof.
  intros Hne Hsp Hne2 Hsp2 Hn Hnl.
  unfold re_match, match_at, chapter_header_pattern.
  rewrite m_cat_cons. cbn [m at_bol prev]. cbv iota.
  rewrite m_cat_cons, m_lit_self.
  rewrite m_cat_cons. unfold plus, ws. rewrite m_rep_greedy.
  rewrite (greedy_commit (cc_match NOFLAGS CSpace) 1 None)
    with (a := sp) (b := u "Chapter" ++ sp2 ++ n :: tl);
    [ | | apply span_exact; [exact Hsp | reflexivity] | reflexivity ].
  2:{ intros c t p0 cs0 Hc. cbn [cc_match] in Hc. rewrite m_cat_cons.
      change (u "Chapter") with (67%N :: u "hapter").
      apply (m_lit_first 67%N). apply first_is_space; [reflexivity | exact Hc]. }
  replace ((1 <=? 0 + length sp) && within None (0 + length sp)) with true
    by (destruct sp; [congruence | reflexivity]).
  rewrite m_cat_cons, m_lit_self.
  rewrite m_cat_cons. rewrite m_rep_greedy.
  rewrite (greedy_commit (cc_match NOFLAGS CSpace) 1 None)
    with (a := sp2) (b := n :: tl);
    [ | | apply span_exact; [exact Hsp2 | apply chapter_number_not_space; exact Hn]
      | reflexivity ].
  2:{ intros c t p0 cs0 Hc. cbn [cc_match] in Hc. rewrite m_cat_cons.
      rewrite m_rep_greedy. apply greedy_stuck; [|lia].
      rewrite chapter_class.
      destruct (is_chapter_number c) eqn:E; [|reflexivity].
      apply chapter_number_not_space in E. congruence. }
  replace ((1 <=? 0 + length sp2) && within None (0 + length sp2)) with true
    by (destruct sp2; [congruence | reflexivity]).
  rewrite m_cat_cons, m_rep_greedy.
  destruct (span (cc_match NOFLAGS (CSet false [Range 48%N 57%N; One 46%N]))
              (n :: tl)) as [a b] eqn:Ea.
  assert (Hb : forallb not_nl b = true).
  { pose proof (span_app _ _ _ _ Ea) as E.
    assert (Hall : forallb not_nl (n :: tl) = true).
    { cbn. rewrite Hnl, andb_true_r. unfold not_nl.
      destruct (ceqb n nl) eqn:En; [|reflexivity].
      apply ceqb_eq in En. subst n. discriminate Hn. }
    rewrite E, forallb_app in Hall. apply andb_prop in Hall as [_ Hall]. exact Hall. }
  assert (Ha : 1 <= length a).
  { cbn [span] in Ea. rewrite chapter_class, Hn in Ea.
    destruct (span _ tl) as [a' b']. inversion Ea; subst. cbn. lia. }
  assert (Eb : span not_nl b = (b, [])).
  { rewrite <- (app_nil_r b) at 1. apply span_exact; [exact Hb | exact I]. }
  erewrite (greedy_first _ 1 _ _ (n :: tl) 0 _ _ a b Ea); [ | cbn; lia | ].
  2:{ rewrite m_cat_cons. unfold star, dot. rewrite m_rep_greedy.
      erewrite (greedy_first (cc_match NOFLAGS CDot) 0 _ _ b 0 _ _ b [] Eb);
        [reflexivity | lia | ].
      rewrite m_cat_cons. cbn [m]. rewrite eol_plain, m_cat_nil.
      cbn [andb]. reflexivity. }
  eexists. reflexivity.
Qed.

Lemma not_chapter_goals_number sp sp2 n tl :
  sp <> [] -> forallb is_space sp = true ->
  sp2 <> [] -> forallb is_space sp2 = true ->
  is_chapter_number n = true ->
  str_eqb (u "#" ++ sp ++ u "Chapter" ++ sp2 ++ n :: tl) (u "# Chapter Goals")
  = false.
Proof.
  intros Hne Hsp Hne2 Hsp2 Hn.
  assert (HnG : ceqb n 71%N = false)
    by (apply (class_neq is_chapter_number n 71%N Hn eq_refl)).
  destruct sp as [|w [|w2 sp3]]; [congruence | |].
  - destruct sp2 as [|t [|t2 sp4]]; [congruence | |].
    + cbn. rewrite HnG. rewrite !andb_false_r. reflexivity.
    + cbn in Hsp2. apply andb_prop in Hsp2 as [_ Hsp2].
      apply andb_prop in Hsp2 as [Ht2 _].
      cbn. rewrite (class_neq is_space t2 71%N Ht2 eq_refl).
      rewrite !andb_false_r. reflexivity.
  - cbn in Hsp. apply andb_prop in Hsp as [_ Hsp]. apply andb_prop in Hsp as [Hw2 _].
    cbn. rewrite (class_neq is_space w2 67%N Hw2 eq_refl).
    rewrite !andb_false_r. reflexivity.
Qed.

Lemma adjust_line_chapter sp sp2 n tl :
  sp <> [] -> forallb is_space sp = true ->
  sp2 <> [] -> forallb is_space sp2 = true ->
  is_chapter_number n = true -> forallb not_nl tl = true ->
  adjust_line (u "#" ++ sp ++ u "Chapter" ++ sp2 ++ n :: tl)
  = u "#" ++ sp ++ u "Chapter" ++ sp2 ++ n :: tl.
Proof.
  intros Hne Hsp Hne2 Hsp2 Hn Hnl. unfold adjust_line.
  replace (re_match NOFLAGS example_header_pattern
             (u "#" ++ sp ++ u "Chapter" ++ sp2 ++ n :: tl)) with (@None hit).
  2:{ symmetry. apply example_prefix_none. destruct sp as [|w sp']; [congruence|].
      cbn in Hsp. apply andb_prop in Hsp as [Hw _]. cbn.
      rewrite (class_neq is_space w 35%N Hw eq_refl). reflexivity. }
  replace (strip (u "#" ++ sp ++ u "Chapter" ++ sp2 ++ n :: tl))
    with (u "#" ++ sp ++ u "Chapter" ++ sp2 ++ n :: rstrip tl).
  2:{ unfold strip. rewrite lstrip_keep by reflexivity.
      replace (u "#" ++ sp ++ u "Chapter" ++ sp2 ++ n :: tl)
        with (((u "#" ++ sp ++ u "Chapter" ++ sp2) ++ [n]) ++ tl)
        by (list_norm; reflexivity).
      rewrite rstrip_app_keep by (apply chapter_number_not_space; exact Hn).
      list_norm. reflexivity. }
  rewrite not_chapter_goals_number by assumption.
  destruct (chapter_header_match sp sp2 n (rstrip tl)) as [h Hm];
    try assumption; [apply rstrip_forallb; exact Hnl|].
  rewrite Hm. reflexivity.
Qed.

End ChapterRule.

(** ** The first match of a line-anchored pattern *)

Section FirstLine.
Variable fl : flags.
Hypothesis Hfl : ignorecase fl = false.

Lemma scan_unmatched r : forall pre s p,
  (forall a b, pre = a ++ b -> b <> [] ->
     match_at fl r false (prev_after p a) (b ++ s) = None) ->
  scan fl r p 0 (pre ++ s) = map Keep pre ++ scan fl r (prev_after p pre) 0 s.
Proof.
  induction pre as [|c pre IH]; intros s p H; [reflexivity|].
  cbn [app map]. rewrite scan_keep.
  - f_equal. apply IH. intros a b E Hne.
    apply (H (c :: a) b); [subst; reflexivity | exact Hne].
  - apply (H [] (c :: pre)); [reflexivity | discriminate].
Qed.

Lemma lit_prefix_cons_false x l c s :
  ceqb c x = false -> lit_prefix fl (x :: l) (c :: s) = false.
Proof.
  intros H. cbn [lit_prefix]. unfold lit_match. rewrite Hfl, H. reflexivity.
Qed.

(** A line-anchored pattern that starts with the literal [l]. *)
Lemma match_at_anchored l rs adv p s :
  line_start p && lit_prefix NOFLAGS l s = false ->
  match_at fl (cat (Bol :: lit l :: rs)) adv p s = None.
Proof.
  intros H. unfold match_at. rewrite m_cat_cons. cbn [m].
  unfold at_bol. cbn [prev].
  destruct p as [c|].
  - cbn [line_start] in H. destruct (ceqb c nl).
    + rewrite andb_true_r. cbn [andb] in H.
      destruct (multiline fl); [|reflexivity].
      rewrite m_cat_cons, m_lit_prefix, (lit_prefix_caseless fl l Hfl), H. reflexivity.
    + rewrite andb_false_r. reflexivity.
  - cbn [line_start andb] in H.
    rewrite m_cat_cons, m_lit_prefix, (lit_prefix_caseless fl l Hfl), H. reflexivity.
Qed.

(** Before a line feed, a literal without line feed is read from the
    text before it or not at all. *)
Lemma lit_prefix_before_nl l : forall b s,
  forallb not_nl l = true ->
  lit_prefix NOFLAGS l (b ++ nl :: s) = lit_prefix NOFLAGS l b.
Proof.
  induction l as [|x l IH]; intros b s Hl; [reflexivity|].
  cbn in Hl. apply andb_prop in Hl as [Hx Hl].
  destruct b as [|c b].
  - cbn [app lit_prefix lit_match ignorecase NOFLAGS].
    unfold not_nl in Hx. apply negb_true_iff in Hx.
    replace (ceqb nl x) with false
      by (unfold ceqb in *; rewrite N.eqb_sym; symmetry; exact Hx).
    reflexivity.
  - cbn [app lit_prefix]. rewrite (IH b s Hl). reflexivity.
Qed.

Lemma no_line_starts_unmatched l rs : forallb not_nl l = true ->
  forall pre p s a b,
  no_line_starts l p (pre ++ [nl]) = true ->
  pre ++ [nl] = a ++ b -> b <> [] ->
  match_at fl (cat (Bol :: lit l :: rs)) false (prev_after p a) (b ++ s) = None.
Proof.
  intros Hl. induction pre as [|c pre IH]; intros p s a b H E Hne.
  - destruct a as [|x a].
    + cbn [app] in E. subst b. cbn [app prev_after fold_left].
      apply match_at_anchored. cbn [app no_line_starts] in H.
      rewrite andb_true_r in H. apply negb_true_iff in H.
      change (nl :: s) with ([] ++ nl :: s).
      rewrite (lit_prefix_before_nl l [] s Hl).
      rewrite <- (lit_prefix_before_nl l [] [] Hl). exact H.
    + cbn [app] in E. inversion E as [[E1 E2]].
      destruct a; [|discriminate E2]. cbn [app] in E2. congruence.
  - cbn [app no_line_starts] in H. apply andb_prop in H as [H1 H2].
    destruct a as [|x a].
    + cbn [app] in E. subst b. cbn [prev_after fold_left].
      apply match_at_anchored. apply negb_true_iff in H1.
      change (c :: pre ++ [nl]) with ((c :: pre) ++ [nl]).
      rewrite <- app_assoc. change ([nl] ++ s) with (nl :: s).
      rewrite (lit_prefix_before_nl l (c :: pre) s Hl).
      rewrite <- (lit_prefix_before_nl l (c :: pre) [] Hl). exact H1.
    + cbn [app] in E. inversion E; subst x.
      change (prev_after p (c :: a)) with (prev_after (Some c) a).
      apply (IH (Some c) s a b H2); assumption.
Qed.

Lemma lit_prefix_line_end l post :
  l <> [] -> forallb not_nl l = true -> line_end post = true ->
  lit_prefix NOFLAGS l post = false.
Proof.
  intros Hne Hl Hp. destruct l as [|x l]; [congruence|].
  destruct post as [|c t]; [reflexivity|].
  cbn in Hp. apply ceqb_eq in Hp. subst c.
  cbn in Hl. apply andb_prop in Hl as [Hx _].
  unfold not_nl in Hx. apply negb_true_iff in Hx.
  cbn [lit_prefix lit_match ignorecase NOFLAGS].
  replace (ceqb nl x) with false
    by (unfold ceqb in *; rewrite N.eqb_sym; symmetry; exact Hx).
  reflexivity.
Qed.

(** At the end of a line, the search goes on as from the start of the
    text. *)
Lemma scan_line_end l rs post p :
  l <> [] -> forallb not_nl l = true -> line_end post = true ->
  scan fl (cat (Bol :: lit l :: rs)) p 0 post =
  scan fl (cat (Bol :: lit l :: rs)) None 0 post.
Proof.
  intros Hne Hl Hp.
  assert (Hm : forall p0, match_at fl (cat (Bol :: lit l :: rs)) false p0 post = None).
  { intros p0. apply match_at_anchored.
    rewrite (lit_prefix_line_end l post Hne Hl Hp). apply andb_false_r. }
  destruct post as [|c t].
  - rewrite !scan_nil by apply Hm. reflexivity.
  - rewrite !scan_keep by apply Hm. reflexivity.
Qed.

Lemma line_start_last p pre :
  line_start (prev_after p pre) = true ->
  pre = [] \/ exists pre', pre = pre' ++ [nl].
Proof.
  intros H. destruct pre as [|c pre]; [left; reflexivity|]. right.
  destruct (@exists_last _ (c :: pre)) as (pre' & x & E); [discriminate|].
  exists pre'. rewrite E in H |- *. rewrite prev_after_last in H.
  cbn in H. apply ceqb_eq in H. subst x. reflexivity.
Qed.

(** The first match of a line-anchored pattern, after lines that do not
    start with its literal. *)
Lemma sub_first_line l rs repl pre X post h :
  l <> [] -> forallb not_nl l = true ->
  no_line_starts l None pre = true ->
  line_start (prev_after None pre) = true ->
  match_at fl (cat (Bol :: lit l :: rs)) false (prev_after None pre) (X ++ post)
    = Some h ->
  whole h = X -> X <> [] -> line_end post = true ->
  sub_with fl (cat (Bol :: lit l :: rs)) repl (pre ++ X ++ post) =
  pre ++ repl h ++ sub_with fl (cat (Bol :: lit l :: rs)) repl post.
Proof.
  intros Hne Hl Hpre Hstart Hm Hw HX Hpost. unfold sub_with.
  rewrite scan_unmatched.
  - rewrite (scan_found fl _ _ X post h Hm Hw HX).
    rewrite flat_map_app. cbn [flat_map].
    rewrite (scan_line_end l rs post _ Hne Hl Hpost).
    f_equal. clear. induction pre as [|c pre IH]; [reflexivity|].
    cbn [map flat_map app]. rewrite IH. reflexivity.
  - destruct (line_start_last None pre Hstart) as [->|(pre' & ->)].
    + intros a b E. destruct a, b; try discriminate. congruence.
    + intros a b E Hb.
      apply (no_line_starts_unmatched l rs Hl pre' None (X ++ post) a b Hpre E Hb).
Qed.

End FirstLine.

(** ** Footnote definitions *)

Section Footnotes.

Lemma notc_rparen c : cc_match MULTILINE (CSet true [One 41%N]) c = not_rparen c.
Proof. cbn. rewrite orb_false_r. reflexivity. Qed.

Lemma digit_class_lines c :
  cc_match MULTILINE (CSet false [Range 48%N 57%N]) c = is_digit c.
Proof. apply digit_class. Qed.

Lemma m_lit_first_lines x l k p s cs :
  first_is x s = false -> m MULTILINE (lit (x :: l)) k (MState p s cs) = None.
Proof.
  intros H. rewrite m_lit_prefix. destruct s as [|c s]; [reflexivity|].
  cbn in H. cbn [lit_prefix lit_match ignorecase MULTILINE]. rewrite H. reflexivity.
Qed.

Lemma line_end_span cap post :
  forallb not_nl cap = true -> line_end post = true ->
  span not_nl (cap ++ post) = (cap, post).
Proof.
  intros Hc Hp. apply span_exact; [exact Hc|].
  destruct post as [|c t]; [exact I|]. cbn in Hp. unfold not_nl. rewrite Hp. reflexivity.
Qed.

(** The end of the two footnote patterns: white space, then the rest of
    the line as group 2. *)
Lemma footnote_tail lo k r p cs sp cap post :
  lo <= length sp -> forallb is_space sp = true ->
  starts_without_space (cap ++ post) ->
  forallb not_nl cap = true -> line_end post = true ->
  k (MState (prev_after p (sp ++ cap)) post ((2, cap) :: cs)) = Some r ->
  m MULTILINE (cat [Rep true lo None ws; Grp 2 (star dot)]) k
    (MState p (sp ++ cap ++ post) cs) = Some r.
Proof.
  intros Hlo Hsp Hstart Hcap Hpost Hk.
  rewrite m_cat_cons. unfold ws. rewrite m_rep_greedy.
  assert (E1 : span (cc_match MULTILINE CSpace) (sp ++ cap ++ post) = (sp, cap ++ post)).
  { apply span_exact; [exact Hsp|]. destruct (cap ++ post); [exact I | exact Hstart]. }
  erewrite (greedy_first _ lo _ _ _ 0 _ _ sp (cap ++ post) E1); [reflexivity | lia | ].
  rewrite m_cat_cons, m_grp. unfold star, dot. rewrite m_rep_greedy.
  pose proof (line_end_span cap post Hcap Hpost) as E2.
  erewrite (greedy_first (cc_match MULTILINE CDot) 0 _ _ _ 0 _ _ cap post E2);
    [reflexivity | lia | ].
  rewrite m_cat_nil. unfold set_cap. cbn [rest prev caps].
  rewrite firstn_consumed. rewrite prev_after_app in Hk. exact Hk.
Qed.

Lemma footnote_definition_match p d a sp cap post :
  line_start p = true ->
  d <> [] -> forallb is_digit d = true ->
  a <> [] -> forallb not_rparen a = true ->
  forallb is_space sp = true -> starts_without_space (cap ++ post) ->
  forallb not_nl cap = true -> line_end post = true ->
  match_at MULTILINE footnote_definition_pattern false p
    ((footnote_head d a ++ sp ++ cap) ++ post) =
  Some (Hit (footnote_head d a ++ sp ++ cap) [(2, cap); (1, d)]).
Proof.
  intros Hp Hdne Hd Hane Ha Hsp Hstart Hcap Hpost.
  unfold match_at, footnote_definition_pattern, footnote_head.
  rewrite m_cat_cons. cbn [m].
  replace (at_bol MULTILINE _) with (line_start p) by (destruct p; reflexivity).
  rewrite Hp. list_norm.
  change (94%N :: 40%N :: 91%N :: d ++ u "](#" ++ a ++ u "))" ++ sp ++ cap ++ post)
    with (u "^([" ++ d ++ u "](#" ++ a ++ u "))" ++ sp ++ cap ++ post).
  rewrite m_cat_cons, m_lit_self.
  rewrite m_cat_cons, m_grp. unfold plus at 1. unfold digit. rewrite m_rep_greedy.
  rewrite (greedy_commit (cc_match MULTILINE (CSet false [Range 48%N 57%N])) 1 None)
    with (a := d) (b := u "](#" ++ a ++ u "))" ++ sp ++ cap ++ post); [ | | | reflexivity ].
  3:{ rewrite (span_pointwise _ is_digit _ digit_class_lines).
      apply span_exact; [exact Hd | reflexivity]. }
  2:{ intros c t p0 cs0 Hc. rewrite digit_class_lines in Hc.
      unfold set_cap. cbn [rest prev caps]. rewrite m_cat_cons.
      change (u "](#") with (93%N :: u "(#").
      apply m_lit_first_lines. apply first_is_digit; [reflexivity | exact Hc]. }
  replace ((1 <=? 0 + length d) && within None (0 + length d)) with true
    by (destruct d; [congruence | reflexivity]).
  unfold set_cap at 1. cbn [rest prev caps].
  rewrite m_cat_cons, m_lit_self.
  rewrite m_cat_cons. unfold plus, notc. rewrite m_rep_greedy.
  rewrite (greedy_commit (cc_match MULTILINE (CSet true [One 41%N])) 1 None)
    with (a := a) (b := u "))" ++ sp ++ cap ++ post); [ | | | reflexivity ].
  3:{ rewrite (span_pointwise _ not_rparen _ notc_rparen).
      apply span_exact; [exact Ha | reflexivity]. }
  2:{ intros c t p0 cs0 Hc. rewrite notc_rparen in Hc.
      rewrite m_cat_cons. change (u "))") with (41%N :: u ")").
      apply m_lit_first_lines. cbn. unfold not_rparen in Hc.
      apply negb_true_iff in Hc. exact Hc. }
  replace ((1 <=? 0 + length a) && within None (0 + length a)) with true
    by (destruct a; [congruence | reflexivity]).
  rewrite m_cat_cons, m_lit_self.
  erewrite (footnote_tail 0); [ | lia | exact Hsp | exact Hstart | exact Hcap
                               | exact Hpost | cbn [andb]; reflexivity ].
  cbn [rest caps].
  rewrite (firstn_consumed_eq (u "^([" ++ d ++ u "](#" ++ a ++ u "))" ++ sp ++ cap) post)
    by (list_norm; reflexivity).
  rewrite (firstn_consumed_eq d (u "](#" ++ a ++ u "))" ++ sp ++ cap ++ post))
    by reflexivity.
  reflexivity.
Qed.

Lemma superscript_footnote_match p d a sp cap post :
  line_start p = true ->
  d <> [] -> forallb is_digit d = true ->
  a <> [] -> forallb not_rparen a = true ->
  sp <> [] -> forallb is_space sp = true -> starts_without_space (cap ++ post) ->
  forallb not_nl cap = true -> line_end post = true ->
  match_at MULTILINE superscript_footnote_pattern false p
    ((superscript_head d a ++ sp ++ cap) ++ post) =
  Some (Hit (superscript_head d a ++ sp ++ cap) [(2, cap); (1, d)]).
Proof.
  intros Hp Hdne Hd Hane Ha Hspne Hsp Hstart Hcap Hpost.
  unfold match_at, superscript_footnote_pattern, superscript_head.
  rewrite m_cat_cons. cbn [m].
  replace (at_bol MULTILINE _) with (line_start p) by (destruct p; reflexivity).
  rewrite Hp. list_norm.
  change (60%N :: 115%N :: 117%N :: 112%N :: 62%N :: 91%N
          :: d ++ u "](#" ++ a ++ u ")</sup>" ++ sp ++ cap ++ post)
    with (u "<sup>[" ++ d ++ u "](#" ++ a ++ u ")</sup>" ++ sp ++ cap ++ post).
  rewrite m_cat_cons, m_lit_self.
  rewrite m_cat_cons, m_grp. unfold plus at 1. unfold digit. rewrite m_rep_greedy.
  rewrite (greedy_commit (cc_match MULTILINE (CSet false [Range 48%N 57%N])) 1 None)
    with (a := d) (b := u "](#" ++ a ++ u ")</sup>" ++ sp ++ cap ++ post);
    [ | | | reflexivity ].
  3:{ rewrite (span_pointwise _ is_digit _ digit_class_lines).
      apply span_exact; [exact Hd | reflexivity]. }
  2:{ intros c t p0 cs0 Hc. rewrite digit_class_lines in Hc.
      unfold set_cap. cbn [rest prev caps]. rewrite m_cat_cons.
      change (u "](#") with (93%N :: u "(#").
      apply m_lit_first_lines. apply first_is_digit; [reflexivity | exact Hc]. }
  replace ((1 <=? 0 + length d) && within None (0 + length d)) with true
    by (destruct d; [congruence | reflexivity]).
  unfold set_cap at 1. cbn [rest prev caps].
  rewrite m_cat_cons, m_lit_self.
  rewrite m_cat_cons. unfold plus at 1. unfold notc. rewrite m_rep_greedy.
  rewrite (greedy_commit (cc_match MULTILINE (CSet true [One 41%N])) 1 None)
    with (a := a) (b := u ")</sup>" ++ sp ++ cap ++ post); [ | | | reflexivity ].
  3:{ rewrite (span_pointwise _ not_rparen _ notc_rparen).
      apply span_exact; [exact Ha | reflexivity]. }
  2:{ intros c t p0 cs0 Hc. rewrite notc_rparen in Hc.
      rewrite m_cat_cons. change (u ")</sup>") with (41%N :: u "</sup>").
      apply m_lit_first_lines. cbn. unfold not_rparen in Hc.
      apply negb_true_iff in Hc. exact Hc. }
  replace ((1 <=? 0 + length a) && within None (0 + length a)) with true
    by (destruct a; [congruence | reflexivity]).
  rewrite m_cat_cons, m_lit_self.
  erewrite (footnote_tail 1); [ | destruct sp; [congruence | cbn; lia] | exact Hsp
                               | exact Hstart | exact Hcap
                               | exact Hpost | cbn [andb]; reflexivity ].
  cbn [rest caps].
  rewrite (firstn_consumed_eq
             (u "<sup>[" ++ d ++ u "](#" ++ a ++ u ")</sup>" ++ sp ++ cap) post)
    by (list_norm; reflexivity).
  rewrite (firstn_consumed_eq d (u "](#" ++ a ++ u ")</sup>" ++ sp ++ cap ++ post))
    by reflexivity.
  reflexivity.
Qed.

End Footnotes.

(** ** Admonition lines *)

Section Admonitions.

Lemma eol_line_end p post cs :
  line_end post = true -> at_eol MULTILINE (MState p post cs) = true.
Proof.
  intros H. unfold at_eol. cbn [rest]. destruct post as [|c t]; [reflexivity|].
  cbn in H. rewrite H. reflexivity.
Qed.

Lemma admonition_words_stuck k c t p cs :
  is_space c = true ->
  m MULTILINE (alts [lit (u "Tip"); lit (u "Note"); lit (u "Caution");
                     lit (u "Warning")]) k (MState p (c :: t) cs) = None.
Proof.
  intros Hc. cbn [alts fold_left m].
  change (u "Tip") with (84%N :: u "ip"). change (u "Note") with (78%N :: u "ote").
  change (u "Caution") with (67%N :: u "aution").
  change (u "Warning") with (87%N :: u "arning").
  rewrite !m_lit_first_lines by (apply first_is_space; [reflexivity | exact Hc]).
  reflexivity.
Qed.

Lemma admonition_words k p cs kind post :
  is_admonition kind = true ->
  m MULTILINE (alts [lit (u "Tip"); lit (u "Note"); lit (u "Caution");
                     lit (u "Warning")]) k (MState p (kind ++ post) cs)
  = match k (MState (prev_after p kind) post cs) with
    | Some r => Some r
    | None => None
    end.
Proof.
  unfold is_admonition. cbn [existsb]. rewrite orb_false_r. intros H.
  cbn [alts fold_left m].
  repeat (apply orb_prop in H; destruct H as [H|H]);
    apply str_eqb_eq in H; subst kind.
  - rewrite m_lit_self. destruct (k _); reflexivity.
  - change (u "Tip") with (84%N :: u "ip").
    rewrite m_lit_first_lines by reflexivity.
    rewrite m_lit_self. destruct (k _); reflexivity.
  - change (u "Tip") with (84%N :: u "ip"). change (u "Note") with (78%N :: u "ote").
    rewrite !m_lit_first_lines by reflexivity.
    rewrite m_lit_self. destruct (k _); reflexivity.
  - change (u "Tip") with (84%N :: u "ip"). change (u "Note") with (78%N :: u "ote").
    change (u "Caution") with (67%N :: u "aution").
    rewrite !m_lit_first_lines by reflexivity.
    rewrite m_lit_self. destruct (k _); reflexivity.
Qed.

Lemma admonition_starts kind post :
  is_admonition kind = true -> starts_without_space (kind ++ post) /\ kind <> [].
Proof.
  unfold is_admonition. cbn [existsb]. rewrite orb_false_r. intros H.
  repeat (apply orb_prop in H; destruct H as [H|H]);
    apply str_eqb_eq in H; subst kind; split; (reflexivity || discriminate).
Qed.

Lemma admonition_match p sp kind post :
  line_start p = true -> forallb is_space sp = true ->
  is_admonition kind = true -> line_end post = true ->
  match_at MULTILINE admonition_pattern false p ((u "######" ++ sp ++ kind) ++ post)
  = Some (Hit (u "######" ++ sp ++ kind) [(1, kind)]).
Proof.
  intros Hp Hsp Hk Hpost. unfold match_at, admonition_pattern.
  rewrite m_cat_cons. cbn [m].
  replace (at_bol MULTILINE _) with (line_start p) by (destruct p; reflexivity).
  rewrite Hp. rewrite <- !app_assoc.
  rewrite m_cat_cons, m_lit_self.
  rewrite m_cat_cons. unfold star, ws. rewrite m_rep_greedy.
  destruct (admonition_starts kind post Hk) as [Hstart Hne].
  rewrite (greedy_commit (cc_match MULTILINE CSpace) 0 None)
    with (a := sp) (b := kind ++ post); [ | | | reflexivity ].
  3:{ apply span_exact; [exact Hsp|]. destruct (kind ++ post); [exact I | exact Hstart]. }
  2:{ intros c t p0 cs0 Hc. cbn [cc_match] in Hc.
      rewrite m_cat_cons, m_grp. apply admonition_words_stuck. exact Hc. }
  replace ((0 <=? 0 + length sp) && within None (0 + length sp)) with true
    by reflexivity.
  rewrite m_cat_cons, m_grp. rewrite (admonition_words _ _ _ kind post Hk).
  unfold set_cap. cbn [rest prev caps].
  rewrite m_cat_cons. cbn [m]. rewrite (eol_line_end _ post _ Hpost), m_cat_nil.
  cbn [andb rest caps].
  rewrite (firstn_consumed_eq (u "######" ++ sp ++ kind) post)
    by (list_norm; reflexivity).
  rewrite firstn_consumed. reflexivity.
Qed.

End Admonitions.

(** ** The first match of a pattern that starts with a literal *)

Section FirstMatch.
Variable fl : flags.

Lemma match_at_lit l rs adv p s :
  lit_prefix fl l s = false -> match_at fl (cat (lit l :: rs)) adv p s = None.
Proof.
  intros H. unfold match_at. rewrite m_cat_cons, m_lit_prefix, H. reflexivity.
Qed.

Lemma scan_free_of l rs pre s p :
  free_of fl l pre s = true ->
  scan fl (cat (lit l :: rs)) p 0 (pre ++ s) =
  map Keep pre ++ scan fl (cat (lit l :: rs)) (prev_after p pre) 0 s.
Proof.
  intros H. apply scan_unmatched. intros a b E Hne.
  apply match_at_lit. apply (free_of_split fl l pre s a b H E Hne).
Qed.

Lemma flat_map_keep repl pre :
  flat_map (fun sg => match sg with Keep c => [c] | Found h => repl h end)
    (map Keep pre) = pre.
Proof. apply (render_keep repl pre). Qed.

(** The first match of a pattern that starts with the literal [l], after
    a text in which [l] does not occur. *)
Lemma sub_first l rs repl pre X post h :
  bol_free (cat (lit l :: rs)) = true ->
  free_of fl l pre (X ++ post) = true ->
  match_at fl (cat (lit l :: rs)) false None (X ++ post) = Some h ->
  whole h = X -> X <> [] ->
  sub_with fl (cat (lit l :: rs)) repl (pre ++ X ++ post) =
  pre ++ repl h ++ sub_with fl (cat (lit l :: rs)) repl post.
Proof.
  intros Hb Hpre Hm Hw HX. unfold sub_with.
  rewrite (scan_free_of l rs pre (X ++ post) None Hpre).
  rewrite (match_at_bol_free fl _ false None (prev_after None pre) _ Hb) in Hm.
  rewrite (scan_found fl _ _ X post h Hm Hw HX).
  rewrite flat_map_app, flat_map_keep. cbn [flat_map].
  rewrite (scan_bol_free fl _ Hb post _ None). reflexivity.
Qed.

(** Where a literal cannot start, the pattern leaves the text as it is,
    up to there. *)
Lemma sub_skip l rs repl pre s :
  bol_free (cat (lit l :: rs)) = true ->
  free_of fl l pre s = true ->
  sub_with fl (cat (lit l :: rs)) repl (pre ++ s) =
  pre ++ sub_with fl (cat (lit l :: rs)) repl s.
Proof.
  intros Hb Hpre. unfold sub_with.
  rewrite (scan_free_of l rs pre s None Hpre).
  rewrite flat_map_app, flat_map_keep.
  rewrite (scan_bol_free fl _ Hb s _ None). reflexivity.
Qed.

End FirstMatch.

Section Angle.

(** No character of the text is an opening angle bracket. *)
Lemma free_of_no_first fl x l : forall c tail,
  forallb (fun y => negb (lit_match fl x y)) c = true ->
  free_of fl (x :: l) c tail = true.
Proof.
  induction c as [|y c IH]; intros tail H; [reflexivity|].
  cbn in H. apply andb_prop in H as [Hy Hc]. apply negb_true_iff in Hy.
  cbn [free_of app lit_prefix]. rewrite Hy, (IH tail Hc). reflexivity.
Qed.

Lemma free_of_app fl l a b tail :
  free_of fl l a (b ++ tail) = true -> free_of fl l b tail = true ->
  free_of fl l (a ++ b) tail = true.
Proof.
  induction a as [|y a IH]; intros Ha Hb; [exact Hb|].
  cbn [free_of app] in Ha |- *. apply andb_prop in Ha as [H1 H2].
  rewrite <- app_assoc. rewrite H1. cbn [andb]. apply IH; assumption.
Qed.

End Angle.

(** ** Table blocks *)

Section TablesMore.

Lemma table_match p attrs c tail :
  forallb not_gt attrs = true ->
  free_of IGNORECASE_DOTALL (u "</table>") c (u "</table>" ++ tail) = true ->
  match_at IGNORECASE_DOTALL table_pattern false p (table_block attrs c ++ tail) =
  Some (Hit (table_block attrs c) []).
Proof.
  intros Hattrs Hfree.
  unfold match_at. set (s := table_block attrs c ++ tail).
  set (kf := fun st : mstate => if false && (length (rest st) =? length s)
                                then None else Some st).
  assert (Hm : m IGNORECASE_DOTALL table_pattern kf (MState p s []) =
               Some (MState (Some 62%N) tail [])).
  { unfold table_pattern, s, table_block.
    rewrite m_cat_cons. rewrite <- !app_assoc. rewrite m_lit_self.
    rewrite m_cat_cons. unfold star, notc. rewrite m_rep_greedy.
    rewrite (greedy_commit (cc_match IGNORECASE_DOTALL (CSet true [One 62%N])) 0 None)
      with (a := attrs) (b := u ">" ++ c ++ u "</table>" ++ tail).
    - cbn [Nat.leb within andb].
      rewrite m_cat_cons, m_lit_self.
      rewrite m_cat_cons. unfold lazy_star, dot. rewrite m_rep_lazy.
      erewrite lazy_skip; [reflexivity | | | ].
      + apply forallb_forall. reflexivity.
      + intros a1 a2 E Hne. rewrite m_cat_cons, m_lit_prefix.
        rewrite (free_of_split _ _ _ _ a1 a2 Hfree E Hne). reflexivity.
      + rewrite m_cat_cons, m_lit_self, m_cat_nil.
        unfold kf. cbn [andb]. reflexivity.
    - intros x t p0 cs Hx. rewrite m_cat_cons, m_lit_prefix.
      change (u ">") with [62%N]. cbn [lit_prefix].
      rewrite notc_gt in Hx. rewrite lit_match_gt.
      unfold not_gt in Hx. apply negb_true_iff in Hx. rewrite Hx. reflexivity.
    - apply span_exact.
      + rewrite (forallb_pointwise _ not_gt attrs (notc_gt _)). exact Hattrs.
      + change (u ">") with [62%N]. cbn [app]. rewrite notc_gt. reflexivity.
    - reflexivity. }
  rewrite Hm. cbn [rest caps]. unfold s.
  rewrite firstn_consumed. reflexivity.
Qed.

Lemma replace_with_markdown_table_eq e h log cnt :
  replace_with_markdown_table e h (log, cnt) =
  (converted_table e (whole h),
   (log ++ table_events e (whole h),
    if negb (str_eqb (converted_table e (whole h)) (whole h))
    then S cnt else cnt)).
Proof.
  unfold replace_with_markdown_table, table_events, converted_table.
  destruct (convert_html_snippet_to_markdown e (whole h) (u "html") (u "gfm"))
    as [md log'].
  cbn [fst snd]. list_norm. reflexivity.
Qed.

(** The text that the table converter returns does not depend on the
    events before it, and its events come after them. *)
Lemma sub_fold_tables_log e : forall segs log cnt,
  fst (sub_fold (replace_with_markdown_table e) segs (log, cnt))
  = fst (sub_fold (replace_with_markdown_table e) segs ([], 0))
  /\ fst (snd (sub_fold (replace_with_markdown_table e) segs (log, cnt)))
     = log ++ fst (snd (sub_fold (replace_with_markdown_table e) segs ([], 0))).
Proof.
  induction segs as [|sg segs IH]; intros log cnt.
  - cbn. rewrite app_nil_r. split; reflexivity.
  - destruct sg as [c|h]; cbn [sub_fold].
    + destruct (IH log cnt) as [H1 H2].
      destruct (sub_fold (replace_with_markdown_table e) segs (log, cnt))
        as [out [l n]].
      destruct (sub_fold (replace_with_markdown_table e) segs ([], 0))
        as [out0 [l0 n0]].
      cbn [fst snd] in *. subst. split; reflexivity.
    + rewrite !replace_with_markdown_table_eq.
      match goal with
      | |- context [sub_fold _ segs (log ++ ?x, ?ca)] =>
          match goal with
          | |- context [sub_fold _ segs ([] ++ x, ?cb)] =>
              destruct (IH (log ++ x) ca) as [A1 A2];
              destruct (IH ([] ++ x) cb) as [B1 B2];
              destruct (sub_fold (replace_with_markdown_table e) segs (log ++ x, ca))
                as [o1 [l1 n1]];
              destruct (sub_fold (replace_with_markdown_table e) segs ([] ++ x, cb))
                as [o2 [l2 n2]]
          end
      end.
      destruct (sub_fold (replace_with_markdown_table e) segs ([], 0))
        as [o0 [l0 n0]].
      cbn [fst snd app] in *. subst. split; [reflexivity|].
      list_norm. reflexivity.
Qed.

Lemma convert_tables_found e h segs :
  fst (sub_fold (replace_with_markdown_table e) (Found h :: segs) ([], 0))
  = converted_table e (whole h)
    ++ fst (sub_fold (replace_with_markdown_table e) segs ([], 0))
  /\ fst (snd (sub_fold (replace_with_markdown_table e) (Found h :: segs) ([], 0)))
     = table_events e (whole h)
       ++ fst (snd (sub_fold (replace_with_markdown_table e) segs ([], 0))).
Proof.
  cbn [sub_fold]. rewrite replace_with_markdown_table_eq.
  match goal with
  | |- context [sub_fold _ segs (?l, ?c)] =>
      destruct (sub_fold_tables_log e segs l c) as [A1 A2];
      destruct (sub_fold (replace_with_markdown_table e) segs (l, c)) as [o1 [l1 n1]]
  end.
  destruct (sub_fold (replace_with_markdown_table e) segs ([], 0)) as [o0 [l0 n0]].
  cbn [fst snd app] in *. subst. split; reflexivity.
Qed.

Lemma convert_tables_keep e pre segs :
  fst (sub_fold (replace_with_markdown_table e) (map Keep pre ++ segs) ([], 0))
  = pre ++ fst (sub_fold (replace_with_markdown_table e) segs ([], 0))
  /\ fst (snd (sub_fold (replace_with_markdown_table e) (map Keep pre ++ segs) ([], 0)))
     = fst (snd (sub_fold (replace_with_markdown_table e) segs ([], 0))).
Proof.
  induction pre as [|c pre IH]; [split; reflexivity|].
  cbn [map app sub_fold]. destruct IH as [H1 H2].
  destruct (sub_fold (replace_with_markdown_table e) (map Keep pre ++ segs) ([], 0))
    as [o [l n]].
  destruct (sub_fold (replace_with_markdown_table e) segs ([], 0)) as [o0 [l0 n0]].
  cbn [fst snd] in *. subst. split; reflexivity.
Qed.

Lemma convert_tables_eq e text :
  convert_tables_to_markdown e text =
  (fst (sub_fold (replace_with_markdown_table e)
          (scan IGNORECASE_DOTALL table_pattern None 0 text) ([], 0)),
   fst (snd (sub_fold (replace_with_markdown_table e)
          (scan IGNORECASE_DOTALL table_pattern None 0 text) ([], 0)))).
Proof.
  unfold convert_tables_to_markdown.
  destruct (sub_fold _ _ _) as [o [l n]]. reflexivity.
Qed.

End TablesMore.

(** ** Index-term spans *)

Section Spans.

Lemma occurs_from_suffix fl r : forall a b p,
  occurs_from fl r p (a ++ b) = false ->
  occurs_from fl r (prev_after p a) b = false.
Proof.
  induction a as [|c a IH]; intros b p H; [exact H|].
  cbn [app occurs_from] in H.
  destruct (match_at fl r false p (c :: a ++ b)); [discriminate|].
  apply (IH b (Some c) H).
Qed.

Lemma occurs_from_bol_free fl r : bol_free r = true ->
  forall s p p', occurs_from fl r p s = occurs_from fl r p' s.
Proof.
  intros Hr. induction s as [|c t IH]; intros p p'; cbn [occurs_from];
    rewrite (match_at_bol_free fl r false p p' _ Hr).
  - reflexivity.
  - destruct (match_at fl r false p' (c :: t)); [reflexivity|]. apply IH.
Qed.

Lemma occurs_suffix fl r a b :
  bol_free r = true -> occurs fl r (a ++ b) = false -> occurs fl r b = false.
Proof.
  intros Hr H. unfold occurs in *. apply occurs_from_suffix in H.
  rewrite (occurs_from_bol_free fl r Hr b None (prev_after None a)). exact H.
Qed.

Lemma dot_all fl c : dotall fl = true -> cc_match fl CDot c = true.
Proof. intros H. cbn. rewrite H. reflexivity. Qed.

Lemma indexterm_span_match p sp battrs attrs c post :
  sp <> [] -> forallb is_space sp = true ->
  starts_without_space battrs -> forallb not_gt battrs = true ->
  free_of IGNORECASE_DOTALL (q "data-type=`indexterm`") battrs
    (q "data-type=`indexterm`" ++ attrs ++ u ">" ++ c ++ u "</span>" ++ post) = true ->
  forallb not_gt attrs = true ->
  free_of IGNORECASE_DOTALL (u "</span>") c (u "</span>" ++ post) = true ->
  match_at IGNORECASE_DOTALL indexterm_span_pattern false p
    (indexterm_span sp battrs attrs c ++ post) =
  Some (Hit (indexterm_span sp battrs attrs c) [(1, c)]).
Proof.
  intros Hne Hsp Hstart Hb Hfb Ha Hfc.
  unfold match_at, indexterm_span_pattern, indexterm_span.
  rewrite <- !app_assoc. rewrite m_cat_cons, m_lit_self.
  rewrite m_cat_cons. unfold plus, ws. rewrite m_rep_greedy.
  assert (E1 : span (cc_match IGNORECASE_DOTALL CSpace)
                 (sp ++ battrs ++ q "data-type=`indexterm`" ++ attrs ++ u ">"
                  ++ c ++ u "</span>" ++ post)
               = (sp, battrs ++ q "data-type=`indexterm`" ++ attrs ++ u ">"
                  ++ c ++ u "</span>" ++ post)).
  { apply span_exact; [exact Hsp|]. destruct battrs as [|x b']; [reflexivity|].
    exact Hstart. }
  erewrite (greedy_first _ 1 _ _ _ 0 _ _ sp _ E1);
    [ | destruct sp; [congruence | cbn; lia] | ].
  2:{ rewrite m_cat_cons. unfold lazy_star, notc. rewrite m_rep_lazy.
      erewrite lazy_skip; [reflexivity | | | ].
      - rewrite (forallb_pointwise _ not_gt battrs (notc_gt _)). exact Hb.
      - intros a1 a2 E Hne2. rewrite m_cat_cons, m_lit_prefix.
        rewrite (free_of_split _ _ _ _ a1 a2 Hfb E Hne2). reflexivity.
      - rewrite m_cat_cons, m_lit_self.
        rewrite m_cat_cons. unfold star. rewrite m_rep_greedy.
        rewrite (greedy_commit (cc_match IGNORECASE_DOTALL (CSet true [One 62%N])) 0 None)
          with (a := attrs) (b := u ">" ++ c ++ u "</span>" ++ post);
          [ | | | reflexivity ].
        3:{ apply span_exact.
            - rewrite (forallb_pointwise _ not_gt attrs (notc_gt _)). exact Ha.
            - change (u ">") with [62%N]. cbn [app]. rewrite notc_gt. reflexivity. }
        2:{ intros x t p0 cs Hx. rewrite m_cat_cons, m_lit_prefix.
            change (u ">") with [62%N]. cbn [lit_prefix].
            rewrite notc_gt in Hx. rewrite lit_match_gt.
            unfold not_gt in Hx. apply negb_true_iff in Hx. rewrite Hx. reflexivity. }
        cbn [Nat.leb within andb].
        rewrite m_cat_cons, m_lit_self.
        rewrite m_cat_cons, m_grp. unfold dot. rewrite m_rep_lazy.
        erewrite lazy_skip; [reflexivity | | | ].
        + apply forallb_forall. reflexivity.
        + intros a1 a2 E Hne2. unfold set_cap. cbn [rest prev caps].
          rewrite m_cat_cons, m_lit_prefix.
          rewrite (free_of_split _ _ _ _ a1 a2 Hfc E Hne2). reflexivity.
        + unfold set_cap. cbn [rest prev caps].
          rewrite m_cat_cons, m_lit_self, m_cat_nil.
          cbn [andb]. reflexivity. }
  cbn [rest caps].
  rewrite firstn_consumed.
  rewrite (firstn_consumed_eq
             (u "<span" ++ sp ++ battrs ++ q "data-type=`indexterm`" ++ attrs
              ++ u ">" ++ c ++ u "</span>") post)
    by (list_norm; reflexivity).
  reflexivity.
Qed.

End Spans.

(** ** Chapter spans *)

Section ChapterSpans.

Lemma m_lit_head fl x l k p c s cs :
  lit_match fl x c = false ->
  m fl (lit (x :: l)) k (MState p (c :: s) cs) = None.
Proof.
  intros H. rewrite m_lit_prefix. cbn [lit_prefix]. rewrite H. reflexivity.
Qed.

Lemma free_of_not_lt fl l c tail :
  forallb not_lt c = true -> free_of fl (60%N :: l) c tail = true.
Proof.
  intros H. apply free_of_no_first.
  rewrite (forallb_pointwise _ not_lt); [exact H|].
  intros y. rewrite lit_match_low by lia. reflexivity.
Qed.

Lemma chapter_span_match p sp d attrs sp2 post :
  sp <> [] -> forallb is_space sp = true ->
  d <> [] -> forallb is_digit d = true ->
  forallb not_gt attrs = true -> forallb is_space sp2 = true ->
  match_at IGNORECASE empty_span_pattern false p (chapter_span sp d attrs sp2 ++ post) =
  Some (Hit (chapter_span sp d attrs sp2) []).
Proof.
  intros Hne Hsp Hdne Hd Ha Hsp2.
  unfold match_at, empty_span_pattern, chapter_span.
  rewrite <- !app_assoc. rewrite m_cat_cons, m_lit_self.
  rewrite m_cat_cons. unfold plus at 1. unfold ws. rewrite m_rep_greedy.
  rewrite (greedy_commit (cc_match IGNORECASE CSpace) 1 None)
    with (a := sp)
         (b := q "id=`ch" ++ d ++ q ".html`" ++ attrs ++ u ">" ++ sp2
               ++ u "</span>" ++ post); [ | | | reflexivity ].
  3:{ apply span_exact; [exact Hsp | reflexivity]. }
  2:{ intros c t p0 cs Hc. cbn [cc_match] in Hc. rewrite m_cat_cons.
      change (q "id=`ch") with (105%N :: q "d=`ch").
      apply m_lit_head. apply lit_match_space; [exact Hc | reflexivity..]. }
  replace ((1 <=? 0 + length sp) && within None (0 + length sp)) with true
    by (destruct sp; [congruence | reflexivity]).
  rewrite m_cat_cons, m_lit_self.
  rewrite m_cat_cons. unfold plus, digit. rewrite m_rep_greedy.
  rewrite (greedy_commit (cc_match IGNORECASE (CSet false [Range 48%N 57%N])) 1 None)
    with (a := d)
         (b := q ".html`" ++ attrs ++ u ">" ++ sp2 ++ u "</span>" ++ post);
    [ | | | reflexivity ].
  3:{ rewrite (span_pointwise _ is_digit _ (digit_class IGNORECASE)).
      apply span_exact; [exact Hd | reflexivity]. }
  2:{ intros c t p0 cs Hc. rewrite digit_class in Hc. rewrite m_cat_cons.
      change (q ".html`") with (46%N :: q "html`").
      apply m_lit_head. rewrite lit_match_low by lia.
      apply (class_neq is_digit c 46%N Hc eq_refl). }
  replace ((1 <=? 0 + length d) && within None (0 + length d)) with true
    by (destruct d; [congruence | reflexivity]).
  rewrite m_cat_cons, m_lit_self.
  rewrite m_cat_cons. unfold star at 1. unfold notc. rewrite m_rep_greedy.
  rewrite (greedy_commit (cc_match IGNORECASE (CSet true [One 62%N])) 0 None)
    with (a := attrs) (b := u ">" ++ sp2 ++ u "</span>" ++ post);
    [ | | | reflexivity ].
  3:{ apply span_exact.
      - rewrite (forallb_pointwise _ not_gt attrs (notc_gt _)). exact Ha.
      - change (u ">") with [62%N]. cbn [app]. rewrite notc_gt. reflexivity. }
  2:{ intros x t p0 cs Hx. rewrite m_cat_cons.
      change (u ">") with [62%N]. apply m_lit_head.
      rewrite notc_gt in Hx. rewrite lit_match_gt.
      unfold not_gt in Hx. apply negb_true_iff in Hx. exact Hx. }
  cbn [Nat.leb within andb].
  rewrite m_cat_cons, m_lit_self.
  rewrite m_cat_cons. unfold star. rewrite m_rep_greedy.
  rewrite (greedy_commit (cc_match IGNORECASE CSpace) 0 None)
    with (a := sp2) (b := u "</span>" ++ post); [ | | | reflexivity ].
  3:{ apply span_exact; [exact Hsp2 | reflexivity]. }
  2:{ intros c t p0 cs Hc. cbn [cc_match] in Hc. rewrite m_cat_cons.
      change (u "</span>") with (60%N :: u "/span>").
      apply m_lit_head. rewrite lit_match_low by lia.
      apply (class_neq is_space c 60%N Hc eq_refl). }
  cbn [Nat.leb within andb].
  rewrite m_cat_cons, m_lit_self, m_cat_nil.
  cbn [andb rest caps].
  rewrite (firstn_consumed_eq
             (u "<span" ++ sp ++ q "id=`ch" ++ d ++ q ".html`" ++ attrs ++ u ">"
              ++ sp2 ++ u "</span>") post)
    by (list_norm; reflexivity).
  reflexivity.
Qed.

(** Literals are compared alike under flags that agree on IGNORECASE. *)
Lemma lit_prefix_flags fl fl' :
  ignorecase fl = ignorecase fl' ->
  forall l s, lit_prefix fl l s = lit_prefix fl' l s.
Proof.
  intros H. induction l as [|x l IH]; intros s; [reflexivity|].
  destruct s as [|c s]; [reflexivity|].
  cbn [lit_prefix]. unfold lit_match. rewrite H, IH. reflexivity.
Qed.

Lemma free_of_flags fl fl' l tail :
  ignorecase fl = ignorecase fl' ->
  forall c, free_of fl l c tail = free_of fl' l c tail.
Proof.
  intros H. induction c as [|x c IH]; [reflexivity|].
  cbn [free_of]. rewrite IH, (lit_prefix_flags fl fl' H). reflexivity.
Qed.

End ChapterSpans.

(** ** Internal links *)

Section Links.

Lemma notc_dq fl c : cc_match fl (CSet true [One dq]) c = not_dq c.
Proof.
  cbn [cc_match existsb item_match]. rewrite lit_match_low by (unfold dq; lia).
  rewrite orb_false_r. reflexivity.
Qed.

Lemma no_space_app a b : no_space (a ++ b) = no_space a && no_space b.
Proof. apply forallb_app. Qed.

(** A repetition fails when what follows it fails wherever it stops. *)
Lemma greedy_none pc lo hi k : forall s cnt p cs,
  (forall a b, s = a ++ b -> forallb pc a = true ->
     k (MState (prev_after p a) b cs) = None) ->
  greedy_spec pc lo hi k cnt p s cs = None.
Proof.
  induction s as [|c t IH]; intros cnt p cs H.
  - pose proof (H [] [] eq_refl eq_refl) as H0. cbn in H0 |- *.
    rewrite H0. destruct (lo <=? cnt); reflexivity.
  - pose proof (H [] (c :: t) eq_refl eq_refl) as H0.
    change (prev_after p []) with p in H0.
    cbn [greedy_spec]. rewrite H0.
    destruct (below hi cnt && pc c) eqn:E.
    + apply andb_prop in E as [_ E].
      rewrite IH; [destruct (lo <=? cnt); reflexivity|].
      intros a b Hab Ha. apply (H (c :: a) b); [subst; reflexivity|].
      cbn. rewrite E. exact Ha.
    + destruct (lo <=? cnt); reflexivity.
Qed.

(** The literal of the href attribute starts nowhere after its own
    start, in a tag that holds it once. *)
Lemma href_once R tl a b :
  q "href=`#" ++ R = a ++ b -> a <> [] ->
  free_of IGNORECASE (q "href=`#") R (62%N :: tl) = true ->
  lit_prefix IGNORECASE (q "href=`#") (b ++ 62%N :: tl) = false.
Proof.
  intros E Hne Hf.
  change (q "href=`#") with [104%N; 114%N; 101%N; 102%N; 61%N; 34%N; 35%N] in *.
  destruct a as [|x a]; [congruence|].
  do 6 (destruct a as [|? a];
        [cbn [app] in E; inversion E; subst; reflexivity|]).
  cbn [app] in E. inversion E as [[E1 E2 E3 E4 E5 E6 E7 E8]].
  destruct b as [|y b]; [reflexivity|].
  apply (free_of_split _ _ _ _ a (y :: b) Hf E8). discriminate.
Qed.

(** In a tag that holds [href] once, no attribute can stand before it:
    the optional group of the pattern fails.  [K] is the rest of the
    pattern, guarded against an empty group. *)
Lemma link_no_other_href (K : cont) p cs tag tl :
  forallb not_gt tag = true ->
  (forall p' cs', K (MState p' (tag ++ 62%N :: tl) cs') = None) ->
  (forall a b p' cs', tag = a ++ b -> a <> [] ->
     K (MState p' (b ++ 62%N :: tl) cs') = None) ->
  m IGNORECASE (cat [lazy_star (notc 62%N); plus ws]) K
    (MState p (tag ++ 62%N :: tl) cs) = None.
Proof.
  intros Hgt Hstart Hin.
  rewrite m_cat_cons. unfold lazy_star, notc. rewrite m_rep_lazy.
  apply lazy_none. intros a b Hab Ha.
  rewrite (forallb_pointwise _ not_gt a (notc_gt IGNORECASE)) in Ha.
  symmetry in Hab.
  destruct (prefix_split a b _ _ Hab Ha) as [b0 [Eb Ebig]].
  rewrite m_cat_cons. unfold plus, ws. rewrite m_rep_greedy.
  apply greedy_none. intros a' b' Hab' Ha'.
  rewrite m_cat_nil.
  assert (Hgt' : forallb not_gt a' = true).
  { rewrite forallb_forall in *. intros x Hx. specialize (Ha' x Hx).
    unfold not_gt. apply negb_true_iff. apply N.eqb_neq. intros ->.
    discriminate Ha'. }
  subst b. symmetry in Hab'.
  destruct (prefix_split a' b' _ _ Hab' Hgt') as [b1 [Eb' Eb0]].
  subst b' b0 tag.
  destruct a as [|x a]; [destruct a' as [|x' a']|].
  - apply Hstart.
  - apply (Hin (x' :: a') b1); [reflexivity | discriminate].
  - apply (Hin ((x :: a) ++ a') b1);
      [rewrite app_assoc; reflexivity | discriminate].
Qed.

Lemma internal_link_match p sp anchor attrs c post :
  sp <> [] -> forallb is_space sp = true ->
  forallb not_dq anchor = true -> forallb not_gt anchor = true ->
  forallb not_gt attrs = true ->
  free_of IGNORECASE (q "href=`#") (anchor ++ [dq] ++ attrs)
    (u ">" ++ c ++ u "</a>" ++ post) = true ->
  forallb not_nl c = true ->
  free_of IGNORECASE (u "</a>") c (u "</a>" ++ post) = true ->
  match_at IGNORECASE internal_link_pattern false p
    (internal_link sp anchor attrs c ++ post) =
  Some (Hit (internal_link sp anchor attrs c) [(1, c)]).
Proof.
  intros Hne Hsp Ha Hagt Ht Honce Hc Hfc.
  unfold match_at, internal_link_pattern, internal_link.
  rewrite <- !app_assoc. rewrite m_cat_cons, m_lit_self.
  rewrite m_cat_cons. unfold plus at 1. unfold ws at 1. rewrite m_rep_greedy.
  assert (E1 : span (cc_match IGNORECASE CSpace)
                 (sp ++ q "href=`#" ++ anchor ++ [dq] ++ attrs ++ u ">" ++ c
                  ++ u "</a>" ++ post)
               = (sp, q "href=`#" ++ anchor ++ [dq] ++ attrs ++ u ">" ++ c
                  ++ u "</a>" ++ post))
    by (apply span_exact; [exact Hsp | reflexivity]).
  erewrite (greedy_first _ 1 _ _ _ 0 _ _ sp _ E1);
    [ | destruct sp; [congruence | cbn; lia] | ].
  2:{ rewrite m_cat_cons, m_opt.
      assert (Etext : q "href=`#" ++ anchor ++ [dq] ++ attrs ++ u ">" ++ c
                      ++ u "</a>" ++ post
                      = (q "href=`#" ++ anchor ++ [dq] ++ attrs)
                        ++ 62%N :: c ++ u "</a>" ++ post)
        by (list_norm; reflexivity).
      rewrite Etext.
      rewrite link_no_other_href.
      2:{ change (q "href=`#") with [104%N; 114%N; 101%N; 102%N; 61%N; 34%N; 35%N].
          cbn [app forallb not_gt ceqb N.eqb Pos.eqb negb andb].
          rewrite forallb_app, Hagt. cbn [forallb andb]. rewrite Ht.
          reflexivity. }
      2:{ intros p' cs'. cbn [rest]. rewrite Nat.ltb_irrefl. reflexivity. }
      2:{ intros a b p' cs' Eab Hane. cbn [rest].
          match goal with |- (if ?g then _ else _) = None => destruct g end;
            [|reflexivity].
          rewrite m_cat_cons, m_lit_prefix.
          rewrite (href_once _ _ a b Eab Hane Honce). reflexivity. }
      rewrite <- Etext.
      rewrite m_cat_cons, m_lit_self.
      rewrite m_cat_cons. unfold star at 1. unfold notc at 1. rewrite m_rep_greedy.
      rewrite (greedy_commit (cc_match IGNORECASE (CSet true [One dq])) 0 None)
        with (a := anchor) (b := [dq] ++ attrs ++ u ">" ++ c ++ u "</a>" ++ post);
        [ | | | reflexivity ].
      3:{ apply span_exact.
          - rewrite (forallb_pointwise _ not_dq anchor (notc_dq _)). exact Ha.
          - cbn [app]. rewrite notc_dq. reflexivity. }
      2:{ intros x t p0 cs Hx. rewrite m_cat_cons. apply m_lit_head.
          rewrite notc_dq in Hx. rewrite lit_match_low by (unfold dq; lia).
          unfold not_dq in Hx. apply negb_true_iff in Hx. exact Hx. }
      cbn [Nat.leb within andb].
      rewrite m_cat_cons, m_lit_self.
      rewrite m_cat_cons. unfold star. unfold notc. rewrite m_rep_greedy.
      rewrite (greedy_commit (cc_match IGNORECASE (CSet true [One 62%N])) 0 None)
        with (a := attrs) (b := u ">" ++ c ++ u "</a>" ++ post);
        [ | | | reflexivity ].
      3:{ apply span_exact.
          - rewrite (forallb_pointwise _ not_gt attrs (notc_gt _)). exact Ht.
          - change (u ">") with [62%N]. cbn [app]. rewrite notc_gt. reflexivity. }
      2:{ intros x t p0 cs Hx. rewrite m_cat_cons.
          change (u ">") with [62%N]. apply m_lit_head.
          rewrite notc_gt in Hx. rewrite lit_match_gt.
          unfold not_gt in Hx. apply negb_true_iff in Hx. exact Hx. }
      cbn [Nat.leb within andb].
      rewrite m_cat_cons, m_lit_self.
      rewrite m_cat_cons, m_grp. unfold lazy_star, dot. rewrite m_rep_lazy.
      erewrite lazy_skip; [reflexivity | | | ].
      - rewrite (forallb_pointwise _ not_nl c); [exact Hc | reflexivity].
      - intros a1 a2 E Hne2. unfold set_cap. cbn [rest prev caps].
        rewrite m_cat_cons, m_lit_prefix.
        rewrite (free_of_split _ _ _ _ a1 a2 Hfc E Hne2). reflexivity.
      - unfold set_cap. cbn [rest prev caps].
        rewrite m_cat_cons, m_lit_self, m_cat_nil.
        cbn [andb]. reflexivity. }
  cbn [rest caps].
  rewrite firstn_consumed.
  rewrite (firstn_consumed_eq
             (u "<a" ++ sp ++ q "href=`#" ++ anchor ++ [dq] ++ attrs ++ u ">" ++ c
              ++ u "</a>") post)
    by (list_norm; reflexivity).
  reflexivity.
Qed.

End Links.

(** ** The converter when pandoc succeeds *)

Section SnippetSuccess.

Lemma table_id_no_match p s :
  forallb not_lbrace s = true ->
  match_at MULTILINE table_id_pattern false p s = None.
Proof.
  intros H. unfold match_at, table_id_pattern.
  rewrite m_cat_cons. unfold star, ws. rewrite m_rep_greedy.
  destruct (span is_space s) as [a b] eqn:Es.
  rewrite (greedy_commit (cc_match MULTILINE CSpace) 0 None) with (a := a) (b := b);
    [ | | exact Es | reflexivity ].
  - replace ((0 <=? 0 + length a) && within None (0 + length a)) with true
      by reflexivity.
    rewrite m_cat_cons. change (u "{#") with (123%N :: u "#").
    rewrite m_lit_first_lines; [reflexivity|].
    rewrite (span_app _ _ _ _ Es), forallb_app in H.
    apply andb_prop in H as [_ Hb]. destruct b as [|c b']; [reflexivity|].
    cbn in Hb |- *. apply andb_prop in Hb as [Hc _].
    unfold not_lbrace in Hc. apply negb_true_iff in Hc. exact Hc.
  - intros c t p0 cs Hc. cbn [cc_match] in Hc. rewrite m_cat_cons.
    change (u "{#") with (123%N :: u "#").
    apply m_lit_first_lines. apply first_is_space; [reflexivity | exact Hc].
Qed.

Lemma table_id_absent s :
  forallb not_lbrace s = true -> sub MULTILINE table_id_pattern [] s = s.
Proof.
  intros H. apply sub_no_occurrence. unfold occurs.
  generalize (@None N). induction s as [|c t IH]; intros p; cbn [occurs_from];
    rewrite (table_id_no_match p _ H).
  - reflexivity.
  - apply IH. cbn in H. apply andb_prop in H as [_ H]. exact H.
Qed.

End SnippetSuccess.

(** ** Patterns whose matches start with a literal *)

Section HeadLiteral.
Variable fl : flags.
Variable r : regex.
Variable l : str.
Hypothesis Hhead : forall adv p s,
  lit_prefix fl l s = false -> match_at fl r adv p s = None.
Hypothesis Hbol : bol_free r = true.

Lemma scan_free_of_head pre s p :
  free_of fl l pre s = true ->
  scan fl r p 0 (pre ++ s) = map Keep pre ++ scan fl r (prev_after p pre) 0 s.
Proof.
  intros H. apply scan_unmatched. intros a b E Hne.
  apply Hhead. apply (free_of_split fl l pre s a b H E Hne).
Qed.

Lemma sub_first_head repl pre X post h :
  free_of fl l pre (X ++ post) = true ->
  match_at fl r false None (X ++ post) = Some h ->
  whole h = X -> X <> [] ->
  sub_with fl r repl (pre ++ X ++ post) =
  pre ++ repl h ++ sub_with fl r repl post.
Proof.
  intros Hpre Hm Hw HX. unfold sub_with.
  rewrite (scan_free_of_head pre (X ++ post) None Hpre).
  rewrite (match_at_bol_free fl _ false None (prev_after None pre) _ Hbol) in Hm.
  rewrite (scan_found fl _ _ X post h Hm Hw HX).
  rewrite flat_map_app, flat_map_keep. cbn [flat_map].
  rewrite (scan_bol_free fl _ Hbol post _ None). reflexivity.
Qed.

Lemma sub_free_of repl s :
  l <> [] -> free_of fl l s [] = true -> sub_with fl r repl s = s.
Proof.
  intros Hne H. unfold sub_with.
  rewrite <- (app_nil_r s) at 1.
  rewrite (scan_free_of_head s [] None H).
  rewrite scan_nil.
  - rewrite app_nil_r. apply flat_map_keep.
  - apply Hhead. destruct l; [congruence | reflexivity].
Qed.

End HeadLiteral.

Section FreeOf.
Variable fl : flags.

(** A text that does not hold [l] still does not when followed by a
    character that no character of [l] after the first matches. *)
Lemma lit_prefix_guard x tail : forall l b,
  forallb (fun y => negb (lit_match fl y x)) l = true ->
  b <> [] \/ l = [] -> 
  lit_prefix fl l (b ++ x :: tail) = true -> lit_prefix fl l b = true.
Proof.
  induction l as [|y l IH]; intros b Hg Hb H; [reflexivity|].
  destruct b as [|c b].
  - destruct Hb as [Hb|Hb]; congruence.
  - cbn [app lit_prefix] in H |- *. apply andb_prop in H as [H1 H2].
    rewrite H1. cbn [andb]. cbn in Hg. apply andb_prop in Hg as [Hy Hg].
    destruct b as [|c2 b].
    + destruct l as [|y2 l]; [reflexivity|].
      cbn [app lit_prefix] in H2. apply andb_prop in H2 as [H3 _].
      cbn in Hg. apply andb_prop in Hg as [Hy2 _].
      rewrite H3 in Hy2. discriminate.
    + apply (IH (c2 :: b) Hg); [left; discriminate | exact H2].
Qed.

Lemma free_of_guard x l0 l tail : forall c,
  forallb (fun y => negb (lit_match fl y x)) l = true ->
  free_of fl (l0 :: l) c [] = true ->
  free_of fl (l0 :: l) c (x :: tail) = true.
Proof.
  induction c as [|y c IH]; intros Hg H; [reflexivity|].
  cbn [free_of] in H |- *. apply andb_prop in H as [H1 H2].
  rewrite (IH Hg H2), andb_true_r. apply negb_true_iff in H1.
  apply negb_true_iff. rewrite app_nil_r in H1.
  destruct (lit_prefix fl (l0 :: l) ((y :: c) ++ x :: tail)) eqn:E; [|reflexivity].
  cbn [app lit_prefix] in E, H1. apply andb_prop in E as [E1 E2].
  rewrite E1 in H1. cbn [andb] in H1.
  destruct c as [|c1 c].
  - destruct l as [|y2 l]; [discriminate H1|].
    cbn [app lit_prefix] in E2. apply andb_prop in E2 as [E3 _].
    cbn in Hg. apply andb_prop in Hg as [Hy2 _]. rewrite E3 in Hy2. discriminate.
  - rewrite (lit_prefix_guard x tail l (c1 :: c) Hg) in H1;
      [discriminate | left; discriminate | exact E2].
Qed.

End FreeOf.

(** ** Figure captions *)

Section FigureCaptions.

Lemma h6_open_match p ha tl :
  forallb not_gt ha = true ->
  match_at IGNORECASE h6_open_pattern false p ((u "<h6" ++ ha ++ u ">") ++ tl) =
  Some (Hit (u "<h6" ++ ha ++ u ">") [(1, ha)]).
Proof.
  intros Ha. unfold match_at, h6_open_pattern.
  rewrite <- !app_assoc. rewrite m_cat_cons, m_lit_self.
  rewrite m_cat_cons, m_grp. unfold star, notc. rewrite m_rep_greedy.
  rewrite (greedy_commit (cc_match IGNORECASE (CSet true [One 62%N])) 0 None)
    with (a := ha) (b := u ">" ++ tl); [ | | | reflexivity ].
  3:{ apply span_exact.
      - rewrite (forallb_pointwise _ not_gt ha (notc_gt _)). exact Ha.
      - change (u ">") with [62%N]. cbn [app]. rewrite notc_gt. reflexivity. }
  2:{ intros x t p0 cs Hx. unfold set_cap. cbn [rest prev caps].
      rewrite m_cat_cons. change (u ">") with [62%N]. apply m_lit_head.
      rewrite notc_gt in Hx. rewrite lit_match_gt.
      unfold not_gt in Hx. apply negb_true_iff in Hx. exact Hx. }
  cbn [Nat.leb within andb]. unfold set_cap. cbn [rest prev caps].
  rewrite m_cat_cons, m_lit_self, m_cat_nil. cbn [andb rest caps].
  rewrite firstn_consumed.
  rewrite (firstn_consumed_eq (u "<h6" ++ ha ++ u ">") tl)
    by (list_norm; reflexivity).
  reflexivity.
Qed.

Lemma h6_close_head adv p s :
  lit_prefix IGNORECASE (u "</h6>") s = false ->
  match_at IGNORECASE h6_close_pattern adv p s = None.
Proof.
  intros H. unfold match_at, h6_close_pattern. rewrite m_lit_prefix, H. reflexivity.
Qed.

Lemma h6_close_match p tl :
  match_at IGNORECASE h6_close_pattern false p (u "</h6>" ++ tl) =
  Some (Hit (u "</h6>") []).
Proof.
  unfold match_at, h6_close_pattern. rewrite m_lit_self. cbn [andb rest caps].
  rewrite firstn_consumed. reflexivity.
Qed.

Lemma no_h6_open s tl :
  no_h6 s = true -> free_of IGNORECASE (u "<h6") s (60%N :: tl) = true.
Proof.
  intros H. apply andb_prop in H as [H _].
  apply (free_of_guard IGNORECASE 60%N 60%N (u "h6")); [reflexivity | exact H].
Qed.

Lemma no_h6_close s tl :
  no_h6 s = true -> free_of IGNORECASE (u "</h6>") s (60%N :: tl) = true.
Proof.
  intros H. apply andb_prop in H as [_ H].
  apply (free_of_guard IGNORECASE 60%N 60%N (u "/h6>")); [reflexivity | exact H].
Qed.

Lemma h6_to_figcaption_caption c1 ha cap c2 :
  no_h6 c1 = true -> forallb not_gt ha = true -> forallb not_lt ha = true ->
  no_h6 cap = true -> no_h6 c2 = true ->
  h6_to_figcaption (captioned_content c1 ha cap c2) = figcaption_content c1 ha cap c2.
Proof.
  intros H1 Hgt Hlt Hcap H2.
  unfold h6_to_figcaption, captioned_content, figcaption_content, sub.
  replace (c1 ++ u "<h6" ++ ha ++ u ">" ++ cap ++ u "</h6>" ++ c2)
    with (c1 ++ (u "<h6" ++ ha ++ u ">") ++ (cap ++ u "</h6>" ++ c2))
    by (list_norm; reflexivity).
  unfold h6_open_pattern at 1.
  assert (F1 : free_of IGNORECASE (u "<h6") c1
                 ((u "<h6" ++ ha ++ u ">") ++ cap ++ u "</h6>" ++ c2) = true)
    by exact (no_h6_open c1 _ H1).
  rewrite (sub_first IGNORECASE (u "<h6") [Grp 1 (star (notc 62%N)); lit (u ">")]
             _ c1 (u "<h6" ++ ha ++ u ">") (cap ++ u "</h6>" ++ c2) _ eq_refl
             F1 (h6_open_match None ha _ Hgt) eq_refl)
    by discriminate.
  rewrite (sub_free_of IGNORECASE _ (u "<h6")
             (fun adv p s => match_at_lit IGNORECASE (u "<h6") _ adv p s));
    [ | discriminate | ].
  2:{ apply free_of_app.
      - rewrite app_nil_r. exact (no_h6_open cap _ Hcap).
      - apply free_of_app; [reflexivity|].
        apply andb_prop in H2 as [H2 _]. exact H2. }
  cbn [expand flat_map group groups lookup Nat.eqb]. rewrite app_nil_r.
  replace (c1 ++ (u "<figcaption" ++ ha ++ u ">") ++ cap ++ u "</h6>" ++ c2)
    with ((c1 ++ (u "<figcaption" ++ ha ++ u ">") ++ cap) ++ u "</h6>" ++ c2)
    by (list_norm; reflexivity).
  rewrite (sub_first_head IGNORECASE h6_close_pattern (u "</h6>") h6_close_head
             eq_refl _ (c1 ++ (u "<figcaption" ++ ha ++ u ">") ++ cap)
             (u "</h6>") c2 (Hit (u "</h6>") []));
    [ | | apply h6_close_match | reflexivity | discriminate ].
  - rewrite (sub_free_of IGNORECASE h6_close_pattern (u "</h6>") h6_close_head);
      [ | discriminate | apply andb_prop in H2 as [_ H2]; exact H2 ].
    cbn [expand flat_map]. list_norm. reflexivity.
  - apply free_of_app; [exact (no_h6_close c1 _ H1)|].
    apply free_of_app; [|exact (no_h6_close cap _ Hcap)].
    apply free_of_app; [reflexivity|].
    apply free_of_app; [|reflexivity].
    apply free_of_not_lt. exact Hlt.
Qed.

Lemma figure_head adv p s :
  lit_prefix IGNORECASE_DOTALL (u "<figure") s = false ->
  match_at IGNORECASE_DOTALL figure_pattern adv p s = None.
Proof.
  intros H. unfold match_at, figure_pattern.
  rewrite m_cat_cons, m_grp, m_cat_cons, m_lit_prefix, H. reflexivity.
Qed.

End FigureCaptions.

(** ** Image lines and caption lines *)

Section Captions.

Lemma m_star_skip fl a k st :
  (forall K, m fl a K st = None) -> m fl (star a) k st = k st.
Proof.
  intros H. unfold star. cbn [m rep_loop].
  change (below None 0) with true. cbv iota. rewrite H. reflexivity.
Qed.

Lemma notc_rbracket c :
  cc_match MULTILINE (CSet true [One 93%N]) c = not_rbracket c.
Proof. cbn. rewrite orb_false_r. reflexivity. Qed.

Lemma space_prefix_inside : forall w b a2 z post,
  w ++ b = (a2 ++ [z]) ++ post -> forallb is_space w = true ->
  is_space z = false ->
  exists a3, b = (a3 ++ [z]) ++ post.
Proof.
  induction w as [|c w IH]; intros b a2 z post E Hw Hz.
  - exists a2. exact E.
  - cbn in Hw. apply andb_prop in Hw as [Hc Hw].
    destruct a2 as [|y a2].
    + cbn in E. inversion E; subst. congruence.
    + cbn in E. inversion E; subst. apply (IH b a2 z post); assumption.
Qed.

Lemma caption_end p post cs :
  next_line_text post = true ->
  m MULTILINE (cat [star ws; Eol]) (fun st => Some st) (MState p post cs)
  = Some (MState p post cs).
Proof.
  intros H. rewrite m_cat_cons. unfold star, ws. rewrite m_rep_greedy.
  destruct post as [|c [|y t]]; cbn [next_line_text] in H.
  - reflexivity.
  - rewrite andb_false_r in H. discriminate.
  - apply andb_prop in H as [Hc Hy]. apply ceqb_eq in Hc. subst c.
    apply negb_true_iff in Hy.
    apply (greedy_back_one (cc_match MULTILINE CSpace) 0 _ _ nl (y :: t) [] 0 p cs);
      [reflexivity | reflexivity | exact Hy | lia | | reflexivity].
    rewrite m_cat_cons. cbn [m at_eol rest].
    replace (ceqb y nl) with false; [reflexivity|].
    symmetry. apply (class_neq (fun c => negb (is_space c)) y nl);
      [rewrite Hy; reflexivity | reflexivity].
Qed.

Lemma caption_inside p a3 z post cs :
  forallb not_nl (a3 ++ [z]) = true -> is_space z = false ->
  m MULTILINE (cat [star ws; Eol]) (fun st => Some st)
    (MState p ((a3 ++ [z]) ++ post) cs) = None.
Proof.
  intros Hnl Hz. rewrite m_cat_cons. unfold star, ws. rewrite m_rep_greedy.
  apply greedy_none. intros w b E Hw.
  destruct (space_prefix_inside w b a3 z post (eq_sym E) Hw Hz) as [a4 Eb].
  subst b. rewrite m_cat_cons. cbn [m at_eol rest].
  assert (H4 : forallb not_nl (a4 ++ [z]) = true).
  { rewrite (app_assoc w) in E. apply app_inv_tail in E.
    rewrite E, forallb_app in Hnl. apply andb_prop in Hnl as [_ Hnl]. exact Hnl. }
  destruct a4 as [|y a4]; cbn [app] in H4 |- *; cbn in H4;
    apply andb_prop in H4 as [Hy _]; unfold not_nl in Hy;
    apply negb_true_iff in Hy; unfold at_eol; cbn [rest]; rewrite Hy;
    reflexivity.
Qed.

End Captions.

(** ** The match of an image with its caption *)

Section CaptionMatch.

Lemma ends_without_space_split cap :
  ends_without_space cap -> cap = [] \/ exists a z, cap = a ++ [z] /\ is_space z = false.
Proof.
  unfold ends_without_space. intros H.
  destruct cap as [|c cap]; [left; reflexivity|]. right.
  destruct (@exists_last _ (c :: cap)) as (a & z & E); [discriminate|].
  exists a, z. split; [exact E|]. rewrite E, rev_app_distr in H. exact H.
Qed.

Lemma caption_line_match k r p cs sp cap post :
  forallb is_space sp = true -> starts_without_space (cap ++ post) ->
  forallb not_nl cap = true -> ends_without_space cap ->
  next_line_text post = true ->
  (forall st, k st = Some st) ->
  r = MState (prev_after p (sp ++ cap)) post ((4, cap) :: cs) ->
  m MULTILINE (cat [star ws; Grp 4 (lazy_star dot); star ws; Eol]) k
    (MState p (sp ++ cap ++ post) cs) = Some r.
Proof.
  intros Hsp Hstart Hnl Hend Hpost Hk ->.
  rewrite m_cat_cons. unfold star at 1. unfold ws at 1. rewrite m_rep_greedy.
  assert (E1 : span (cc_match MULTILINE CSpace) (sp ++ cap ++ post)
               = (sp, cap ++ post)).
  { apply span_exact; [exact Hsp|]. destruct (cap ++ post); [exact I | exact Hstart]. }
  erewrite (greedy_first _ 0 _ _ _ 0 _ _ sp (cap ++ post) E1); [reflexivity | lia | ].
  rewrite m_cat_cons, m_grp. unfold lazy_star, dot. rewrite m_rep_lazy.
  assert (Hkk : forall st,
            m MULTILINE (cat [star ws; Eol]) k st
            = m MULTILINE (cat [star ws; Eol]) (fun st => Some st) st).
  { intros st. apply m_ext. exact Hk. }
  erewrite lazy_skip; [reflexivity | | | ].
  - rewrite (forallb_pointwise _ not_nl cap); [exact Hnl | reflexivity].
  - intros a1 a2 E Hne. unfold set_cap. cbn [rest prev caps]. rewrite Hkk.
    destruct (ends_without_space_split cap Hend) as [->|(a & z & Ecap & Hz)].
    + destruct a1, a2; try discriminate. congruence.
    + assert (Ha2 : exists a3, a2 = a3 ++ [z]).
      { destruct (@exists_last _ a2 Hne) as (a3 & z' & E2). exists a3.
        rewrite E2 in E. rewrite Ecap in E. rewrite app_assoc in E.
        apply app_inj_tail in E as [_ Ez]. subst z'. exact E2. }
      destruct Ha2 as (a3 & ->).
      apply caption_inside; [|exact Hz].
      rewrite E, forallb_app in Hnl. apply andb_prop in Hnl as [_ Hnl]. exact Hnl.
  - unfold set_cap. cbn [rest prev caps]. rewrite Hkk.
    rewrite (caption_end _ post _ Hpost). rewrite firstn_consumed.
    rewrite prev_after_app. reflexivity.
Qed.

Lemma blank_lines_none k p tl cs :
  m MULTILINE (star (cat [Bol; star ws; lit [nl]])) k (MState p (35%N :: tl) cs)
  = k (MState p (35%N :: tl) cs).
Proof.
  apply m_star_skip. intros K. rewrite m_cat_cons. cbn [m].
  destruct (at_bol MULTILINE _); [|reflexivity].
  rewrite m_cat_cons. unfold star, ws. rewrite m_rep_greedy.
  cbn [greedy_spec below andb cc_match]. change (is_space 35%N) with false.
  cbv iota. cbn [Nat.leb]. rewrite m_cat_cons. apply m_lit_first_lines. reflexivity.
Qed.

Lemma figure_caption_match p alt x folder file sp cap post :
  line_start p = true ->
  forallb not_rbracket alt = true -> not_nl x = true ->
  file <> [] -> forallb not_rparen file = true ->
  forallb is_space sp = true -> starts_without_space (cap ++ post) ->
  forallb not_nl cap = true -> ends_without_space cap ->
  next_line_text post = true ->
  match_at MULTILINE (figure_caption_pattern folder) false p
    (image_with_caption alt x folder file sp cap ++ post) =
  Some (Hit (image_with_caption alt x folder file sp cap)
            [(4, cap); (3, file); (2, u "/"); (1, alt)]).
Proof.
  intros Hp Halt Hx Hfne Hfile Hsp Hstart Hnl Hend Hpost.
  unfold match_at, figure_caption_pattern, image_with_caption.
  rewrite m_cat_cons. cbn [m].
  replace (at_bol MULTILINE _) with (line_start p) by (destruct p; reflexivity).
  rewrite Hp. rewrite <- !app_assoc.
  rewrite m_cat_cons, m_lit_self.
  rewrite m_cat_cons, m_grp. unfold star at 1. unfold notc at 1. rewrite m_rep_greedy.
  rewrite (greedy_commit (cc_match MULTILINE (CSet true [One 93%N])) 0 None)
    with (a := alt)
         (b := u "](" ++ [x] ++ u "/" ++ folder ++ u "/" ++ file ++ u ")" ++ [nl]
               ++ u "######" ++ sp ++ cap ++ post); [ | | | reflexivity ].
  3:{ rewrite (span_pointwise _ not_rbracket _ notc_rbracket).
      apply span_exact; [exact Halt | reflexivity]. }
  2:{ intros c t p0 cs0 Hc. rewrite notc_rbracket in Hc.
      unfold set_cap. cbn [rest prev caps]. rewrite m_cat_cons.
      change (u "](") with (93%N :: u "(").
      apply m_lit_first_lines. cbn. unfold not_rbracket in Hc.
      apply negb_true_iff in Hc. exact Hc. }
  cbn [Nat.leb within andb]. unfold set_cap at 1. cbn [rest prev caps].
  rewrite m_cat_cons, m_lit_self.
  rewrite m_cat_cons. unfold dot at 1. cbn [app]. rewrite m_chr.
  replace (cc_match MULTILINE CDot x) with true by (symmetry; exact Hx).
  rewrite m_cat_cons, m_grp.
  change (47%N :: folder ++ u "/" ++ file ++ u ")" ++ nl :: u "######" ++ sp ++ cap ++ post)
    with (u "/" ++ folder ++ u "/" ++ file ++ u ")" ++ [nl] ++ u "######" ++ sp
          ++ cap ++ post).
  rewrite m_lit_self. unfold set_cap at 1. cbn [rest prev caps].
  rewrite m_cat_cons, m_lit_self. rewrite m_cat_cons, m_lit_self.
  rewrite m_cat_cons, m_grp. unfold plus, notc. rewrite m_rep_greedy.
  rewrite (greedy_commit (cc_match MULTILINE (CSet true [One 41%N])) 1 None)
    with (a := file) (b := u ")" ++ [nl] ++ u "######" ++ sp ++ cap ++ post);
    [ | | | reflexivity ].
  3:{ rewrite (span_pointwise _ not_rparen _ notc_rparen).
      apply span_exact; [exact Hfile | reflexivity]. }
  2:{ intros c t p0 cs0 Hc. rewrite notc_rparen in Hc.
      unfold set_cap. cbn [rest prev caps]. rewrite m_cat_cons.
      change (u ")") with [41%N].
      apply m_lit_first_lines. cbn. unfold not_rparen in Hc.
      apply negb_true_iff in Hc. exact Hc. }
  replace ((1 <=? 0 + length file) && within None (0 + length file)) with true
    by (destruct file; [congruence | reflexivity]).
  unfold set_cap at 1. cbn [rest prev caps].
  rewrite m_cat_cons, m_lit_self.
  rewrite m_cat_cons. unfold star at 1. unfold ws at 1. rewrite m_rep_greedy.
  erewrite (greedy_back_one (cc_match MULTILINE CSpace) 0 _ _ nl
              (u "######" ++ sp ++ cap ++ post) [] 0);
    [ | reflexivity | reflexivity | reflexivity | lia | | ].
  3:{ cbn [app prev_after fold_left].
      rewrite m_cat_cons.
      change (nl :: u "######" ++ sp ++ cap ++ post)
        with ([nl] ++ u "######" ++ sp ++ cap ++ post).
      rewrite m_lit_self.
      rewrite m_cat_cons.
      change (u "######" ++ sp ++ cap ++ post)
        with (35%N :: u "#####" ++ sp ++ cap ++ post) at 1.
      rewrite blank_lines_none.
      rewrite m_cat_cons. cbn [m at_bol prev prev_after fold_left multiline MULTILINE].
      change (ceqb nl nl) with true. cbn [andb].
      change (35%N :: u "#####" ++ sp ++ cap ++ post)
        with (u "######" ++ sp ++ cap ++ post).
      rewrite m_cat_cons, m_lit_self.
      apply (caption_line_match _ _ _ _ sp cap post Hsp Hstart Hnl Hend Hpost).
      - intros st. reflexivity.
      - reflexivity. }
  2:{ cbn [app]. rewrite m_cat_cons. apply m_lit_first_lines. reflexivity. }
  cbn [rest caps].
  rewrite !firstn_consumed.
  rewrite (firstn_consumed_eq
             (u "![" ++ alt ++ u "](" ++ x :: u "/" ++ folder ++ u "/" ++ file
              ++ u ")" ++ nl :: u "######" ++ sp ++ cap) post)
    by (list_norm; reflexivity).
  reflexivity.
Qed.

Lemma next_line_text_line_end post : next_line_text post = true -> line_end post = true.
Proof.
  destruct post as [|c t]; [reflexivity|]. cbn. intros H.
  apply andb_prop in H as [H _]. exact H.
Qed.

End CaptionMatch.

(** ** Lines that are not headers *)

Section OtherLines.

(** Without a hash at the start of the line, the general header rule
    does not apply. *)
Lemma general_header_no_hash line :
  first_is 35%N line = false ->
  re_match NOFLAGS general_header_pattern line = None.
Proof.
  intros H. unfold re_match, match_at, general_header_pattern.
  rewrite m_cat_cons. cbn [m at_bol prev]. cbv iota.
  rewrite m_cat_cons, m_grp. unfold times, hash. rewrite m_rep_greedy.
  destruct line as [|x t].
  - reflexivity.
  - rewrite greedy_stuck; [reflexivity | | lia].
    rewrite hash_class_plain. exact H.
Qed.

Lemma adjust_line_no_hash line :
  first_is 35%N line = false ->
  str_eqb (strip line) (u "# Chapter Goals") = false ->
  adjust_line line = line.
Proof.
  intros H Hg. unfold adjust_line.
  rewrite example_prefix_none.
  2:{ destruct line as [|x t]; [reflexivity|].
      change (u "#####") with (35%N :: u "####").
      apply lit_prefix_first. exact H. }
  rewrite Hg.
  destruct (re_match NOFLAGS chapter_header_pattern (strip line)); [reflexivity|].
  rewrite (general_header_no_hash line H). reflexivity.
Qed.

End OtherLines.

(** * Examples

    The passes on small texts. *)

Example smart_quotes_example :
  convert_smart_quotes [ldquo; 97%N; rdquo; 32%N; lsquo; 98%N; rsquo]
  = [dq; 97%N; dq; 32%N; 39%N; 98%N; 39%N].
Proof. vm_compute. reflexivity. Qed.

Example footnote_definition_example :
  fix_footnote_definitions (u "^([3](#fn3)) Some text") = u "[^3]: Some text".
Proof. vm_compute. reflexivity. Qed.

Example superscript_footnote_example :
  convert_superscript_footnotes (u "<sup>[3](#fn3)</sup> Some text")
  = u "[^3]: Some text".
Proof. vm_compute. reflexivity. Qed.

Example admonition_example :
  convert_h6_to_blockquote (u "###### Tip" ++ [nl] ++ u "###### Notes")
  = u "[!Tip]" ++ [nl] ++ u "###### Notes".
Proof. vm_compute. reflexivity. Qed.

Example figure_normalizer_example :
  process_html_figures (q "<figure class=`x`><h6 id=`y`>Cap</h6></figure>")
  = u "<figure>" ++ [nl] ++ q "<figcaption id=`y`>Cap</figcaption>" ++ [nl]
    ++ u "</figure>".
Proof. vm_compute. reflexivity. Qed.

Example figure_caption_example :
  convert_image_captions_to_figures
    (u "![a](./assets/x.png)" ++ [nl; nl] ++ u "###### See [this](u)")
    (u "assets")
  = u "<figure>" ++ [nl]
    ++ q "  <img src=`./assets/x.png` alt=`a` />" ++ [nl]
    ++ q "  <figcaption>See <a href=`u`>this</a></figcaption>" ++ [nl]
    ++ u "</figure>" ++ [nl].
Proof. vm_compute. reflexivity. Qed.

Example span_stripper_example :
  remove_unwanted_spans
    (q "a<span id=`ch12.html`> </span>b<SPAN data-type=`indexterm`>c</span>")
  = u "abc".
Proof. vm_compute. reflexivity. Qed.

Example internal_link_example :
  convert_internal_links_to_text
    (q "see <a data-type=`xref` href=`#sec`>Section 1</a>")
  = u "see Section 1".
Proof. vm_compute. reflexivity. Qed.

Example blockquoted_header_example :
  normalize_blockquoted_headers (u "> # title" ++ [nl] ++ u ">###### x")
  = u "> ### title" ++ [nl] ++ u ">### x".
Proof. vm_compute. reflexivity. Qed.

Example table_converted_example :
  fst (convert_tables_to_markdown
         (Env [] (fun _ => true)
            (fun _ _ => Completed 0 (u "| a |" ++ [nl] ++ u "|---| {#tab-1}" ++ [nl]) [])
            (fun _ => ReadNotFound) (fun _ _ => None))
         (u "x<table><tr><td>a</td></tr></table>y"))
  = u "x| a |" ++ [nl] ++ u "|---|y".
Proof. vm_compute. reflexivity. Qed.

(** * The statements of the specification *)

(** ** C1: the table converter when pandoc fails *)

(** C1.  The code departs from the specification here: when the
    converter invocation fails, the table block is not returned as it
    was: the paragraph tags have been stripped from [html_snippet] before pandoc is run, and the fallback returns that
    stripped snippet.  For the block [<table><p>x</p></table>] the output
    is [<table>x</table>], whatever the failure. *)
Theorem convert_tables_failure_returns_stripped_block (e : env) :
  (forall cmd input, failed (subprocess_run e cmd input) = true) ->
  fst (convert_tables_to_markdown e table_with_paragraph) = u "<table>x</table>"
  /\ fst (convert_tables_to_markdown e table_with_paragraph)
     <> table_with_paragraph.
Proof.
  intros H.
  assert (E : fst (convert_tables_to_markdown e table_with_paragraph)
              = u "<table>x</table>").
  { unfold convert_tables_to_markdown.
    replace (scan IGNORECASE_DOTALL table_pattern None 0 table_with_paragraph)
      with [Found (Hit table_with_paragraph [])] by (vm_compute; reflexivity).
    cbn [sub_fold]. unfold replace_with_markdown_table.
    cbn [whole]. unfold convert_html_snippet_to_markdown.
    replace (sub DOTALL paragraph_pattern [G 1] table_with_paragraph)
      with (u "<table>x</table>") by (vm_compute; reflexivity).
    destruct (path_exists e (LUA_TABLE_FLATTENER_FILTER e));
    match goal with |- context [subprocess_run e ?c ?i] =>
      specialize (H c i); destruct (subprocess_run e c i) as [rc out err| |ex]
    end;
    cbn [failed] in H; try (destruct (rc =? 0)%Z; [discriminate H|]);
    reflexivity. }
  split; [exact E|]. rewrite E. discriminate.
Qed.

Lemma convert_tables_failure_returns_stripped_block_witness :
  (forall cmd input,
     failed (subprocess_run (env_without_pandoc [] []) cmd input) = true)
  /\ fst (convert_tables_to_markdown (env_without_pandoc [] [])
            table_with_paragraph) = u "<table>x</table>"
  /\ fst (convert_tables_to_markdown (env_without_pandoc [] [])
            table_with_paragraph) <> table_with_paragraph.
Proof.
  split; [intros cmd input; reflexivity|].
  apply (convert_tables_failure_returns_stripped_block (env_without_pandoc [] [])).
  intros cmd input. reflexivity.
Defined.

(** ** C2: texts without any recognized pattern *)

(** C2: a counterexample to the statement of the specification.  The text
    [abc] followed by a newline holds none of the header adjuster's patterns, and the header adjuster returns
    [abc] without the newline. *)
Lemma adjust_headers_drops_final_newline :
  recognized default_media_folder AdjustHeaders (u "abc" ++ [nl]) = false
  /\ adjust_headers (u "abc" ++ [nl]) = u "abc"
  /\ adjust_headers (u "abc" ++ [nl]) <> u "abc" ++ [nl].
Proof.
  split; [vm_compute; reflexivity|].
  split; [vm_compute; reflexivity|].
  vm_compute. discriminate.
Qed.

(** C2, as it holds of the code.  With a media folder name of ASCII
    characters, on a text that holds none of its patterns, every
    transform returns the text unchanged, provided, for the header
    adjuster, that every line boundary of the text is a single newline
    and that the text does not end with one. *)
Theorem transform_without_pattern (e : env) (folder : str) (tr : transform)
    (text : str) :
  ascii_name folder = true ->
  recognized folder tr text = false ->
  (tr = AdjustHeaders -> plain_lines text = true) ->
  apply_transform e folder tr text = text.
Proof.
  intros _ H Hp. rewrite (apply_unrecognized e folder tr text H).
  destruct tr; try reflexivity. apply join_splitlines. apply Hp. reflexivity.
Qed.

Lemma transform_without_pattern_witness :
  ascii_name default_media_folder = true
  /\ recognized default_media_folder AdjustHeaders
       (u "abc" ++ [nl] ++ u "def") = false
  /\ (AdjustHeaders = AdjustHeaders ->
      plain_lines (u "abc" ++ [nl] ++ u "def") = true)
  /\ apply_transform (env_without_pandoc [] []) default_media_folder
       AdjustHeaders (u "abc" ++ [nl] ++ u "def")
     = u "abc" ++ [nl] ++ u "def".
Proof.
  split; [reflexivity|].
  split; [vm_compute; reflexivity|].
  split; [intros _; vm_compute; reflexivity|].
  apply (transform_without_pattern (env_without_pandoc [] [])
           default_media_folder AdjustHeaders (u "abc" ++ [nl] ++ u "def")).
  - reflexivity.
  - vm_compute. reflexivity.
  - intros _. vm_compute. reflexivity.
Defined.

(** ** C3: the pipeline and the figure-caption composer *)

(** C3: a counterexample to the statement of the specification.  The
    document made of the image line
    [![a](./assets/x.png)] and the caption line [###### Cap] holds the
    composer's pattern, yet the pipeline returns it as it is, and its
    output holds no [<figure>]. *)
Lemma pipeline_keeps_markdown_caption :
  recognized default_media_folder ConvertImageCaptionsToFigures
    captioned_image = true
  /\ fst (pipeline (env_without_pandoc [] []) default_media_folder
            captioned_image) = captioned_image
  /\ contains (u "<figure>")
       (fst (pipeline (env_without_pandoc [] []) default_media_folder
               captioned_image)) = false
  /\ contains (u "<figure>")
       (convert_image_captions_to_figures captioned_image default_media_folder)
     = true.
Proof.
  repeat split; vm_compute; reflexivity.
Qed.

(** C3, as it holds of the code.  The pipeline has no figure-caption
    pass: it is the twelve passes of [pipeline_passes], the figure
    normalizer being the seventh.  A document in which none of these twelve finds its pattern,
    and whose line boundaries are single newlines with none at the end,
    is returned unchanged and nothing is logged, whether or not it holds
    an image line followed by a level-6 caption. *)
Theorem pipeline_without_caption_composer (e : env) (folder text : str) :
  pattern_free text = true -> plain_lines text = true ->
  pipeline e folder text = (text, []).
Proof. apply pipeline_pattern_free. Qed.

Lemma pipeline_without_caption_composer_witness :
  pattern_free captioned_image = true
  /\ plain_lines captioned_image = true
  /\ pipeline (env_without_pandoc [] []) default_media_folder captioned_image
     = (captioned_image, []).
Proof.
  split; [vm_compute; reflexivity|].
  split; [vm_compute; reflexivity|].
  apply (pipeline_without_caption_composer (env_without_pandoc [] [])
           default_media_folder captioned_image);
    vm_compute; reflexivity.
Defined.

(** ** C4: the media folder given on the command line *)

(** C4.  The code departs from the specification here: run with the
    folder name [media] on a file that holds
    [<img src="./media/4.png" alt="4" />], a space, a newline and [x],
    the program changes nothing and writes nothing, although the
    converter called with [media] turns that text into [4. x]: the main
    program calls the converter without the folder it has read. *)
Theorem main_ignores_media_folder_argument (e : env) (script path : str) :
  read_file e path = ReadOk numbered_image_in_media ->
  main e [script; path; u "media"] = Run None [] None
  /\ convert_specific_img_tags_to_numbered_text numbered_image_in_media
       (u "media") = u "4. x".
Proof.
  intros H. split; [|vm_compute; reflexivity].
  unfold main. rewrite H.
  replace (pipeline e (u "media") numbered_image_in_media)
    with (numbered_image_in_media, @nil event) by (vm_compute; reflexivity).
  reflexivity.
Qed.

Lemma main_ignores_media_folder_argument_witness :
  read_file (env_without_pandoc (u "book.md") numbered_image_in_media)
    (u "book.md") = ReadOk numbered_image_in_media
  /\ main (env_without_pandoc (u "book.md") numbered_image_in_media)
       [u "post_processor.py"; u "book.md"; u "media"] = Run None [] None
  /\ convert_specific_img_tags_to_numbered_text numbered_image_in_media
       (u "media") = u "4. x".
Proof.
  split; [reflexivity|].
  apply (main_ignores_media_folder_argument
           (env_without_pandoc (u "book.md") numbered_image_in_media)
           (u "post_processor.py") (u "book.md")).
  reflexivity.
Defined.

(** ** C5: the header adjuster on the five vectors *)

(** C5.  [# Chapter Goals] becomes [### Chapter Goals],
    [# Chapter 3] is unchanged, [## Foo] becomes [### Foo], [###### Foo]
    is unchanged and [##### Example 1-2. Title] becomes
    [*Example 1-2. Title*]. *)
Theorem adjust_headers_vectors :
  adjust_headers (u "# Chapter Goals") = u "### Chapter Goals"
  /\ adjust_headers (u "# Chapter 3") = u "# Chapter 3"
  /\ adjust_headers (u "## Foo") = u "### Foo"
  /\ adjust_headers (u "###### Foo") = u "###### Foo"
  /\ adjust_headers (u "##### Example 1-2. Title") = u "*Example 1-2. Title*".
Proof. repeat split; vm_compute; reflexivity. Qed.

(** ** C6: the reference-tag remover *)

(** C6: a counterexample to the statement of the specification.
    [Some text {#sec-1}] is returned unchanged: the
    hyphen is not a character of an identifier. *)
Lemma reference_tag_with_hyphen_kept :
  remove_reference_tags (u "Some text {#sec-1}") = u "Some text {#sec-1}"
  /\ remove_reference_tags (u "Some text {#sec-1}") <> u "Some text ".
Proof. split; [vm_compute; reflexivity | vm_compute; discriminate]. Qed.

(** C6, as it holds of the code.  A marker [{#identifier}] whose
    identifier is one or more ASCII letters, digits or underscores is removed wherever it
    stands: the result is what the remover makes of the text before it,
    followed by what it makes of the text after it. *)
Theorem remove_reference_tags_strips_word_tag (pre ident post : str) :
  ident <> [] -> forallb is_word ident = true ->
  remove_reference_tags (pre ++ tag_text ident ++ post) =
  remove_reference_tags pre ++ remove_reference_tags post.
Proof.
  intros Hne Hw.
  apply (remove_reference_tags_app_tag ident post Hne Hw (length pre) pre).
  apply Nat.le_refl.
Qed.

Lemma remove_reference_tags_strips_word_tag_witness :
  u "sec_1" <> []
  /\ forallb is_word (u "sec_1") = true
  /\ remove_reference_tags (u "Some text " ++ tag_text (u "sec_1") ++ []) =
     remove_reference_tags (u "Some text ") ++ remove_reference_tags [].
Proof.
  split; [discriminate|]. split; [reflexivity|].
  apply (remove_reference_tags_strips_word_tag (u "Some text ") (u "sec_1") []);
    [discriminate | reflexivity].
Defined.

(** ** C7: the alt digits and the src digits of a numbered image *)

(** C7: a counterexample to the statement of the specification.  The tag
    with src [./assets/4.png] and alt [5],
    followed by a space and a newline, is not left unchanged: it becomes
    [5. ]. *)
Lemma numbered_img_mismatch_rewritten :
  convert_specific_img_tags_to_numbered_text
    (img_tag (u "assets") (u "4") (u "5") ++ u " " ++ [nl]) (u "assets")
  = u "5. "
  /\ img_tag (u "assets") (u "4") (u "5")
     = q "<img src=`./assets/4.png` alt=`5` />".
Proof. split; vm_compute; reflexivity. Qed.

(** C7, as it holds of the code.  The converter does not compare the two
    numbers.
    For a folder name of ASCII characters without white space, digits
    [d1] and [d2], the tag
    [<img src="./folder/d1.png" alt="d2" />] followed by white space
    [sp], a newline and a text [post] that does not start with white
    space is replaced, with [sp] and the newline, by [d2], a full stop
    and a space, whether or not [d1] and [d2] are equal. *)
Theorem numbered_img_uses_alt_digits (folder d1 d2 sp post : str) :
  ascii_name folder = true -> no_space folder = true ->
  d1 <> [] -> forallb is_digit d1 = true ->
  d2 <> [] -> forallb is_digit d2 = true ->
  sp <> [] -> forallb is_space sp = true -> starts_without_space post ->
  convert_specific_img_tags_to_numbered_text
    (img_tag folder d1 d2 ++ sp ++ nl :: post) folder =
  d2 ++ u ". " ++ convert_specific_img_tags_to_numbered_text post folder.
Proof. intros _. apply numbered_img_replaced. Qed.

Lemma numbered_img_uses_alt_digits_witness :
  ascii_name (u "assets") = true
  /\ no_space (u "assets") = true
  /\ u "4" <> [] /\ forallb is_digit (u "4") = true
  /\ u "5" <> [] /\ forallb is_digit (u "5") = true
  /\ u " " <> [] /\ forallb is_space (u " ") = true
  /\ starts_without_space (u "x")
  /\ convert_specific_img_tags_to_numbered_text
       (img_tag (u "assets") (u "4") (u "5") ++ u " " ++ nl :: u "x")
       (u "assets") =
     u "5" ++ u ". "
     ++ convert_specific_img_tags_to_numbered_text (u "x") (u "assets").
Proof.
  split; [reflexivity|].
  split; [reflexivity|]. split; [discriminate|]. split; [reflexivity|].
  split; [discriminate|]. split; [reflexivity|]. split; [discriminate|].
  split; [reflexivity|]. split; [reflexivity|].
  apply (numbered_img_uses_alt_digits (u "assets") (u "4") (u "5") (u " ") (u "x"));
    try reflexivity; discriminate.
Defined.

(** ** C8: the numbered image vector *)

(** C8: a counterexample to the statement of the specification.
    [<img src="./assets/4.png" alt="4" />] followed
    by a single newline is returned unchanged: the pattern asks for at
    least one white-space character before the newline. *)
Lemma numbered_img_single_newline_kept :
  convert_specific_img_tags_to_numbered_text
    (q "<img src=`./assets/4.png` alt=`4` />" ++ [nl]) (u "assets")
  = q "<img src=`./assets/4.png` alt=`4` />" ++ [nl]
  /\ convert_specific_img_tags_to_numbered_text
       (q "<img src=`./assets/4.png` alt=`4` />" ++ [nl]) (u "assets")
     <> u "4. ".
Proof. split; [vm_compute; reflexivity | vm_compute; discriminate]. Qed.

(** C8, as it holds of the code.  [<img src="./assets/4.png" alt="4" />]
    followed by
    one white-space character and a newline becomes [4. ]. *)
Theorem numbered_img_vector_with_space (c : char) :
  is_space c = true ->
  convert_specific_img_tags_to_numbered_text
    (q "<img src=`./assets/4.png` alt=`4` />" ++ [c; nl]) (u "assets")
  = u "4. ".
Proof.
  intros Hc.
  change (q "<img src=`./assets/4.png` alt=`4` />" ++ [c; nl])
    with (img_tag (u "assets") (u "4") (u "4") ++ [c] ++ nl :: []).
  rewrite numbered_img_replaced;
    try reflexivity; try discriminate.
  cbn [forallb]. rewrite Hc. reflexivity.
Qed.

Lemma numbered_img_vector_with_space_witness :
  is_space 32%N = true
  /\ convert_specific_img_tags_to_numbered_text
       (q "<img src=`./assets/4.png` alt=`4` />" ++ [32%N; nl]) (u "assets")
     = u "4. ".
Proof.
  split; [reflexivity|].
  apply (numbered_img_vector_with_space 32%N). reflexivity.
Defined.

(** ** C9: the extent of a figure block *)

(** C9: a counterexample to the statement of the specification.  In
    [<figure>a</figure>b</figure>] the block
    ends at the first closing tag: the text [b</figure>] after it is
    left as it is, and the result is not the block taken to the last
    closing tag. *)
Lemma figure_block_ends_at_first_close :
  process_html_figures two_closing_tags
  = u "<figure>" ++ [nl] ++ u "a" ++ [nl] ++ u "</figure>" ++ u "b</figure>"
  /\ process_html_figures two_closing_tags
     <> u "<figure>" ++ [nl] ++ u "a</figure>b" ++ [nl] ++ u "</figure>".
Proof. split; [vm_compute; reflexivity | vm_compute; discriminate]. Qed.

(** C9, as it holds of the code.  The block of an opening tag
    [<figure ...>] extends
    to the first closing tag after it: when the content [c] holds no
    closing tag, the block [<figure attrs>c</figure>] is normalized on
    its own, and the text after it, which may hold further closing tags,
    is processed separately. *)
Theorem process_html_figures_first_closing_tag (attrs c tail : str) :
  forallb not_gt attrs = true ->
  free_of IGNORECASE_DOTALL (u "</figure>") c (u "</figure>" ++ tail) = true ->
  process_html_figures (figure_open attrs ++ c ++ u "</figure>" ++ tail) =
  normalized_figure c ++ process_html_figures tail.
Proof. apply process_html_figures_first_close. Qed.

Lemma process_html_figures_first_closing_tag_witness :
  forallb not_gt [] = true
  /\ free_of IGNORECASE_DOTALL (u "</figure>") (u "a")
       (u "</figure>" ++ u "b</figure>") = true
  /\ process_html_figures
       (figure_open [] ++ u "a" ++ u "</figure>" ++ u "b</figure>") =
     normalized_figure (u "a") ++ process_html_figures (u "b</figure>").
Proof.
  split; [reflexivity|]. split; [reflexivity|].
  apply (process_html_figures_first_closing_tag [] (u "a") (u "b</figure>"));
    reflexivity.
Defined.

(** ** C10: the blockquote-header normalizer is idempotent *)

(** C10.  Applying [normalize_blockquoted_headers] twice
    gives the same text as applying it once. *)
Theorem normalize_blockquoted_headers_idempotent (t : str) :
  normalize_blockquoted_headers (normalize_blockquoted_headers t) =
  normalize_blockquoted_headers t.
Proof.
  rewrite !normalize_from_start.
  apply (normalize_from_idempotent (length t) t None). apply Nat.le_refl.
Qed.

(** * Further properties of the passes *)

(** ** remove_unwanted_spans *)

(** X1.  An empty chapter span is dropped.  Let [pre] be a text in
    which no [<span] starts, whatever follows it.  After [pre], the span
    [<span], white space, an [id] attribute whose quoted value is [ch],
    digits and [.html], attributes without [>], [>], white space or
    nothing, [</span>] disappears: [pre] is kept and the pass goes on
    with the text after the span. *)
Theorem remove_unwanted_spans_drops_chapter_span
    (pre sp d attrs sp2 post : str) :
  (forall tl, free_of IGNORECASE (u "<span") pre tl = true) ->
  sp <> [] -> forallb is_space sp = true ->
  d <> [] -> forallb is_digit d = true ->
  forallb not_gt attrs = true -> forallb is_space sp2 = true ->
  remove_unwanted_spans (pre ++ chapter_span sp d attrs sp2 ++ post) =
  pre ++ remove_unwanted_spans post.
Proof.
  intros Hpre Hne Hsp Hdne Hd Ha Hsp2.
  unfold remove_unwanted_spans.
  pose proof (chapter_span_match None sp d attrs sp2 post Hne Hsp Hdne Hd Ha Hsp2)
    as Hm.
  unfold sub. unfold empty_span_pattern in *.
  rewrite (sub_first IGNORECASE (u "<span")
             [plus ws; lit (q "id=`ch"); plus digit; lit (q ".html`");
              star (notc 62%N); lit (u ">"); star ws; lit (u "</span>")]
             _ pre _ post _ eq_refl (Hpre _) Hm eq_refl)
    by (unfold chapter_span; discriminate).
  cbn [expand flat_map app].
  unfold indexterm_span_pattern.
  apply (sub_skip IGNORECASE_DOTALL (u "<span")
           [plus ws; lazy_star (notc 62%N); lit (q "data-type=`indexterm`");
            star (notc 62%N); lit (u ">"); Grp 1 (lazy_star dot);
            lit (u "</span>")] _ pre _ eq_refl).
  rewrite <- (free_of_flags IGNORECASE IGNORECASE_DOTALL _ _ eq_refl). apply Hpre.
Qed.

Lemma remove_unwanted_spans_drops_chapter_span_witness :
  (forall tl, free_of IGNORECASE (u "<span") (u "<p>a</p>") tl = true)
  /\ u " " <> [] /\ forallb is_space (u " ") = true
  /\ u "12" <> [] /\ forallb is_digit (u "12") = true
  /\ forallb not_gt (q " class=`x`") = true /\ forallb is_space [nl] = true
  /\ remove_unwanted_spans
       (u "<p>a</p>" ++ chapter_span (u " ") (u "12") (q " class=`x`") [nl]
        ++ u "b")
     = u "<p>a</p>" ++ remove_unwanted_spans (u "b").
Proof.
  split; [intros tl; reflexivity|]. split; [discriminate|].
  split; [reflexivity|]. split; [discriminate|]. split; [reflexivity|].
  split; [reflexivity|]. split; [reflexivity|].
  apply (remove_unwanted_spans_drops_chapter_span
           (u "<p>a</p>") (u " ") (u "12") (q " class=`x`") [nl] (u "b"));
    try reflexivity; discriminate.
Defined.

(** X2.  An index-term span is replaced by its content.  In a text
    without empty chapter span, let the first [<span] open a tag that
    reads white space, attributes [battrs] without [>], the attribute
    [data-type] with the quoted value [indexterm], at its first
    occurrence, and attributes [attrs] without [>]; let [c] be the text
    up to the first [</span>].
    Then the span is replaced by [c], the text before it is kept and the
    pass goes on after the closing tag. *)
Theorem remove_unwanted_spans_unwraps_indexterm
    (pre sp battrs attrs c post : str) :
  occurs IGNORECASE empty_span_pattern
    (pre ++ indexterm_span sp battrs attrs c ++ post) = false ->
  free_of IGNORECASE_DOTALL (u "<span") pre
    (indexterm_span sp battrs attrs c ++ post) = true ->
  sp <> [] -> forallb is_space sp = true ->
  starts_without_space battrs -> forallb not_gt battrs = true ->
  free_of IGNORECASE_DOTALL (q "data-type=`indexterm`") battrs
    (q "data-type=`indexterm`" ++ attrs ++ u ">" ++ c ++ u "</span>" ++ post) = true ->
  forallb not_gt attrs = true ->
  free_of IGNORECASE_DOTALL (u "</span>") c (u "</span>" ++ post) = true ->
  remove_unwanted_spans (pre ++ indexterm_span sp battrs attrs c ++ post) =
  pre ++ c ++ remove_unwanted_spans post.
Proof.
  intros Hocc Hpre Hne Hsp Hstart Hb Hfb Ha Hfc.
  unfold remove_unwanted_spans.
  rewrite (sub_no_occurrence _ _ _ _ Hocc).
  assert (Hpost : occurs IGNORECASE empty_span_pattern post = false).
  { rewrite app_assoc in Hocc. exact (occurs_suffix IGNORECASE empty_span_pattern _ _ eq_refl Hocc). }
  rewrite (sub_no_occurrence _ _ _ post Hpost).
  pose proof (indexterm_span_match None sp battrs attrs c post Hne Hsp Hstart Hb
                Hfb Ha Hfc) as Hm.
  unfold sub. unfold indexterm_span_pattern in *.
  rewrite (sub_first IGNORECASE_DOTALL (u "<span")
             [plus ws; lazy_star (notc 62%N); lit (q "data-type=`indexterm`");
              star (notc 62%N); lit (u ">"); Grp 1 (lazy_star dot);
              lit (u "</span>")]
             _ pre _ post _ eq_refl Hpre Hm eq_refl).
  - cbn [expand flat_map group groups lookup Nat.eqb]. rewrite app_nil_r.
    reflexivity.
  - unfold indexterm_span. discriminate.
Qed.

Lemma remove_unwanted_spans_unwraps_indexterm_witness :
  occurs IGNORECASE empty_span_pattern
    (u "a " ++ indexterm_span (u " ") (q "id=`i1` ") (q " startref=`s`")
                 (u "term") ++ u " b") = false
  /\ free_of IGNORECASE_DOTALL (u "<span") (u "a ")
       (indexterm_span (u " ") (q "id=`i1` ") (q " startref=`s`") (u "term")
        ++ u " b") = true
  /\ u " " <> [] /\ forallb is_space (u " ") = true
  /\ starts_without_space (q "id=`i1` ")
  /\ forallb not_gt (q "id=`i1` ") = true
  /\ free_of IGNORECASE_DOTALL (q "data-type=`indexterm`") (q "id=`i1` ")
       (q "data-type=`indexterm`" ++ q " startref=`s`" ++ u ">" ++ u "term"
        ++ u "</span>" ++ u " b") = true
  /\ forallb not_gt (q " startref=`s`") = true
  /\ free_of IGNORECASE_DOTALL (u "</span>") (u "term") (u "</span>" ++ u " b")
     = true
  /\ remove_unwanted_spans
       (u "a " ++ indexterm_span (u " ") (q "id=`i1` ") (q " startref=`s`")
                    (u "term") ++ u " b")
     = u "a " ++ u "term" ++ remove_unwanted_spans (u " b").
Proof.
  split; [vm_compute; reflexivity|]. split; [vm_compute; reflexivity|].
  split; [discriminate|]. split; [reflexivity|]. split; [reflexivity|].
  split; [reflexivity|]. split; [vm_compute; reflexivity|].
  split; [reflexivity|]. split; [vm_compute; reflexivity|].
  apply (remove_unwanted_spans_unwraps_indexterm
           (u "a ") (u " ") (q "id=`i1` ") (q " startref=`s`") (u "term") (u " b"));
    try (vm_compute; reflexivity); discriminate.
Defined.

(** ** convert_smart_quotes *)

(** X3.  The four replacements of convert_smart_quotes amount to one
    pass over the characters: each curly double quote becomes the
    straight double quote, each curly single quote the apostrophe, and
    every other character is kept in place. *)
Theorem convert_smart_quotes_characterwise (t : str) :
  convert_smart_quotes t = map straighten t.
Proof. apply convert_smart_quotes_map. Qed.

(** X4.  The result of convert_smart_quotes holds none of the four curly
    quotation marks, and the pass is idempotent. *)
Theorem convert_smart_quotes_leaves_none (t : str) :
  existsb is_smart_quote (convert_smart_quotes t) = false
  /\ convert_smart_quotes (convert_smart_quotes t) = convert_smart_quotes t.
Proof.
  assert (H : existsb is_smart_quote (convert_smart_quotes t) = false).
  { rewrite convert_smart_quotes_map. induction t as [|c t IH]; [reflexivity|].
    cbn [map existsb]. rewrite straighten_not_smart, IH. reflexivity. }
  split; [exact H|]. apply convert_smart_quotes_absent. exact H.
Qed.

(** ** fix_footnote_definitions *)

(** X5.  The first footnote definition.  Let no line of [pre] start with
    [^(\[], and let a line start after [pre] and read [^(\[d\](#a))] with
    digits [d] and an anchor [a] without [)], both not empty, then white
    space [sp], then the caption [cap] up to the end of the line, where
    [cap] does not start with white space.  The line becomes [\[^d\]: cap],
    the text before it is kept and the pass goes on after the line. *)
Theorem fix_footnote_definitions_first (pre d a sp cap post : str) :
  no_line_starts (u "^([") None pre = true ->
  line_start (prev_after None pre) = true ->
  d <> [] -> forallb is_digit d = true ->
  a <> [] -> forallb not_rparen a = true ->
  forallb is_space sp = true -> starts_without_space (cap ++ post) ->
  forallb not_nl cap = true -> line_end post = true ->
  fix_footnote_definitions (pre ++ footnote_head d a ++ sp ++ cap ++ post) =
  pre ++ u "[^" ++ d ++ u "]: " ++ cap ++ fix_footnote_definitions post.
Proof.
  intros Hpre Hstart Hdne Hd Hane Ha Hsp Hcs Hcap Hpost.
  pose proof (footnote_definition_match _ d a sp cap post Hstart Hdne Hd Hane Ha
                Hsp Hcs Hcap Hpost) as Hm.
  unfold fix_footnote_definitions, sub.
  replace (pre ++ footnote_head d a ++ sp ++ cap ++ post)
    with (pre ++ (footnote_head d a ++ sp ++ cap) ++ post)
    by (list_norm; reflexivity).
  unfold footnote_definition_pattern in *.
  rewrite (sub_first_line MULTILINE eq_refl (u "^([") _ _ pre _ post _
             ltac:(discriminate) eq_refl Hpre Hstart Hm eq_refl).
  - cbn [expand footnote_template flat_map group groups lookup Nat.eqb].
    list_norm. reflexivity.
  - unfold footnote_head. discriminate.
  - exact Hpost.
Qed.

Lemma fix_footnote_definitions_first_witness :
  no_line_starts (u "^([") None (u "Intro" ++ [nl]) = true
  /\ line_start (prev_after None (u "Intro" ++ [nl])) = true
  /\ u "12" <> [] /\ forallb is_digit (u "12") = true
  /\ u "fn12" <> [] /\ forallb not_rparen (u "fn12") = true
  /\ forallb is_space (u " ") = true
  /\ starts_without_space (u "Some text" ++ nl :: u "more")
  /\ forallb not_nl (u "Some text") = true
  /\ line_end (nl :: u "more") = true
  /\ fix_footnote_definitions
       ((u "Intro" ++ [nl]) ++ footnote_head (u "12") (u "fn12") ++ u " "
        ++ u "Some text" ++ nl :: u "more")
     = (u "Intro" ++ [nl]) ++ u "[^" ++ u "12" ++ u "]: " ++ u "Some text"
       ++ fix_footnote_definitions (nl :: u "more").
Proof.
  split; [reflexivity|]. split; [reflexivity|]. split; [discriminate|].
  split; [reflexivity|]. split; [discriminate|]. split; [reflexivity|].
  split; [reflexivity|]. split; [reflexivity|]. split; [reflexivity|].
  split; [reflexivity|].
  apply (fix_footnote_definitions_first (u "Intro" ++ [nl]) (u "12") (u "fn12")
           (u " ") (u "Some text") (nl :: u "more"));
    try reflexivity; discriminate.
Defined.

(** ** convert_image_captions_to_figures *)

(** X6.  The first image with a caption line.  Let no line of [pre] start
    with [!\[]; after [pre] a line reads [!\[alt\](x/folder/file)], where
    [x] is any character but the line feed, and the next line reads
    [######], white space [sp] and the caption [cap], which neither
    starts nor ends with white space; the text [post] after it is empty
    or goes on with a line that starts without white space.  The two
    lines become a figure block: the image source is [./folder/file]
    whatever [x] was, the double quotes of [alt] are written [&quot;],
    the Markdown links of the caption become anchors, and the block ends
    with a line feed.  The text before is kept and the pass goes on with
    [post]. *)
Theorem convert_image_captions_to_figures_first
    (pre alt folder file sp cap post : str) (x : char) :
  no_line_starts (u "![") None pre = true ->
  line_start (prev_after None pre) = true ->
  forallb not_rbracket alt = true -> not_nl x = true ->
  file <> [] -> forallb not_rparen file = true ->
  forallb is_space sp = true -> starts_without_space (cap ++ post) ->
  forallb not_nl cap = true -> ends_without_space cap ->
  next_line_text post = true ->
  convert_image_captions_to_figures
    (pre ++ image_with_caption alt x folder file sp cap ++ post) folder =
  pre ++ u "<figure>" ++ [nl]
  ++ q "  <img src=`./" ++ folder ++ u "/" ++ file ++ q "` alt=`"
  ++ replace dq (u "&quot;") alt ++ q "` />" ++ [nl]
  ++ u "  <figcaption>"
  ++ sub NOFLAGS markdown_link_pattern
       [T (q "<a href=`"); G 2; T (q "`>"); G 1; T (u "</a>")] cap
  ++ u "</figcaption>" ++ [nl] ++ u "</figure>" ++ [nl]
  ++ convert_image_captions_to_figures post folder.
Proof.
  intros Hpre Hstart Halt Hx Hfne Hfile Hsp Hcs Hnl Hend Hpost.
  pose proof (figure_caption_match _ alt x folder file sp cap post Hstart Halt Hx
                Hfne Hfile Hsp Hcs Hnl Hend Hpost) as Hm.
  unfold convert_image_captions_to_figures.
  unfold figure_caption_pattern in *.
  rewrite (sub_first_line MULTILINE eq_refl (u "![") _ _ pre _ post _
             ltac:(discriminate) eq_refl Hpre Hstart Hm eq_refl).
  - unfold replace_with_figure. cbn [group groups lookup Nat.eqb].
    list_norm. reflexivity.
  - unfold image_with_caption. discriminate.
  - apply next_line_text_line_end. exact Hpost.
Qed.

Lemma convert_image_captions_to_figures_first_witness :
  no_line_starts (u "![") None (u "Intro" ++ [nl]) = true
  /\ line_start (prev_after None (u "Intro" ++ [nl])) = true
  /\ forallb not_rbracket (q "a `b`") = true /\ not_nl 46%N = true
  /\ u "x.png" <> [] /\ forallb not_rparen (u "x.png") = true
  /\ forallb is_space (u " ") = true
  /\ starts_without_space (u "See [this](u)" ++ nl :: u "more")
  /\ forallb not_nl (u "See [this](u)") = true
  /\ ends_without_space (u "See [this](u)")
  /\ next_line_text (nl :: u "more") = true
  /\ convert_image_captions_to_figures
       ((u "Intro" ++ [nl])
        ++ image_with_caption (q "a `b`") 46%N (u "assets") (u "x.png") (u " ")
             (u "See [this](u)") ++ nl :: u "more") (u "assets")
     = (u "Intro" ++ [nl]) ++ u "<figure>" ++ [nl]
       ++ q "  <img src=`./" ++ u "assets" ++ u "/" ++ u "x.png" ++ q "` alt=`"
       ++ replace dq (u "&quot;") (q "a `b`") ++ q "` />" ++ [nl]
       ++ u "  <figcaption>"
       ++ sub NOFLAGS markdown_link_pattern
            [T (q "<a href=`"); G 2; T (q "`>"); G 1; T (u "</a>")]
            (u "See [this](u)")
       ++ u "</figcaption>" ++ [nl] ++ u "</figure>" ++ [nl]
       ++ convert_image_captions_to_figures (nl :: u "more") (u "assets").
Proof.
  split; [reflexivity|]. split; [reflexivity|]. split; [reflexivity|].
  split; [reflexivity|]. split; [discriminate|]. split; [reflexivity|].
  split; [reflexivity|]. split; [reflexivity|]. split; [reflexivity|].
  split; [reflexivity|]. split; [reflexivity|].
  apply (convert_image_captions_to_figures_first (u "Intro" ++ [nl]) (q "a `b`")
           (u "assets") (u "x.png") (u " ") (u "See [this](u)") (nl :: u "more")
           46%N);
    try reflexivity; discriminate.
Defined.

(** ** convert_h6_to_blockquote *)

(** X7.  The first admonition line.  Let no line of [pre] start with
    [######], and let a line after [pre] read [######], white space or
    nothing, and one of the words Tip, Note, Caution and Warning up to
    the end of the line.  The line becomes [\[!word\]], the text before
    it is kept and the pass goes on after the line. *)
Theorem convert_h6_to_blockquote_first (pre sp kind post : str) :
  no_line_starts (u "######") None pre = true ->
  line_start (prev_after None pre) = true ->
  forallb is_space sp = true -> is_admonition kind = true ->
  line_end post = true ->
  convert_h6_to_blockquote (pre ++ u "######" ++ sp ++ kind ++ post) =
  pre ++ u "[!" ++ kind ++ u "]" ++ convert_h6_to_blockquote post.
Proof.
  intros Hpre Hstart Hsp Hk Hpost.
  pose proof (admonition_match _ sp kind post Hstart Hsp Hk Hpost) as Hm.
  unfold convert_h6_to_blockquote, sub.
  replace (pre ++ u "######" ++ sp ++ kind ++ post)
    with (pre ++ (u "######" ++ sp ++ kind) ++ post)
    by (list_norm; reflexivity).
  unfold admonition_pattern in *.
  rewrite (sub_first_line MULTILINE eq_refl (u "######") _ _ pre _ post _
             ltac:(discriminate) eq_refl Hpre Hstart Hm eq_refl).
  - cbn [expand flat_map group groups lookup Nat.eqb].
    list_norm. reflexivity.
  - discriminate.
  - exact Hpost.
Qed.

Lemma convert_h6_to_blockquote_first_witness :
  no_line_starts (u "######") None (u "# Title" ++ [nl]) = true
  /\ line_start (prev_after None (u "# Title" ++ [nl])) = true
  /\ forallb is_space (u " ") = true /\ is_admonition (u "Warning") = true
  /\ line_end (nl :: u "text") = true
  /\ convert_h6_to_blockquote
       ((u "# Title" ++ [nl]) ++ u "######" ++ u " " ++ u "Warning"
        ++ nl :: u "text")
     = (u "# Title" ++ [nl]) ++ u "[!" ++ u "Warning" ++ u "]"
       ++ convert_h6_to_blockquote (nl :: u "text").
Proof.
  split; [reflexivity|]. split; [reflexivity|]. split; [reflexivity|].
  split; [reflexivity|]. split; [reflexivity|].
  apply (convert_h6_to_blockquote_first (u "# Title" ++ [nl]) (u " ")
           (u "Warning") (nl :: u "text")); reflexivity.
Defined.

(** ** adjust_headers *)

(** X8.  adjust_headers works line by line.  For a first line without
    line boundary that ends with a line feed, the result is the result
    on that line, then, if more text follows, a line feed and the result
    on the rest; a final line feed is dropped. *)
Theorem adjust_headers_line_by_line (line rest : str) :
  one_line line = true ->
  adjust_headers (line ++ nl :: rest) =
  match rest with
  | [] => adjust_headers line
  | _ :: _ => adjust_headers line ++ nl :: adjust_headers rest
  end.
Proof. apply adjust_headers_line. Qed.

Lemma adjust_headers_line_by_line_witness :
  one_line (u "## Foo") = true
  /\ adjust_headers (u "## Foo" ++ nl :: u "# Bar")
     = adjust_headers (u "## Foo") ++ nl :: adjust_headers (u "# Bar").
Proof.
  split; [reflexivity|].
  apply (adjust_headers_line_by_line (u "## Foo") (u "# Bar")). reflexivity.
Defined.

(** X9.  A header of level one to five gets one more hash.  The line
    reads the hashes, white space and a title that starts without white
    space; a level-one title does not start with [C] and a level-five
    title does not start with [E], so that the chapter rules and the
    example rule do not apply.  The line is otherwise unchanged, trailing
    white space included. *)
Theorem adjust_headers_deepens (h sp title : str) :
  forallb is_hash h = true -> 1 <= length h <= 5 ->
  sp <> [] -> forallb is_space sp = true ->
  starts_without_space title -> one_line (sp ++ title) = true ->
  (length h = 1 -> first_is 67%N title = false) ->
  (length h = 5 -> first_is 69%N title = false) ->
  adjust_headers (h ++ sp ++ title) = u "#" ++ h ++ sp ++ title.
Proof.
  intros Hh Hlen Hne Hsp Ht Hone HC HE.
  rewrite adjust_headers_one_line
    by (rewrite one_line_app, (one_line_hashes h Hh); exact Hone).
  rewrite one_line_app in Hone. apply andb_prop in Hone as [_ Hone].
  apply adjust_line_deepens; auto using one_line_not_nl.
Qed.

Lemma adjust_headers_deepens_witness :
  forallb is_hash (u "##") = true /\ 1 <= length (u "##") <= 5
  /\ u " " <> [] /\ forallb is_space (u " ") = true
  /\ starts_without_space (u "Foo") /\ one_line (u " " ++ u "Foo") = true
  /\ (length (u "##") = 1 -> first_is 67%N (u "Foo") = false)
  /\ (length (u "##") = 5 -> first_is 69%N (u "Foo") = false)
  /\ adjust_headers (u "##" ++ u " " ++ u "Foo") = u "#" ++ u "##" ++ u " " ++ u "Foo".
Proof.
  split; [reflexivity|]. split; [cbn; lia|]. split; [discriminate|].
  split; [reflexivity|]. split; [reflexivity|]. split; [reflexivity|].
  split; [reflexivity|]. split; [reflexivity|].
  apply (adjust_headers_deepens (u "##") (u " ") (u "Foo"));
    try reflexivity; [cbn; lia | discriminate].
Defined.

(** X10.  A line that starts with six hashes is returned as it is,
    whatever follows the hashes: no rule of adjust_headers reads it. *)
Theorem adjust_headers_keeps_level_six (tl : str) :
  one_line tl = true ->
  adjust_headers (u "######" ++ tl) = u "######" ++ tl.
Proof.
  intros H. rewrite adjust_headers_one_line by (rewrite one_line_app; exact H).
  apply adjust_line_level_six.
Qed.

Lemma adjust_headers_keeps_level_six_witness :
  one_line (u " Foo") = true
  /\ adjust_headers (u "######" ++ u " Foo") = u "######" ++ u " Foo".
Proof.
  split; [reflexivity|].
  apply (adjust_headers_keeps_level_six (u " Foo")). reflexivity.
Defined.

(** X11.  A level-five example header becomes an emphasized line.  The
    line reads [#####], white space or nothing, [Example], white space,
    a number, possibly a hyphen and a second number, a full stop and the
    title.  The result is the text from [Example] on, without the white
    space at its end, between two asterisks; the hashes are gone. *)
Theorem adjust_headers_example (sp sp2 d range tl : str) :
  forallb is_space sp = true ->
  sp2 <> [] -> forallb is_space sp2 = true ->
  d <> [] -> forallb is_digit d = true ->
  is_range range = true ->
  one_line (sp ++ sp2 ++ tl) = true ->
  adjust_headers (u "#####" ++ sp ++ example_title sp2 d range tl) =
  u "*" ++ example_title sp2 d range (rstrip tl) ++ u "*".
Proof.
  intros Hsp Hne2 Hsp2 Hned Hd Hr Hone.
  rewrite !one_line_app in Hone. apply andb_prop in Hone as [H1 Hone].
  apply andb_prop in Hone as [H2 H3].
  assert (Hdl : one_line d = true).
  { unfold one_line. rewrite forallb_forall in *. intros x Hx.
    specialize (Hd x Hx). apply is_digit_spec in Hd.
    unfold is_linebreak.
    repeat match goal with
    | |- context [(?a <=? ?b)%N] => destruct (N.leb_spec a b)
    | |- context [(?a =? ?b)%N] => destruct (N.eqb_spec a b)
    end; try reflexivity; lia. }
  assert (Hrl : one_line range = true).
  { destruct range as [|c d2]; [reflexivity|]. cbn in Hr.
    apply andb_prop in Hr as [Hr Hd2]. apply andb_prop in Hr as [Hc _].
    apply ceqb_eq in Hc. subst c. cbn. 
    unfold one_line in *. rewrite forallb_forall in *. intros x Hx.
    specialize (Hd2 x Hx). apply is_digit_spec in Hd2.
    unfold is_linebreak.
    repeat match goal with
    | |- context [(?a <=? ?b)%N] => destruct (N.leb_spec a b)
    | |- context [(?a =? ?b)%N] => destruct (N.eqb_spec a b)
    end; try reflexivity; lia. }
  rewrite adjust_headers_one_line.
  - apply adjust_line_example; auto using one_line_not_nl.
  - unfold example_title. rewrite !one_line_app, H1, H2, H3, Hdl, Hrl. reflexivity.
Qed.

Lemma adjust_headers_example_witness :
  forallb is_space (u " ") = true
  /\ u " " <> [] /\ forallb is_space (u " ") = true
  /\ u "1" <> [] /\ forallb is_digit (u "1") = true
  /\ is_range (u "-2") = true
  /\ one_line (u " " ++ u " " ++ u " Title ") = true
  /\ adjust_headers
       (u "#####" ++ u " " ++ example_title (u " ") (u "1") (u "-2") (u " Title "))
     = u "*" ++ example_title (u " ") (u "1") (u "-2") (rstrip (u " Title "))
       ++ u "*".
Proof.
  split; [reflexivity|]. split; [discriminate|]. split; [reflexivity|].
  split; [discriminate|]. split; [reflexivity|]. split; [reflexivity|].
  split; [reflexivity|].
  apply (adjust_headers_example (u " ") (u " ") (u "1") (u "-2") (u " Title "));
    try reflexivity; discriminate.
Defined.

(** X12.  The line [# Chapter Goals], with white space around it or not,
    becomes [### Chapter Goals]: two levels deeper, and the white space
    is gone. *)
Theorem adjust_headers_chapter_goals (w1 w2 : str) :
  forallb is_space w1 = true -> forallb is_space w2 = true ->
  one_line (w1 ++ w2) = true ->
  adjust_headers (w1 ++ u "# Chapter Goals" ++ w2) = u "### Chapter Goals".
Proof.
  intros H1 H2 H. rewrite one_line_app in H. apply andb_prop in H as [Ha Hb].
  rewrite adjust_headers_one_line by (rewrite !one_line_app, Ha, Hb; reflexivity).
  apply adjust_line_chapter_goals; assumption.
Qed.

Lemma adjust_headers_chapter_goals_witness :
  forallb is_space (u "  ") = true /\ forallb is_space (u " ") = true
  /\ one_line (u "  " ++ u " ") = true
  /\ adjust_headers (u "  " ++ u "# Chapter Goals" ++ u " ") = u "### Chapter Goals".
Proof.
  split; [reflexivity|]. split; [reflexivity|]. split; [reflexivity|].
  apply (adjust_headers_chapter_goals (u "  ") (u " ")); reflexivity.
Defined.

(** X13.  A level-one chapter header keeps its level.  The line reads
    [#], white space, [Chapter], white space, and a text that starts
    with a digit or a full stop; it is returned as it is. *)
Theorem adjust_headers_keeps_chapter (sp sp2 tl : str) (n : char) :
  sp <> [] -> forallb is_space sp = true ->
  sp2 <> [] -> forallb is_space sp2 = true ->
  is_chapter_number n = true ->
  one_line (sp ++ sp2 ++ tl) = true ->
  adjust_headers (u "#" ++ sp ++ u "Chapter" ++ sp2 ++ n :: tl)
  = u "#" ++ sp ++ u "Chapter" ++ sp2 ++ n :: tl.
Proof.
  intros Hne Hsp Hne2 Hsp2 Hn Hone.
  rewrite !one_line_app in Hone. apply andb_prop in Hone as [H1 Hone].
  apply andb_prop in Hone as [H2 H3].
  assert (Hnl : negb (is_linebreak n) = true).
  { unfold is_chapter_number in Hn. apply orb_prop in Hn as [Hn|Hn].
    - apply is_digit_spec in Hn. unfold is_linebreak.
      repeat match goal with
      | |- context [(?a <=? ?b)%N] => destruct (N.leb_spec a b)
      | |- context [(?a =? ?b)%N] => destruct (N.eqb_spec a b)
      end; try reflexivity; lia.
    - apply ceqb_eq in Hn. subst n. reflexivity. }
  rewrite adjust_headers_one_line.
  - apply adjust_line_chapter; auto using one_line_not_nl.
  - rewrite !one_line_app, H1, H2.
    change (one_line (n :: tl)) with (negb (is_linebreak n) && one_line tl).
    rewrite Hnl, H3. reflexivity.
Qed.

Lemma adjust_headers_keeps_chapter_witness :
  u " " <> [] /\ forallb is_space (u " ") = true
  /\ u " " <> [] /\ forallb is_space (u " ") = true
  /\ is_chapter_number 49%N = true
  /\ one_line (u " " ++ u " " ++ u "2: Setup") = true
  /\ adjust_headers (u "#" ++ u " " ++ u "Chapter" ++ u " " ++ 49%N :: u "2: Setup")
     = u "#" ++ u " " ++ u "Chapter" ++ u " " ++ 49%N :: u "2: Setup".
Proof.
  split; [discriminate|]. split; [reflexivity|]. split; [discriminate|].
  split; [reflexivity|]. split; [reflexivity|]. split; [reflexivity|].
  apply (adjust_headers_keeps_chapter (u " ") (u " ") (u "2: Setup") 49%N);
    try reflexivity; discriminate.
Defined.

(** X14.  A line that does not start with a hash is returned as it is,
    an indented header included, unless its stripped form is the line
    [# Chapter Goals]. *)
Theorem adjust_headers_keeps_other_lines (line : str) :
  one_line line = true -> first_is 35%N line = false ->
  str_eqb (strip line) (u "# Chapter Goals") = false ->
  adjust_headers line = line.
Proof.
  intros Hone H Hg. rewrite (adjust_headers_one_line line Hone).
  apply adjust_line_no_hash; assumption.
Qed.

Lemma adjust_headers_keeps_other_lines_witness :
  one_line (u "  ## Indented") = true
  /\ first_is 35%N (u "  ## Indented") = false
  /\ str_eqb (strip (u "  ## Indented")) (u "# Chapter Goals") = false
  /\ adjust_headers (u "  ## Indented") = u "  ## Indented".
Proof.
  split; [reflexivity|]. split; [reflexivity|]. split; [reflexivity|].
  apply (adjust_headers_keeps_other_lines (u "  ## Indented")); reflexivity.
Defined.

(** ** convert_superscript_footnotes *)

(** X15.  The first superscript footnote.  Let no line of [pre] start
    with [<sup>\[], and let a line after [pre] read [<sup>\[d\](#a)</sup>]
    with digits [d] and an anchor [a] without [)], both not empty, then
    white space [sp], not empty, then the caption [cap] up to the end of
    the line.  The line becomes [\[^d\]: cap], the text before it is kept
    and the pass goes on after the line. *)
Theorem convert_superscript_footnotes_first (pre d a sp cap post : str) :
  no_line_starts (u "<sup>[") None pre = true ->
  line_start (prev_after None pre) = true ->
  d <> [] -> forallb is_digit d = true ->
  a <> [] -> forallb not_rparen a = true ->
  sp <> [] -> forallb is_space sp = true -> starts_without_space (cap ++ post) ->
  forallb not_nl cap = true -> line_end post = true ->
  convert_superscript_footnotes (pre ++ superscript_head d a ++ sp ++ cap ++ post) =
  pre ++ u "[^" ++ d ++ u "]: " ++ cap ++ convert_superscript_footnotes post.
Proof.
  intros Hpre Hstart Hdne Hd Hane Ha Hspne Hsp Hcs Hcap Hpost.
  pose proof (superscript_footnote_match _ d a sp cap post Hstart Hdne Hd Hane Ha
                Hspne Hsp Hcs Hcap Hpost) as Hm.
  unfold convert_superscript_footnotes, sub.
  replace (pre ++ superscript_head d a ++ sp ++ cap ++ post)
    with (pre ++ (superscript_head d a ++ sp ++ cap) ++ post)
    by (list_norm; reflexivity).
  unfold superscript_footnote_pattern in *.
  rewrite (sub_first_line MULTILINE eq_refl (u "<sup>[") _ _ pre _ post _
             ltac:(discriminate) eq_refl Hpre Hstart Hm eq_refl).
  - cbn [expand footnote_template flat_map group groups lookup Nat.eqb].
    list_norm. reflexivity.
  - unfold superscript_head. discriminate.
  - exact Hpost.
Qed.

Lemma convert_superscript_footnotes_first_witness :
  no_line_starts (u "<sup>[") None (u "Intro" ++ [nl]) = true
  /\ line_start (prev_after None (u "Intro" ++ [nl])) = true
  /\ u "12" <> [] /\ forallb is_digit (u "12") = true
  /\ u "fn12" <> [] /\ forallb not_rparen (u "fn12") = true
  /\ u " " <> [] /\ forallb is_space (u " ") = true
  /\ starts_without_space (u "Some text" ++ nl :: u "more")
  /\ forallb not_nl (u "Some text") = true
  /\ line_end (nl :: u "more") = true
  /\ convert_superscript_footnotes
       ((u "Intro" ++ [nl]) ++ superscript_head (u "12") (u "fn12") ++ u " "
        ++ u "Some text" ++ nl :: u "more")
     = (u "Intro" ++ [nl]) ++ u "[^" ++ u "12" ++ u "]: " ++ u "Some text"
       ++ convert_superscript_footnotes (nl :: u "more").
Proof.
  split; [reflexivity|]. split; [reflexivity|]. split; [discriminate|].
  split; [reflexivity|]. split; [discriminate|]. split; [reflexivity|].
  split; [discriminate|].
  split; [reflexivity|]. split; [reflexivity|]. split; [reflexivity|].
  split; [reflexivity|].
  apply (convert_superscript_footnotes_first (u "Intro" ++ [nl]) (u "12")
           (u "fn12") (u " ") (u "Some text") (nl :: u "more"));
    try reflexivity; discriminate.
Defined.

(** ** process_html_figures *)

(** X16.  The caption of the first figure block.  Let the first
    [<figure] open a tag with attributes [fa]; let the content up to the
    first [</figure>] hold one [h6] element with attributes [ha] and the
    text [cap], and no other [h6] tag.  The block is written again with
    a bare [<figure>] tag, the [h6] element as a [figcaption] element
    with the same attributes and text, the content stripped and set on
    a line of its own.  The text before the block is kept and the pass
    goes on after the closing tag. *)
Theorem process_html_figures_caption
    (pre fa c1 ha cap c2 tail : str) :
  free_of IGNORECASE_DOTALL (u "<figure") pre
    (figure_open fa ++ captioned_content c1 ha cap c2 ++ u "</figure>" ++ tail)
  = true ->
  forallb not_gt fa = true ->
  free_of IGNORECASE_DOTALL (u "</figure>") (captioned_content c1 ha cap c2)
    (u "</figure>" ++ tail) = true ->
  no_h6 c1 = true -> forallb not_gt ha = true -> forallb not_lt ha = true ->
  no_h6 cap = true -> no_h6 c2 = true ->
  process_html_figures
    (pre ++ figure_open fa ++ captioned_content c1 ha cap c2 ++ u "</figure>"
     ++ tail) =
  pre ++ u "<figure>" ++ [nl] ++ strip (figcaption_content c1 ha cap c2) ++ [nl]
  ++ u "</figure>" ++ process_html_figures tail.
Proof.
  intros Hpre Hfa Hfree H1 Hgt Hlt Hcap H2.
  unfold process_html_figures.
  pose proof (figure_match None fa _ tail Hfa Hfree) as Hm.
  replace (pre ++ figure_open fa ++ captioned_content c1 ha cap c2 ++ u "</figure>"
           ++ tail)
    with (pre ++ (figure_open fa ++ captioned_content c1 ha cap c2 ++ u "</figure>")
          ++ tail) by (list_norm; reflexivity).
  replace (figure_open fa ++ captioned_content c1 ha cap c2 ++ u "</figure>" ++ tail)
    with ((figure_open fa ++ captioned_content c1 ha cap c2 ++ u "</figure>")
          ++ tail) in Hpre, Hm by (list_norm; reflexivity).
  rewrite (sub_first_head IGNORECASE_DOTALL figure_pattern (u "<figure") figure_head
             eq_refl _ pre _ tail _ Hpre Hm eq_refl)
    by (unfold figure_open; discriminate).
  unfold _normalize_and_replace_h6. cbn [group groups lookup Nat.eqb].
  fold (h6_to_figcaption (captioned_content c1 ha cap c2)).
  rewrite (h6_to_figcaption_caption c1 ha cap c2 H1 Hgt Hlt Hcap H2).
  list_norm. reflexivity.
Qed.

Lemma process_html_figures_caption_witness :
  free_of IGNORECASE_DOTALL (u "<figure") (u "a")
    (figure_open (q " id=`f`")
     ++ captioned_content (u "<img/>") (q " class=`c`") (u "Cap") [nl]
     ++ u "</figure>" ++ u "b") = true
  /\ forallb not_gt (q " id=`f`") = true
  /\ free_of IGNORECASE_DOTALL (u "</figure>")
       (captioned_content (u "<img/>") (q " class=`c`") (u "Cap") [nl])
       (u "</figure>" ++ u "b") = true
  /\ no_h6 (u "<img/>") = true
  /\ forallb not_gt (q " class=`c`") = true
  /\ forallb not_lt (q " class=`c`") = true
  /\ no_h6 (u "Cap") = true /\ no_h6 [nl] = true
  /\ process_html_figures
       (u "a" ++ figure_open (q " id=`f`")
        ++ captioned_content (u "<img/>") (q " class=`c`") (u "Cap") [nl]
        ++ u "</figure>" ++ u "b")
     = u "a" ++ u "<figure>" ++ [nl]
       ++ strip (figcaption_content (u "<img/>") (q " class=`c`") (u "Cap") [nl])
       ++ [nl] ++ u "</figure>" ++ process_html_figures (u "b").
Proof.
  split; [vm_compute; reflexivity|]. split; [reflexivity|].
  split; [vm_compute; reflexivity|]. split; [vm_compute; reflexivity|].
  split; [reflexivity|]. split; [reflexivity|].
  split; [vm_compute; reflexivity|]. split; [vm_compute; reflexivity|].
  apply (process_html_figures_caption (u "a") (q " id=`f`") (u "<img/>")
           (q " class=`c`") (u "Cap") [nl] (u "b"));
    vm_compute; reflexivity.
Defined.

(** ** convert_internal_links_to_text *)

(** X17.  The first internal link is replaced by its text.  Let the
    first [<a] open a tag that reads white space, an [href] attribute
    whose quoted value is [#] and the anchor, and attributes [attrs],
    with no second such [href] in the tag; let the link text [c] hold no
    line feed and end at the first [</a>].  The link is replaced by [c],
    the text before it is kept and the pass goes on after the closing
    tag. *)
Theorem convert_internal_links_first (pre sp anchor attrs c post : str) :
  free_of IGNORECASE (u "<a") pre (internal_link sp anchor attrs c ++ post) = true ->
  sp <> [] -> forallb is_space sp = true ->
  forallb not_dq anchor = true -> forallb not_gt anchor = true ->
  forallb not_gt attrs = true ->
  free_of IGNORECASE (q "href=`#") (anchor ++ [dq] ++ attrs)
    (u ">" ++ c ++ u "</a>" ++ post) = true ->
  forallb not_nl c = true ->
  free_of IGNORECASE (u "</a>") c (u "</a>" ++ post) = true ->
  convert_internal_links_to_text (pre ++ internal_link sp anchor attrs c ++ post) =
  pre ++ c ++ convert_internal_links_to_text post.
Proof.
  intros Hpre Hne Hsp Ha Hagt Ht Honce Hc Hfc.
  pose proof (internal_link_match None sp anchor attrs c post Hne Hsp Ha Hagt Ht
                Honce Hc Hfc) as Hm.
  unfold convert_internal_links_to_text, sub. unfold internal_link_pattern in *.
  rewrite (sub_first IGNORECASE (u "<a")
             [plus ws; opt (cat [lazy_star (notc 62%N); plus ws]);
              lit (q "href=`#"); star (notc dq); lit [dq]; star (notc 62%N);
              lit (u ">"); Grp 1 (lazy_star dot); lit (u "</a>")]
             _ pre _ post _ eq_refl Hpre Hm eq_refl).
  - cbn [expand flat_map group groups lookup Nat.eqb]. rewrite app_nil_r.
    reflexivity.
  - unfold internal_link. discriminate.
Qed.

Lemma convert_internal_links_first_witness :
  free_of IGNORECASE (u "<a") (u "see ")
    (internal_link (u " ") (u "sec1") (q " class=`xref`") (u "Section 1")
     ++ u ".") = true
  /\ u " " <> [] /\ forallb is_space (u " ") = true
  /\ forallb not_dq (u "sec1") = true /\ forallb not_gt (u "sec1") = true
  /\ forallb not_gt (q " class=`xref`") = true
  /\ free_of IGNORECASE (q "href=`#") (u "sec1" ++ [dq] ++ q " class=`xref`")
       (u ">" ++ u "Section 1" ++ u "</a>" ++ u ".") = true
  /\ forallb not_nl (u "Section 1") = true
  /\ free_of IGNORECASE (u "</a>") (u "Section 1") (u "</a>" ++ u ".") = true
  /\ convert_internal_links_to_text
       (u "see "
        ++ internal_link (u " ") (u "sec1") (q " class=`xref`") (u "Section 1")
        ++ u ".")
     = u "see " ++ u "Section 1" ++ convert_internal_links_to_text (u ".").
Proof.
  split; [vm_compute; reflexivity|]. split; [discriminate|].
  split; [reflexivity|]. split; [reflexivity|]. split; [reflexivity|].
  split; [reflexivity|]. split; [vm_compute; reflexivity|].
  split; [reflexivity|]. split; [vm_compute; reflexivity|].
  apply (convert_internal_links_first (u "see ") (u " ") (u "sec1")
           (q " class=`xref`") (u "Section 1") (u "."));
    try (vm_compute; reflexivity); discriminate.
Defined.

(** ** normalize_blockquoted_headers *)

(** X18.  A header in a blockquote is set to level three.  For a text
    that starts with [>], white space, one to six hashes, white space
    and the rest of the line, as [header_parts] requires, the hashes
    are replaced by [###], whatever their number; the white space and
    the title are kept, and the pass goes on with the text after the
    line. *)
Theorem normalize_blockquoted_headers_level_three (w1 h w2 l x : str) :
  header_parts w1 h w2 l x ->
  normalize_blockquoted_headers (u ">" ++ w1 ++ h ++ w2 ++ l ++ x)
  = u ">" ++ w1 ++ u "###" ++ w2 ++ l ++ normalize_blockquoted_headers x.
Proof.
  intros Hparts. rewrite normalize_from_start, normalize_from_step.
  pose proof (header_at_intro None w1 h w2 l x eq_refl Hparts) as Hb.
  replace (u ">" ++ w1 ++ h ++ w2 ++ l ++ x)
    with ((62%N :: w1) ++ h ++ (w2 ++ l) ++ x)
    by (change (u ">") with [62%N]; list_norm; reflexivity).
  rewrite Hb.
  destruct Hparts as (_ & _ & _ & _ & _ & _ & _ & Hx).
  rewrite (normalize_from_line_start _ x Hx).
  change (u ">") with [62%N]. list_norm. reflexivity.
Qed.

Lemma normalize_blockquoted_headers_level_three_witness :
  header_parts (u " ") (u "#####") (u " ") (u "Title") (nl :: u "text")
  /\ normalize_blockquoted_headers
       (u ">" ++ u " " ++ u "#####" ++ u " " ++ u "Title" ++ nl :: u "text")
     = u ">" ++ u " " ++ u "###" ++ u " " ++ u "Title"
       ++ normalize_blockquoted_headers (nl :: u "text").
Proof.
  assert (H : header_parts (u " ") (u "#####") (u " ") (u "Title") (nl :: u "text")).
  { unfold header_parts. split; [reflexivity|]. split; [reflexivity|].
    split; [cbn; lia|]. split; [discriminate|]. split; [reflexivity|].
    split; [reflexivity|]. split; reflexivity. }
  split; [exact H|].
  apply (normalize_blockquoted_headers_level_three (u " ") (u "#####") (u " ")
           (u "Title") (nl :: u "text")). exact H.
Defined.

(** ** remove_reference_tags *)

(** X19.  remove_reference_tags is one pass, not a fixed point.  When a
    reference tag stands inside the name of another, the inner one is
    removed and what is left is a reference tag again, which a second
    call removes. *)
Theorem remove_reference_tags_single_pass (a b c : str) :
  a <> [] -> forallb is_word a = true ->
  b <> [] -> forallb is_word b = true ->
  forallb is_word c = true ->
  remove_reference_tags (u "{#" ++ a ++ tag_text b ++ c ++ u "}")
  = tag_text (a ++ c)
  /\ remove_reference_tags (tag_text (a ++ c)) = [].
Proof.
  intros Ha Hwa Hb Hwb Hwc. split.
  - change (u "{#") with [123%N; 35%N]. cbn [app].
    rewrite remove_reference_tags_step.
    replace (tag_at (123%N :: 35%N :: a ++ tag_text b ++ c ++ u "}"))
      with (@None (str * str)).
    2:{ unfold tag_at. cbn [ceqb N.eqb Pos.eqb andb].
        unfold tag_text. change (u "{#") with [123%N; 35%N]. cbn [app].
        rewrite (span_exact is_word a (123%N :: _) Hwa) by reflexivity.
        destruct a; [congruence | reflexivity]. }
    rewrite remove_reference_tags_step.
    rewrite (tag_at_not_brace 35%N _ eq_refl).
    rewrite (remove_reference_tags_skip_word a _ Hwa).
    rewrite (remove_reference_tags_step (tag_text b ++ _)).
    rewrite (tag_at_here b _ Hb Hwb).
    rewrite (remove_reference_tags_skip_word c _ Hwc).
    rewrite (remove_reference_tags_no_brace (u "}")) by reflexivity.
    unfold tag_text. change (u "{#") with [123%N; 35%N]. cbn [app].
    rewrite <- app_assoc. reflexivity.
  - rewrite <- (app_nil_r (tag_text (a ++ c))).
    rewrite remove_reference_tags_step.
    rewrite tag_at_here; [reflexivity | destruct a; [congruence | discriminate] |].
    rewrite forallb_app, Hwa, Hwc. reflexivity.
Qed.

Lemma remove_reference_tags_single_pass_witness :
  u "a" <> [] /\ forallb is_word (u "a") = true
  /\ u "b" <> [] /\ forallb is_word (u "b") = true
  /\ forallb is_word (u "c") = true
  /\ remove_reference_tags (u "{#" ++ u "a" ++ tag_text (u "b") ++ u "c" ++ u "}")
     = tag_text (u "a" ++ u "c")
  /\ remove_reference_tags (tag_text (u "a" ++ u "c")) = [].
Proof.
  split; [discriminate|]. split; [reflexivity|]. split; [discriminate|].
  split; [reflexivity|]. split; [reflexivity|].
  apply (remove_reference_tags_single_pass (u "a") (u "b") (u "c"));
    try reflexivity; discriminate.
Defined.

(** ** convert_html_snippet_to_markdown *)

(** X20.  The converter when pandoc fails.  Whatever the failure (pandoc
    missing, an exit code other than 0, another exception), the result
    is the snippet without its paragraph tags, so the snippet itself
    when it holds no [<p>]; something is written, and only to the error
    stream. *)
Theorem convert_html_snippet_failure_is_reported (e : env) (s f t : str) :
  (forall cmd input, failed (subprocess_run e cmd input) = true) ->
  fst (convert_html_snippet_to_markdown e s f t)
  = sub DOTALL paragraph_pattern [G 1] s
  /\ (contains (u "<p>") s = false ->
      fst (convert_html_snippet_to_markdown e s f t) = s)
  /\ snd (convert_html_snippet_to_markdown e s f t) <> []
  /\ forallb is_stderr (snd (convert_html_snippet_to_markdown e s f t)) = true.
Proof.
  intros H. destruct (convert_html_snippet_failed e s f t H) as (H1 & H2 & H3).
  split; [exact H1|]. split; [|split; assumption].
  intros Hp. rewrite H1. apply paragraphs_absent. exact Hp.
Qed.

Lemma convert_html_snippet_failure_is_reported_witness :
  (forall cmd input,
     failed (subprocess_run (env_without_pandoc [] []) cmd input) = true)
  /\ fst (convert_html_snippet_to_markdown (env_without_pandoc [] [])
            table_with_paragraph (u "html") (u "gfm"))
     = sub DOTALL paragraph_pattern [G 1] table_with_paragraph
  /\ (contains (u "<p>") table_with_paragraph = false ->
      fst (convert_html_snippet_to_markdown (env_without_pandoc [] [])
             table_with_paragraph (u "html") (u "gfm"))
      = table_with_paragraph)
  /\ snd (convert_html_snippet_to_markdown (env_without_pandoc [] [])
            table_with_paragraph (u "html") (u "gfm")) <> []
  /\ forallb is_stderr
       (snd (convert_html_snippet_to_markdown (env_without_pandoc [] [])
               table_with_paragraph (u "html") (u "gfm"))) = true.
Proof.
  split; [intros cmd input; reflexivity|].
  apply (convert_html_snippet_failure_is_reported (env_without_pandoc [] [])
           table_with_paragraph (u "html") (u "gfm")).
  intros cmd input. reflexivity.
Defined.

(** X21.  The converter when pandoc succeeds.  When pandoc, run on the
    snippet without its paragraph tags, ends with exit code 0 and an
    output without opening brace, so that it holds no identifier to
    remove, the result is that output stripped; nothing is written but
    the warning on a missing Lua filter. *)
Theorem convert_html_snippet_success (e : env) (s f t out err : str) :
  (forall cmd,
     subprocess_run e cmd (sub DOTALL paragraph_pattern [G 1] s)
     = Completed 0 out err) ->
  forallb not_lbrace out = true ->
  fst (convert_html_snippet_to_markdown e s f t) = strip out
  /\ length (snd (convert_html_snippet_to_markdown e s f t))
     = (if path_exists e (LUA_TABLE_FLATTENER_FILTER e) then 0 else 1).
Proof.
  intros Hrun Hout. unfold convert_html_snippet_to_markdown.
  assert (Hs : forallb not_lbrace (strip out) = true).
  { unfold strip. apply rstrip_forallb, lstrip_forallb, Hout. }
  destruct (path_exists e (LUA_TABLE_FLATTENER_FILTER e));
    rewrite Hrun; cbn [Z.eqb fst snd length];
    rewrite (table_id_absent _ Hs); split; reflexivity.
Qed.

Lemma convert_html_snippet_success_witness :
  (forall cmd,
     subprocess_run (env_with_pandoc (u "| a |" ++ [nl])) cmd
       (sub DOTALL paragraph_pattern [G 1] table_with_paragraph)
     = Completed 0 (u "| a |" ++ [nl]) [])
  /\ forallb not_lbrace (u "| a |" ++ [nl]) = true
  /\ fst (convert_html_snippet_to_markdown (env_with_pandoc (u "| a |" ++ [nl]))
            table_with_paragraph (u "html") (u "gfm"))
     = strip (u "| a |" ++ [nl])
  /\ length (snd (convert_html_snippet_to_markdown
                    (env_with_pandoc (u "| a |" ++ [nl]))
                    table_with_paragraph (u "html") (u "gfm")))
     = (if path_exists (env_with_pandoc (u "| a |" ++ [nl]))
             (LUA_TABLE_FLATTENER_FILTER (env_with_pandoc (u "| a |" ++ [nl])))
        then 0 else 1).
Proof.
  split; [intros cmd; reflexivity|]. split; [reflexivity|].
  apply (convert_html_snippet_success (env_with_pandoc (u "| a |" ++ [nl]))
           table_with_paragraph (u "html") (u "gfm") (u "| a |" ++ [nl]) []).
  - intros cmd. reflexivity.
  - reflexivity.
Defined.

(** ** convert_tables_to_markdown *)

(** X22.  The first table block.  Let the first [<table] open a tag with
    attributes [attrs], and let [c] be the content up to the first
    [</table>].  The block is replaced by what the converter returns
    for it, from HTML to GFM; the text before it is kept, the pass goes
    on after the closing tag, and the messages of the conversions come
    in the order of the tables. *)
Theorem convert_tables_first_table (e : env) (pre attrs c post : str) :
  free_of IGNORECASE_DOTALL (u "<table") pre (table_block attrs c ++ post) = true ->
  forallb not_gt attrs = true ->
  free_of IGNORECASE_DOTALL (u "</table>") c (u "</table>" ++ post) = true ->
  convert_tables_to_markdown e (pre ++ table_block attrs c ++ post) =
  (pre ++ converted_table e (table_block attrs c)
       ++ fst (convert_tables_to_markdown e post),
   table_events e (table_block attrs c)
       ++ snd (convert_tables_to_markdown e post)).
Proof.
  intros Hpre Ha Hc. rewrite !convert_tables_eq. cbn [fst snd].
  unfold table_pattern in *.
  rewrite (scan_free_of IGNORECASE_DOTALL (u "<table") _ pre _ None Hpre).
  pose proof (table_match (prev_after None pre) attrs c post Ha Hc) as Hm.
  unfold table_pattern in Hm.
  rewrite (scan_found IGNORECASE_DOTALL _ _ (table_block attrs c) post _ Hm eq_refl)
    by (unfold table_block; discriminate).
  rewrite (scan_bol_free IGNORECASE_DOTALL
             (cat [lit (u "<table"); star (notc 62%N); lit (u ">");
                   lazy_star dot; lit (u "</table>")]) eq_refl post _ None).
  match goal with
  | |- context [sub_fold _ (map Keep pre ++ ?sg) _] =>
      destruct (convert_tables_keep e pre sg) as [K1 K2]
  end.
  rewrite K1, K2.
  match goal with
  | |- context [sub_fold _ (Found ?h :: ?sg) _] =>
      destruct (convert_tables_found e h sg) as [F1 F2]
  end.
  rewrite F1, F2. reflexivity.
Qed.

Lemma convert_tables_first_table_witness :
  free_of IGNORECASE_DOTALL (u "<table") (u "a")
    (table_block (q " id=`t`") (u "<tr>x</tr>") ++ u "b") = true
  /\ forallb not_gt (q " id=`t`") = true
  /\ free_of IGNORECASE_DOTALL (u "</table>") (u "<tr>x</tr>")
       (u "</table>" ++ u "b") = true
  /\ convert_tables_to_markdown (env_with_pandoc (u "| x |" ++ [nl]))
       (u "a" ++ table_block (q " id=`t`") (u "<tr>x</tr>") ++ u "b")
     = (u "a"
        ++ converted_table (env_with_pandoc (u "| x |" ++ [nl]))
             (table_block (q " id=`t`") (u "<tr>x</tr>"))
        ++ fst (convert_tables_to_markdown (env_with_pandoc (u "| x |" ++ [nl]))
                  (u "b")),
        table_events (env_with_pandoc (u "| x |" ++ [nl]))
          (table_block (q " id=`t`") (u "<tr>x</tr>"))
        ++ snd (convert_tables_to_markdown (env_with_pandoc (u "| x |" ++ [nl]))
                  (u "b"))).
Proof.
  split; [vm_compute; reflexivity|]. split; [reflexivity|].
  split; [vm_compute; reflexivity|].
  apply (convert_tables_first_table (env_with_pandoc (u "| x |" ++ [nl])) (u "a")
           (q " id=`t`") (u "<tr>x</tr>") (u "b"));
    vm_compute; reflexivity.
Defined.

(** X23.  When every pandoc invocation fails and the text holds no [<p>],
    convert_tables_to_markdown returns the text as it was, whatever
    tables it holds. *)
Theorem convert_tables_failure_keeps_text_without_paragraphs (e : env) (text : str) :
  (forall cmd input, failed (subprocess_run e cmd input) = true) ->
  contains (u "<p>") text = false ->
  fst (convert_tables_to_markdown e text) = text.
Proof.
  intros He Hp. unfold convert_tables_to_markdown.
  pose proof (sub_fold_tables_failed e He
                (scan IGNORECASE_DOTALL table_pattern None 0 text) ([], 0)
                (scan_hits_inside IGNORECASE_DOTALL table_pattern _
                   (contains_inside (u "<p>")) text None 0 Hp)) as H.
  destruct (sub_fold (replace_with_markdown_table e) _ ([], 0)) as [out [log cnt]].
  cbn [fst] in *. rewrite H.
  apply (scan_render_whole IGNORECASE_DOTALL table_pattern text None 0). lia.
Qed.

Lemma convert_tables_failure_keeps_text_without_paragraphs_witness :
  (forall cmd input,
     failed (subprocess_run (env_without_pandoc [] []) cmd input) = true)
  /\ contains (u "<p>") (u "a<table><tr>x</tr></table>b<TABLE></TABLE>") = false
  /\ fst (convert_tables_to_markdown (env_without_pandoc [] [])
            (u "a<table><tr>x</tr></table>b<TABLE></TABLE>"))
     = u "a<table><tr>x</tr></table>b<TABLE></TABLE>".
Proof.
  split; [intros cmd input; reflexivity|]. split; [reflexivity|].
  apply (convert_tables_failure_keeps_text_without_paragraphs
           (env_without_pandoc [] [])
           (u "a<table><tr>x</tr></table>b<TABLE></TABLE>")).
  - intros cmd input. reflexivity.
  - reflexivity.
Defined.

(** ** The main program *)

(** X24.  The main program writes only a changed text.  If a run writes
    a text, then a path was given on the command line, the file was
    read, the text written is the result of the pipeline on the content
    read and differs from it, it went to the same path, and the run did
    not exit with a status. *)
Theorem main_writes_only_a_change (e : env) (argv : list str) (c : str) :
  written (main e argv) = Some c ->
  exists script path args content,
    argv = script :: path :: args
    /\ read_file e path = ReadOk content
    /\ c = fst (pipeline e (hd default_media_folder args) content)
    /\ c <> content
    /\ write_file e path c = None
    /\ exit_status (main e argv) = None.
Proof.
  unfold main. destruct argv as [|script [|path args]]; try discriminate.
  destruct (read_file e path) as [content| |ex] eqn:Er; try discriminate.
  destruct (pipeline e _ content) as [out log] eqn:Ep.
  destruct (str_eqb out content) eqn:Eq; cbn [negb]; [discriminate|].
  destruct (write_file e path out) eqn:Ew; [discriminate|].
  cbn [written exit_status]. intros H. inversion H; subst c.
  exists script, path, args, content.
  repeat split; try assumption.
  - replace (hd default_media_folder args)
      with (match args with folder :: _ => folder | [] => u "assets" end)
      by (destruct args; reflexivity).
    rewrite Ep. reflexivity.
  - intros ->. rewrite str_eqb_refl in Eq. discriminate.
Qed.

Lemma main_writes_only_a_change_witness :
  written (main (env_without_pandoc (u "book.md") (u "## Foo"))
             [u "post_processor.py"; u "book.md"]) = Some (u "### Foo")
  /\ exists script path args content,
       [u "post_processor.py"; u "book.md"] = script :: path :: args
       /\ read_file (env_without_pandoc (u "book.md") (u "## Foo")) path
          = ReadOk content
       /\ u "### Foo"
          = fst (pipeline (env_without_pandoc (u "book.md") (u "## Foo"))
                   (hd default_media_folder args) content)
       /\ u "### Foo" <> content
       /\ write_file (env_without_pandoc (u "book.md") (u "## Foo")) path
            (u "### Foo") = None
       /\ exit_status (main (env_without_pandoc (u "book.md") (u "## Foo"))
                         [u "post_processor.py"; u "book.md"]) = None.
Proof.
  split; [vm_compute; reflexivity|].
  apply (main_writes_only_a_change (env_without_pandoc (u "book.md") (u "## Foo"))
           [u "post_processor.py"; u "book.md"] (u "### Foo")).
  vm_compute. reflexivity.
Defined.

(** X25.  The main program on a file with nothing to rewrite.  When the
    file is read, its content holds no pattern of any pass of the
    pipeline, its only line boundaries are single line feeds and it does
    not end with one, the run writes no file, prints nothing and does
    not exit with a status. *)
Theorem main_leaves_clean_file (e : env) (script path content : str)
    (args : list str) :
  read_file e path = ReadOk content ->
  pattern_free content = true -> plain_lines content = true ->
  main e (script :: path :: args) = Run None [] None.
Proof.
  intros Hr Hf Hp. unfold main. rewrite Hr.
  rewrite (pipeline_pattern_free e _ content Hf Hp).
  rewrite str_eqb_refl. reflexivity.
Qed.

Lemma main_leaves_clean_file_witness :
  read_file (env_without_pandoc (u "book.md") captioned_image) (u "book.md")
  = ReadOk captioned_image
  /\ pattern_free captioned_image = true
  /\ plain_lines captioned_image = true
  /\ main (env_without_pandoc (u "book.md") captioned_image)
       [u "post_processor.py"; u "book.md"; u "media"] = Run None [] None.
Proof.
  split; [reflexivity|]. split; [vm_compute; reflexivity|].
  split; [vm_compute; reflexivity|].
  apply (main_leaves_clean_file (env_without_pandoc (u "book.md") captioned_image)
           (u "post_processor.py") (u "book.md") captioned_image [u "media"]);
    vm_compute; reflexivity.
Defined.
